(** * dxcore: adapter discovery and driver-store resolution

    A shallow embedding of
    [vendor/github.com/NVIDIA/nvidia-container-toolkit/internal/dxcore/dxcore.c]
    and [dxcore.h], and the properties of it that the specification states.

    The C code talks to three things outside itself: the C allocator
    ([malloc], [calloc], [realloc], [free]), the dynamic loader ([dlopen],
    [dlsym], [dlclose]) and the two entry points of [libdxcore.so].  All three
    are kept explicit:

    - the heap is a finite map from block identifiers to live allocations; a
      block that was freed is gone from the map and its identifier is never
      handed out again, so a dangling pointer stays dangling;
    - every allocation request consumes one entry of a script of outcomes, so
      that any pattern of out-of-memory conditions can be replayed;
    - the library entry points are functions of the history of library calls
      and of their arguments, so that a library may answer the same request
      differently the second time.

    A computation is a function from the world to [option]: [None] stands for
    undefined behaviour of the C program (a load through a null or dangling
    pointer, a call through a null function pointer, a double free).

    Sizes are those of the LP64 Linux ABI the file is built for:
    [sizeof(wchar_t) = 4], [sizeof(unsigned int) = 4], pointers of 8 bytes. *)

From stdpp Require Import base option list gmap.
From Stdlib Require Import ZArith Lia.

Local Open Scope Z_scope.

(** ** Machine integers and object sizes *)

(** [unsigned int] is 32 bits wide; arithmetic on it wraps around. *)
Definition wrap32 (z : Z) : Z := z mod 2 ^ 32.

Definition sizeof_wchar_t : Z := 4.
Definition sizeof_char : Z := 1.
Definition sizeof_unsigned_int : Z := 4.

(** [#define DXCORE_MAX_PATH 260] *)
Definition DXCORE_MAX_PATH : Z := 260.

(** [#define MAX_DXCORE_DRIVERSTORE_LIBRAIRIES (16)] *)
Definition MAX_DXCORE_DRIVERSTORE_LIBRAIRIES : Z := 16.

(** The minimum driver-model version, WDDM 2.7, as the literal of
    [dxcore_add_adapter] has it. *)
Definition WDDM_2_7 : Z := 2700.

(** ** Pointers *)

Inductive ptr : Type :=
| NULL
| Ptr (b : positive).

#[global] Instance ptr_eq_dec : EqDecision ptr.
Proof. solve_decision. Defined.

Definition is_null (p : ptr) : bool :=
  match p with NULL => true | Ptr _ => false end.

(** ** The structures of dxcore.h and dxcore.c *)

(** [struct dxcore_luid] *)
Record dxcore_luid : Type := mk_luid {
  lowPart : Z;
  highPart : Z
}.

#[global] Instance dxcore_luid_eq_dec : EqDecision dxcore_luid.
Proof. solve_decision. Defined.

(** [struct dxcore_adapter].  The array that holds these comes from
    [realloc], which does not initialise the part it adds: a field is [None]
    until the program has stored into it. *)
Record dxcore_adapter : Type := mk_adapter {
  hAdapter : option Z;
  wddmVersion : option Z;
  pDriverStorePath : option ptr;
  driverStoreComponentCount : option Z;
  pDriverStoreComponents : option (list ptr);
  pContext : option ptr
}.

Definition indeterminate_adapter : dxcore_adapter :=
  mk_adapter None None None None None None.

(** [struct dxcore_context] *)
Record dxcore_context : Type := mk_context {
  adapterCount : Z;
  adapterList : ptr;
  initialized : Z
}.

(** The zero state of a session, as [dxcore_init_context] sets it up. *)
Definition zero_context : dxcore_context := mk_context 0 NULL 0.

(** [struct dxcore_adapterInfo] *)
Record dxcore_adapterInfo : Type := mk_adapterInfo {
  ai_hAdapter : Z;
  AdapterLuid : dxcore_luid;
  NumOfSources : Z;
  bPresentMoveRegionsPreferred : Z
}.

(** [enum dxcore_kmtqueryAdapterInfoType] *)
Inductive dxcore_kmtqueryAdapterInfoType : Type :=
| DXCORE_QUERYDRIVERVERSION
| DXCORE_QUERYREGISTRY.

Definition kmtqueryAdapterInfoType_code (t : dxcore_kmtqueryAdapterInfoType) : Z :=
  match t with
  | DXCORE_QUERYDRIVERVERSION => 13
  | DXCORE_QUERYREGISTRY => 48
  end.

(** [enum dxcore_queryregistry_type] *)
Definition DXCORE_QUERYREGISTRY_DRIVERSTOREPATH : Z := 2.
Definition DXCORE_QUERYREGISTRY_DRIVERIMAGEPATH : Z := 3.

(** [enum dxcore_queryregistry_status] *)
Definition DXCORE_QUERYREGISTRY_STATUS_SUCCESS : Z := 0.
Definition DXCORE_QUERYREGISTRY_STATUS_BUFFER_OVERFLOW : Z := 1.
Definition DXCORE_QUERYREGISTRY_STATUS_FAIL : Z := 2.

(** [struct dxcore_queryregistry_info], without its trailing union: the wide
    characters that start at the member [Output] are kept next to the record
    wherever such an object lives. *)
Record dxcore_queryregistry_info : Type := mk_queryregistry_info {
  QueryType : Z;
  QueryFlags : Z;
  ValueName : list Z;
  ValueType : Z;
  PhysicalAdapterIndex : Z;
  OutputValueSize : Z;
  Status : Z
}.

(** [struct dxcore_queryregistry_info params = {0}] *)
Definition zero_queryregistry_info : dxcore_queryregistry_info :=
  mk_queryregistry_info 0 0 (replicate (Z.to_nat DXCORE_MAX_PATH) 0) 0 0 0 0.

Definition set_QueryType (q : dxcore_queryregistry_info) (v : Z) :=
  mk_queryregistry_info v (QueryFlags q) (ValueName q) (ValueType q)
    (PhysicalAdapterIndex q) (OutputValueSize q) (Status q).

Definition set_OutputValueSize (q : dxcore_queryregistry_info) (v : Z) :=
  mk_queryregistry_info (QueryType q) (QueryFlags q) (ValueName q) (ValueType q)
    (PhysicalAdapterIndex q) v (Status q).

(** 4 + 4 + 260 * 4 + 4 + 4 + 4 + 4 bytes of members, then the 8-byte union. *)
Definition offsetof_Output : Z := 1064.
Definition sizeof_union_Output : Z := 8.
Definition sizeof_queryregistry_info : Z := offsetof_Output + sizeof_union_Output.

(** 4 + 4 + 8 + 4 (+ 4 of padding) + 16 * 8 + 8 *)
Definition sizeof_adapter : Z := 160.

(** 4 + 8 + 4 + 4 *)
Definition sizeof_adapterInfo : Z := 20.

(** What [pPrivateDriverData] points to, by query kind: one [unsigned int]
    for the version query; a [dxcore_queryregistry_info] and the wide
    characters from [Output] on for the registry query. *)
Definition private_data (t : dxcore_kmtqueryAdapterInfoType) : Type :=
  match t with
  | DXCORE_QUERYDRIVERVERSION => Z
  | DXCORE_QUERYREGISTRY => (dxcore_queryregistry_info * list Z)%type
  end.

(** ** The heap *)

Inductive block : Type :=
| BChars (bs : list Z)
| BAdapters (l : list dxcore_adapter)
| BAdapterInfos (l : list (option dxcore_adapterInfo))
| BRegistry (q : dxcore_queryregistry_info) (out : list Z).

(** A live allocation: the size in bytes it was requested with, and its
    contents. *)
Record allocation : Type := mk_allocation {
  alloc_size : Z;
  content : block
}.

(** Calls into libdxcore.so, as the program issued them. *)
Inductive call : Type :=
| CallEnumAdapters2 (num_adapters : Z) (adapters : ptr)
| CallQueryAdapterInfo (handle : Z) (type : dxcore_kmtqueryAdapterInfoType)
    (data_size : Z).

(** The state of the process: the heap, the allocator, the loader, the calls
    made into the library so far, and what allocated memory that was never
    written turns out to hold ([uninitialised b i] for element [i] of block
    [b]). *)
Record world : Type := mk_world {
  heap : gmap positive allocation;
  next_block : positive;
  alloc_script : list bool;
  dl_handles : nat;
  calls : list call;
  uninitialised : positive -> Z -> Z
}.

Definition set_heap (w : world) (h : gmap positive allocation) : world :=
  mk_world h (next_block w) (alloc_script w) (dl_handles w) (calls w)
    (uninitialised w).

Definition set_dl_handles (w : world) (n : nat) : world :=
  mk_world (heap w) (next_block w) (alloc_script w) n (calls w)
    (uninitialised w).

Definition log_call (w : world) (c : call) : world :=
  mk_world (heap w) (next_block w) (alloc_script w) (dl_handles w)
    (calls w ++ [c]) (uninitialised w).

(** ** Computations *)

Definition M (A : Type) : Type := world -> option (A * world).

Definition ret {A} (a : A) : M A := fun w => Some (a, w).

Definition bind {A B} (m : M A) (k : A -> M B) : M B :=
  fun w => match m w with
           | Some (a, w') => k a w'
           | None => None
           end.

Definition undefined {A} : M A := fun _ => None.

Notation "'let*' x ':=' m 'in' k" := (bind m (fun x => k))
  (at level 10, x pattern, m at level 100, k at level 200).

Notation "m ';;' k" := (bind m (fun _ => k))
  (at level 100, k at level 200, right associativity).

(** A [for] loop whose body threads a value through the iterations. *)
Fixpoint for_each {A S} (body : S -> A -> M S) (l : list A) (s : S) : M S :=
  match l with
  | [] => ret s
  | a :: l' => let* s' := body s a in for_each body l' s'
  end.

(** ** The allocator *)

(** The outcome of the next allocation request; past the end of the script
    requests succeed. *)
Definition next_outcome (script : list bool) : bool * list bool :=
  match script with
  | [] => (true, [])
  | o :: s => (o, s)
  end.

Definition alloc (sz : Z) (c : block) : M ptr := fun w =>
  let '(ok, s) := next_outcome (alloc_script w) in
  if ok then
    Some (Ptr (next_block w),
          mk_world (<[next_block w := mk_allocation sz c]> (heap w))
                   (Pos.succ (next_block w)) s (dl_handles w) (calls w) (uninitialised w))
  else
    Some (NULL, mk_world (heap w) (next_block w) s (dl_handles w) (calls w) (uninitialised w)).

(** [malloc(size)]: the contents [c] are the indeterminate contents of the
    type the program uses the block at. *)
Definition malloc (size : Z) (c : block) : M ptr := alloc size c.

(** [calloc(nmemb, size)]: [c] is the all-zero contents. *)
Definition calloc (nmemb size : Z) (c : block) : M ptr := alloc (nmemb * size) c.

(** [free(p)]: nothing for a null pointer, undefined for a pointer that is
    not a live allocation. *)
Definition free (p : ptr) : M unit := fun w =>
  match p with
  | NULL => Some (tt, w)
  | Ptr b =>
      match heap w !! b with
      | Some _ => Some (tt, set_heap w (delete b (heap w)))
      | None => None
      end
  end.

Definition load (p : ptr) : M block := fun w =>
  match p with
  | NULL => None
  | Ptr b =>
      match heap w !! b with
      | Some a => Some (content a, w)
      | None => None
      end
  end.

(** A read of the [unsigned int] in element [i] of the block at [p] when
    nothing was stored there since the allocation. *)
Definition load_uninitialised (p : ptr) (i : Z) : M Z := fun w =>
  match p with
  | NULL => None
  | Ptr b => Some (wrap32 (uninitialised w b i), w)
  end.

Definition store (p : ptr) (c : block) : M unit := fun w =>
  match p with
  | NULL => None
  | Ptr b =>
      match heap w !! b with
      | Some a => Some (tt, set_heap w (<[b := mk_allocation (alloc_size a) c]> (heap w)))
      | None => None
      end
  end.

(** [realloc(p, sizeof(struct dxcore_adapter) * n)] on the adapter array.
    On failure the old block is untouched and NULL is returned.  On success
    the old elements are carried over to a new block, the elements added are
    indeterminate, and the old block is released. *)
Definition realloc_adapters (p : ptr) (n : Z) : M ptr := fun w =>
  let '(ok, s) := next_outcome (alloc_script w) in
  let old : option (list dxcore_adapter) :=
    match p with
    | NULL => Some []
    | Ptr b =>
        match heap w !! b with
        | Some (mk_allocation _ (BAdapters l)) => Some l
        | _ => None
        end
    end in
  match old with
  | None => None
  | Some l =>
      if ok then
        let h := match p with NULL => heap w | Ptr b => delete b (heap w) end in
        Some (Ptr (next_block w),
              mk_world (<[next_block w :=
                           mk_allocation (sizeof_adapter * n)
                             (BAdapters (resize (Z.to_nat n) indeterminate_adapter l))]> h)
                       (Pos.succ (next_block w)) s (dl_handles w) (calls w) (uninitialised w))
      else
        Some (NULL, mk_world (heap w) (next_block w) s (dl_handles w) (calls w) (uninitialised w))
  end.

(** Contents written over the start of a buffer; what does not fit in the
    buffer is dropped. *)
Definition overlay {A} (new old : list A) : list A :=
  take (length old) (new ++ drop (length new) old).

(** ** libdxcore.so and the loader *)

(** [struct dxcore_enumAdapters2] *)
Record dxcore_enumAdapters2 : Type := mk_enumAdapters2 {
  NumAdapters : Z;
  pAdapters : ptr
}.

(** What one call of [D3DKMTEnumAdapters2] does: its return value, the count
    it leaves in [NumAdapters] and the records it writes to [pAdapters]. *)
Record enum_reply : Type := mk_enum_reply {
  reply_status : Z;
  reply_NumAdapters : Z;
  reply_adapters : list dxcore_adapterInfo
}.

(** [pfnDxcoreEnumAdapters2]: from the calls made so far and the two members
    of the parameter block. *)
Definition pfnDxcoreEnumAdapters2 : Type :=
  list call -> Z -> ptr -> enum_reply.

(** [pfnDxcoreQueryAdapterInfo]: from the calls made so far and the members
    of [struct dxcore_queryAdapterInfo], that is [hAdapter], [Type], the
    contents behind [pPrivateDriverData] and [PrivateDriverDataSize], to the
    return value and the contents of the private data after the call. *)
Definition pfnDxcoreQueryAdapterInfo : Type :=
  list call -> Z -> forall t : dxcore_kmtqueryAdapterInfoType,
    private_data t -> Z -> Z * private_data t.

(** The symbols of a libdxcore.so image, as [dlsym] finds them. *)
Record libdxcore : Type := mk_libdxcore {
  D3DKMTEnumAdapters2 : option pfnDxcoreEnumAdapters2;
  D3DKMTQueryAdapterInfo : option pfnDxcoreQueryAdapterInfo
}.

(** The machine the program runs on: what [dlopen("libdxcore.so")] finds,
    and how the current locale converts one wide character to a multibyte
    character ([None]: no valid multibyte character). *)
Record platform : Type := mk_platform {
  libdxcore_so : option libdxcore;
  wctomb : Z -> option (list Z)
}.

(** [struct dxcore_lib] *)
Record dxcore_lib : Type := mk_lib {
  hDxcoreLib : option libdxcore;
  pDxcoreEnumAdapters2 : option pfnDxcoreEnumAdapters2;
  pDxcoreQueryAdapterInfo : option pfnDxcoreQueryAdapterInfo
}.

Definition dlopen (P : platform) : M (option libdxcore) := fun w =>
  match libdxcore_so P with
  | Some img => Some (Some img, set_dl_handles w (S (dl_handles w)))
  | None => Some (None, w)
  end.

Definition dlclose (h : option libdxcore) : M unit := fun w =>
  match h, dl_handles w with
  | Some _, S n => Some (tt, set_dl_handles w n)
  | _, _ => None
  end.

(** [pLib->pDxcoreEnumAdapters2(&params)] *)
Definition invoke_EnumAdapters2 (pLib : dxcore_lib) (params : dxcore_enumAdapters2)
  : M (Z * dxcore_enumAdapters2) := fun w =>
  match pDxcoreEnumAdapters2 pLib with
  | None => None
  | Some f =>
      let r := f (calls w) (NumAdapters params) (pAdapters params) in
      let w1 := log_call w (CallEnumAdapters2 (NumAdapters params) (pAdapters params)) in
      let params' := mk_enumAdapters2 (wrap32 (reply_NumAdapters r)) (pAdapters params) in
      match pAdapters params with
      | NULL => Some ((reply_status r, params'), w1)
      | Ptr b =>
          match heap w1 !! b with
          | Some (mk_allocation sz (BAdapterInfos buf)) =>
              Some ((reply_status r, params'),
                    set_heap w1
                      (<[b := mk_allocation sz
                               (BAdapterInfos (overlay (Some <$> reply_adapters r) buf))]>
                         (heap w1)))
          | _ => None
          end
      end
  end.

(** ** wcstombs *)

(** [wcstombs(dst, src, n)]: the bytes stored at [dst] and the return value.
    Nothing is converted once the [n] bytes are used up.  Before that,
    conversion stops at a wide character without a multibyte form (return
    value -1), when the next multibyte character would not fit in what is
    left of the [n] bytes, or once the terminating null has been stored.
    Running off the source without meeting a null is undefined. *)
Fixpoint wcstombs (wctomb : Z -> option (list Z)) (src : list Z) (n : nat)
  : option (list Z * Z) :=
  match n with
  | O => Some ([], 0)
  | S _ =>
      match src with
      | [] => None
      | c :: src' =>
          if c =? 0 then Some ([0], 0)
          else
            match wctomb c with
            | None => Some ([], -1)
            | Some mb =>
                if (length mb <=? n)%nat then
                  match wcstombs wctomb src' (n - length mb)%nat with
                  | Some (bs, r) =>
                      Some (mb ++ bs,
                            if r =? -1 then -1 else Z.of_nat (length mb) + r)
                  | None => None
                  end
                else Some ([], 0)
            end
      end
  end.

(** The "C" locale: the characters 1 to 127 are their own single byte. *)
Definition C_locale (c : Z) : option (list Z) :=
  if (0 <? c) && (c <? 128) then Some [c] else None.

(** A C string, narrow or wide: the characters before the first null. *)
Fixpoint c_string (bs : list Z) : list Z :=
  match bs with
  | [] => []
  | b :: bs' => if b =? 0 then [] else b :: c_string bs'
  end.

(** ** dxcore.c *)

(** [log_write] is defined as an empty macro, so the logging statements, and
    the reads of [AdapterLuid] in their arguments, are not part of the
    program. *)

Definition dxcore_query_adapter_info_helper (pLib : dxcore_lib) (hAdapter : Z)
    (type : dxcore_kmtqueryAdapterInfoType) (pPrivateDriverDate : private_data type)
    (privateDriverDataSize : Z) : M (Z * private_data type) := fun w =>
  match pDxcoreQueryAdapterInfo pLib with
  | None => None
  | Some f =>
      Some (f (calls w) hAdapter type pPrivateDriverDate privateDriverDataSize,
            log_call w (CallQueryAdapterInfo hAdapter type privateDriverDataSize))
  end.

Definition dxcore_query_adapter_wddm_version (pLib : dxcore_lib) (hAdapter : Z)
    (version : Z) : M (Z * Z) :=
  dxcore_query_adapter_info_helper pLib hAdapter DXCORE_QUERYDRIVERVERSION
    version sizeof_unsigned_int.

(** The number of wide characters between [Output] and the end of the block
    that [dxcore_query_adapter_driverstore] allocates for [outputSizeInBytes]
    bytes of output. *)
Definition output_slots (outputSizeInBytes : Z) : nat :=
  Z.to_nat ((sizeof_union_Output + outputSizeInBytes + sizeof_wchar_t) / sizeof_wchar_t).

Section with_platform.

Variable P : platform.

(** Returns the return value and what [*ppDriverStorePath] holds afterwards;
    [driverStorePath] is what it held before. *)
Definition dxcore_query_adapter_driverstore (pLib : dxcore_lib) (hAdapter : Z)
    (driverStorePath : ptr) : M (Z * ptr) :=
  let params := set_QueryType zero_queryregistry_info DXCORE_QUERYREGISTRY_DRIVERSTOREPATH in
  let* (st, (params, _)) :=
    dxcore_query_adapter_info_helper pLib hAdapter DXCORE_QUERYREGISTRY
      (params, replicate 2 0) sizeof_queryregistry_info in
  if negb (st =? 0) then ret (-1, driverStorePath)
  else if DXCORE_MAX_PATH * sizeof_wchar_t <? wrap32 (OutputValueSize params)
  then ret (-1, driverStorePath)
  else
    let outputSizeInBytes := wrap32 (OutputValueSize params) in
    let outputSize := outputSizeInBytes / sizeof_wchar_t in
    let* pValue :=
      calloc (sizeof_queryregistry_info + outputSizeInBytes + sizeof_wchar_t) 1
        (BRegistry zero_queryregistry_info
           (replicate (output_slots outputSizeInBytes) 0)) in
    if is_null pValue then ret (-1, driverStorePath)
    else
      let value :=
        set_OutputValueSize
          (set_QueryType zero_queryregistry_info DXCORE_QUERYREGISTRY_DRIVERSTOREPATH)
          (wrap32 outputSizeInBytes) in
      let out := replicate (output_slots outputSizeInBytes) 0 in
      store pValue (BRegistry value out);;
      let* (st, (value, written)) :=
        dxcore_query_adapter_info_helper pLib hAdapter DXCORE_QUERYREGISTRY
          (value, out) (wrap32 (sizeof_queryregistry_info + outputSizeInBytes)) in
      store pValue (BRegistry value (overlay written out));;
      if negb (st =? 0) then free pValue;; ret (-1, driverStorePath)
      else
        let pOutput := <[Z.to_nat outputSize := 0]> (overlay written out) in
        store pValue (BRegistry value pOutput);;
        let* path :=
          calloc (outputSize + 1) sizeof_char
            (BChars (replicate (Z.to_nat (outputSize + 1)) 0)) in
        if is_null path then free pValue;; ret (-1, path)
        else
          match wcstombs (wctomb P) pOutput (Z.to_nat outputSize) with
          | None => undefined
          | Some (bytes, _) =>
              store path
                (BChars (overlay bytes (replicate (Z.to_nat (outputSize + 1)) 0)));;
              free pValue;;
              ret (0, path)
          end.

(** [&p[i]]: an element of the array at [p]. *)
Definition element : Type := (ptr * Z)%type.

(** [pAdapterInfo->hAdapter].  An element inside the block that nothing was
    stored to since [malloc] is read all the same: the value is the
    [unsigned int] that the memory turns out to hold.  A read outside the
    block is undefined. *)
Definition load_ai_hAdapter (pAdapterInfo : element) : M Z :=
  let* blk := load (fst pAdapterInfo) in
  match blk with
  | BAdapterInfos l =>
      if snd pAdapterInfo <? 0 then undefined
      else
        match l !! Z.to_nat (snd pAdapterInfo) with
        | Some (Some ai) => ret (ai_hAdapter ai)
        | Some None => load_uninitialised (fst pAdapterInfo) (snd pAdapterInfo)
        | None => undefined
        end
  | _ => undefined
  end.

(** The three stores of [dxcore_add_adapter] into [adapterList[adapterCount]]. *)
Definition fill_adapter (a : dxcore_adapter) (h : Z) (path : ptr) (version : Z)
  : dxcore_adapter :=
  mk_adapter (Some h) (Some version) (Some path)
    (driverStoreComponentCount a) (pDriverStoreComponents a) (pContext a).

Definition dxcore_add_adapter (pCtx : dxcore_context) (pLib : dxcore_lib)
    (pAdapterInfo : element) : M dxcore_context :=
  let wddmVersion := 0 in
  let driverStorePath := NULL in
  let* h := load_ai_hAdapter pAdapterInfo in
  let* (st, wddmVersion) := dxcore_query_adapter_wddm_version pLib h wddmVersion in
  let wddmVersion := wrap32 wddmVersion in
  if negb (st =? 0) then ret pCtx
  else if wddmVersion <? WDDM_2_7 then ret pCtx
  else
    let* (st, driverStorePath) :=
      dxcore_query_adapter_driverstore pLib h driverStorePath in
    if negb (st =? 0) then ret pCtx
    else
      let* newList :=
        realloc_adapters (adapterList pCtx) (wrap32 (adapterCount pCtx + 1)) in
      if is_null newList then free driverStorePath;; ret pCtx
      else
        let* blk := load newList in
        match blk with
        | BAdapters l =>
            match l !! Z.to_nat (adapterCount pCtx) with
            | Some a =>
                store newList
                  (BAdapters (<[Z.to_nat (adapterCount pCtx) :=
                                 fill_adapter a h driverStorePath wddmVersion]> l));;
                ret (mk_context (wrap32 (adapterCount pCtx + 1)) newList
                       (initialized pCtx))
            | None => undefined
            end
        | _ => undefined
        end.

Definition dxcore_enum_adapters (pCtx : dxcore_context) (pLib : dxcore_lib)
  : M dxcore_context :=
  let params := mk_enumAdapters2 0 NULL in
  let* (st, params) := invoke_EnumAdapters2 pLib params in
  if negb (st =? 0) then ret pCtx
  else
    let* buf :=
      malloc (sizeof_adapterInfo * NumAdapters params)
        (BAdapterInfos (replicate (Z.to_nat (NumAdapters params)) None)) in
    let params := mk_enumAdapters2 (NumAdapters params) buf in
    let* (st, params) := invoke_EnumAdapters2 pLib params in
    if negb (st =? 0) then free (pAdapters params);; ret pCtx
    else
      let* pCtx :=
        for_each
          (fun pCtx adapterIndex =>
             dxcore_add_adapter pCtx pLib (pAdapters params, adapterIndex))
          (seqZ 0 (NumAdapters params)) pCtx in
      free (pAdapters params);;
      ret pCtx.

(** [dxcore_deinit_adapter(&pCtx->adapterList[adapterIndex])] *)
Definition dxcore_deinit_adapter (pAdapter : element) : M unit :=
  if is_null (fst pAdapter) && (snd pAdapter =? 0) then ret tt
  else
    let* blk := load (fst pAdapter) in
    match blk with
    | BAdapters l =>
        match l !! Z.to_nat (snd pAdapter) with
        | Some a =>
            match pDriverStorePath a with
            | Some p => free p
            | None => undefined
            end
        | None => undefined
        end
    | _ => undefined
    end.

(** The body of [dxcore_deinit_context] behind its null check. *)
Definition deinit_context_body (pCtx : dxcore_context) : M dxcore_context :=
  for_each
    (fun _ adapterIndex => dxcore_deinit_adapter (adapterList pCtx, adapterIndex))
    (seqZ 0 (adapterCount pCtx)) tt;;
  free (adapterList pCtx);;
  ret (mk_context (adapterCount pCtx) (adapterList pCtx) 0).

(** [pCtx] is [None] for a null pointer; the result is the session behind
    the pointer afterwards. *)
Definition dxcore_deinit_context (pCtx : option dxcore_context)
  : M (option dxcore_context) :=
  match pCtx with
  | None => ret None
  | Some ctx => let* ctx' := deinit_context_body ctx in ret (Some ctx')
  end.

(** The code behind the label [error] of [dxcore_init_context]. *)
Definition init_context_error (pCtx : dxcore_context) (lib : dxcore_lib)
  : M (Z * dxcore_context) :=
  let* pCtx := deinit_context_body pCtx in
  (match hDxcoreLib lib with
   | Some _ => dlclose (hDxcoreLib lib)
   | None => ret tt
   end);;
  ret (-1, pCtx).

(** Returns the return value and the session behind [pCtx] afterwards; the
    argument is the session before the call. *)
Definition dxcore_init_context (pCtx : dxcore_context) : M (Z * dxcore_context) :=
  let lib := mk_lib None None None in
  let pCtx := mk_context 0 NULL 0 in
  let* h := dlopen P in
  let lib := mk_lib h None None in
  match h with
  | None => init_context_error pCtx lib
  | Some img =>
      let lib := mk_lib h (D3DKMTEnumAdapters2 img) None in
      match pDxcoreEnumAdapters2 lib with
      | None => init_context_error pCtx lib
      | Some _ =>
          let lib := mk_lib h (D3DKMTEnumAdapters2 img) (D3DKMTQueryAdapterInfo img) in
          match pDxcoreQueryAdapterInfo lib with
          | None => init_context_error pCtx lib
          | Some _ =>
              let* pCtx := dxcore_enum_adapters pCtx lib in
              let pCtx := mk_context (adapterCount pCtx) (adapterList pCtx) 1 in
              dlclose (hDxcoreLib lib);;
              ret (0, pCtx)
          end
      end
  end.

End with_platform.

(** * Vocabulary of the properties *)

(** Block identifiers in use lie below the next one to be handed out. *)
Definition wf_world (w : world) : Prop :=
  forall b, is_Some (heap w !! b) -> (b < next_block w)%positive.

(** The adapters of a session, read from its array: [adapterCount] elements
    at [adapterList]. *)
Definition registry (w : world) (pCtx : dxcore_context)
  : option (list dxcore_adapter) :=
  match adapterList pCtx with
  | NULL => if adapterCount pCtx =? 0 then Some [] else None
  | Ptr b =>
      match heap w !! b with
      | Some (mk_allocation _ (BAdapters l)) =>
          if Z.of_nat (length l) =? adapterCount pCtx then Some l else None
      | _ => None
      end
  end.

(** An adapter whose recorded driver-model version is at least WDDM 2.7. *)
Definition version_admitted (a : dxcore_adapter) : Prop :=
  exists v, wddmVersion a = Some v /\ WDDM_2_7 <= v.

(** A block other than an array of adapters. *)
Definition not_adapters (a : allocation) : Prop :=
  forall l, content a <> BAdapters l.

(** The two calls of one enumeration and what the library answers to them. *)
Section enumeration_answers.

Variable g : pfnDxcoreEnumAdapters2.

Definition enum_probe_call : call := CallEnumAdapters2 0 NULL.

Definition enum_probe_reply (w : world) : enum_reply := g (calls w) 0 NULL.

(** [params.NumAdapters] after the size probe. *)
Definition candidate_count (w : world) : Z :=
  wrap32 (reply_NumAdapters (enum_probe_reply w)).

Definition enum_fill_call (w : world) (buf : ptr) : call :=
  CallEnumAdapters2 (candidate_count w) buf.

Definition enum_fill_reply (w : world) (buf : ptr) : enum_reply :=
  g (calls w ++ [enum_probe_call]) (candidate_count w) buf.

(** [params.NumAdapters] after the fill call. *)
Definition filled_count (w : world) (buf : ptr) : Z :=
  wrap32 (reply_NumAdapters (enum_fill_reply w buf)).

(** The fill call keeps to its contract: the count it leaves is covered by
    the records it wrote and by the capacity it was given. *)
Definition fill_contract (w : world) (buf : ptr) : Prop :=
  reply_status (enum_fill_reply w buf) = 0 ->
  filled_count w buf <= Z.of_nat (length (reply_adapters (enum_fill_reply w buf))) /\
  filled_count w buf <= candidate_count w.

(** The world in which the candidates are qualified when there was no
    memory for the candidate buffer. *)
Definition world_without_buffer (w : world) (s : list bool) : world :=
  mk_world (heap w) (next_block w) s (dl_handles w)
    (calls w ++ [enum_probe_call; enum_fill_call w NULL]) (uninitialised w).

(** The world in which the candidates are qualified when the candidate
    buffer is the block [next_block w]. *)
Definition world_with_buffer (w : world) (s : list bool) : world :=
  mk_world
    (<[next_block w :=
         mk_allocation (sizeof_adapterInfo * candidate_count w)
           (BAdapterInfos
              (overlay
                 (Some <$> reply_adapters (enum_fill_reply w (Ptr (next_block w))))
                 (replicate (Z.to_nat (candidate_count w)) None)))]> (heap w))
    (Pos.succ (next_block w)) s (dl_handles w)
    (calls w ++ [enum_probe_call; enum_fill_call w (Ptr (next_block w))]) (uninitialised w).

(** The buffer the fill call of an enumeration from [w] is given. *)
Definition candidate_buffer (w : world) : ptr :=
  if fst (next_outcome (alloc_script w)) then Ptr (next_block w) else NULL.

End enumeration_answers.

(** A wide character that converts to one byte that is not null. *)
Definition single_byte (enc : Z -> option (list Z)) (c b : Z) : Prop :=
  c <> 0 /\ b <> 0 /\ enc c = Some [b].

(** A wide character that converts to the multibyte character [mb], which
    has at least one byte and no null byte. *)
Definition multibyte (enc : Z -> option (list Z)) (c : Z) (mb : list Z) : Prop :=
  c <> 0 /\ enc c = Some mb /\ mb <> [] /\ Forall (fun b => b <> 0) mb.

Section library_answers.

Variable f : pfnDxcoreQueryAdapterInfo.
Variable h : Z.

(** The version query of one candidate and what the library answers. *)
Definition version_call : call :=
  CallQueryAdapterInfo h DXCORE_QUERYDRIVERVERSION sizeof_unsigned_int.

Definition version_reply (w : world) : Z * Z :=
  f (calls w) h DXCORE_QUERYDRIVERVERSION 0 sizeof_unsigned_int.

(** [wddmVersion] after the version query. *)
Definition reported_version (w : world) : Z := wrap32 (snd (version_reply w)).

(** The two calls of one resolution and what the library answers to them. *)
Definition probe_params : dxcore_queryregistry_info :=
  set_QueryType zero_queryregistry_info DXCORE_QUERYREGISTRY_DRIVERSTOREPATH.

Definition probe_call : call :=
  CallQueryAdapterInfo h DXCORE_QUERYREGISTRY sizeof_queryregistry_info.

Definition probe_reply (w : world) : Z * (dxcore_queryregistry_info * list Z) :=
  f (calls w) h DXCORE_QUERYREGISTRY (probe_params, replicate 2 0)
    sizeof_queryregistry_info.

(** [params.OutputValueSize] after the size probe. *)
Definition reported_size (w : world) : Z :=
  wrap32 (OutputValueSize (fst (snd (probe_reply w)))).

Definition fill_call (w : world) : call :=
  CallQueryAdapterInfo h DXCORE_QUERYREGISTRY
    (wrap32 (sizeof_queryregistry_info + reported_size w)).

Definition fill_reply (w : world) : Z * (dxcore_queryregistry_info * list Z) :=
  f (calls w ++ [probe_call]) h DXCORE_QUERYREGISTRY
    (set_OutputValueSize probe_params (wrap32 (reported_size w)),
     replicate (output_slots (reported_size w)) 0)
    (wrap32 (sizeof_queryregistry_info + reported_size w)).

(** [outputSize], the number of wide characters of the reported size. *)
Definition character_count (w : world) : nat :=
  Z.to_nat (reported_size w / sizeof_wchar_t).

(** The wide characters from [Output] on after the fill query. *)
Definition reported_output (w : world) : list Z :=
  overlay (snd (snd (fill_reply w))) (replicate (output_slots (reported_size w)) 0).

(** The wide string the library reported: the characters among the first
    [outputSize] before the first null. *)
Definition reported_path (w : world) : list Z :=
  c_string (take (character_count w) (reported_output w)).

End library_answers.
(** The library is missing, or one of its two entry points is. *)
Definition resolver_fails (P : platform) : Prop :=
  match libdxcore_so P with
  | None => True
  | Some img => D3DKMTEnumAdapters2 img = None \/ D3DKMTQueryAdapterInfo img = None
  end.

(** The library is there with both entry points. *)
Definition resolves (P : platform) (g : pfnDxcoreEnumAdapters2)
    (f : pfnDxcoreQueryAdapterInfo) : Prop :=
  exists img, libdxcore_so P = Some img /\
              D3DKMTEnumAdapters2 img = Some g /\
              D3DKMTQueryAdapterInfo img = Some f.

(** Each character of [wide] has a multibyte form of one byte, and [narrow]
    is those bytes: the conversion character for character. *)
Definition converted (enc : Z -> option (list Z)) (wide narrow : list Z) : Prop :=
  Forall2 (fun c b => enc c = Some [b]) wide narrow.

(** A library that turns no adapter down: whatever was asked before, the
    version query succeeds with at least WDDM 2.7, and the size probe and
    the fill query succeed with a size of at most [DXCORE_MAX_PATH] wide
    characters. *)
Definition accepts_all (f : pfnDxcoreQueryAdapterInfo) : Prop :=
  forall h w,
    fst (version_reply f h w) = 0 /\
    WDDM_2_7 <= reported_version f h w /\
    fst (probe_reply f h w) = 0 /\
    reported_size f h w <= DXCORE_MAX_PATH * sizeof_wchar_t /\
    fst (fill_reply f h w) = 0.

(** The adapter that a call of the library is about: the handle of a call
    of [D3DKMTQueryAdapterInfo], none for [D3DKMTEnumAdapters2]. *)
Definition query_of (c : call) : option Z :=
  match c with
  | CallQueryAdapterInfo h _ _ => Some h
  | CallEnumAdapters2 _ _ => None
  end.

(** ** Ownership *)

(** An admitted candidate: its handle, the block of its path buffer and its
    driver-model version. *)
Record admission : Type := mk_admission {
  adm_handle : Z;
  adm_path : positive;
  adm_version : Z
}.

(** The element that [dxcore_add_adapter] leaves in the adapter array for an
    admitted candidate: three members stored, the others never written. *)
Definition entry (t : admission) : dxcore_adapter :=
  fill_adapter indeterminate_adapter (adm_handle t) (Ptr (adm_path t))
    (adm_version t).

(** The blocks of a session: its adapter array, if it has one, and the path
    buffers of its adapters. *)
Definition owned_blocks (pCtx : dxcore_context) (ts : list admission)
  : list positive :=
  match adapterList pCtx with NULL => [] | Ptr arr => [arr] end
  ++ (adm_path <$> ts).

(** In [w] the session [pCtx] holds the admitted candidates [ts], in order;
    its blocks are live and pairwise distinct, and the heap without them is
    [base]. *)
Record owns (base : gmap positive allocation) (w : world)
    (pCtx : dxcore_context) (ts : list admission) : Prop := mk_owns {
  owns_registry : registry w pCtx = Some (entry <$> ts);
  owns_versions : Forall (fun t => WDDM_2_7 <= adm_version t) ts;
  owns_distinct : NoDup (owned_blocks pCtx ts);
  owns_live : forall b, b ∈ owned_blocks pCtx ts -> is_Some (heap w !! b);
  owns_rest : forall k,
    base !! k = if decide (k ∈ owned_blocks pCtx ts) then None else heap w !! k
}.

(** The handle in an element of the candidate buffer, if the library wrote
    that element. *)
Definition candidate_handle (buf : list (option dxcore_adapterInfo)) (i : Z)
  : option Z :=
  if i <? 0 then None
  else
    match buf !! Z.to_nat i with
    | Some (Some ai) => Some (ai_hAdapter ai)
    | _ => None
    end.

(** ** A sample machine *)

(** A library that reports the given driver-model version and the given
    driver-store path for every adapter, whatever was asked before. *)
Definition sample_query (version : Z) (path : list Z) : pfnDxcoreQueryAdapterInfo :=
  fun _ _ t =>
    match t return private_data t -> Z -> Z * private_data t with
    | DXCORE_QUERYDRIVERVERSION => fun _ _ => (0, version)
    | DXCORE_QUERYREGISTRY => fun d _ =>
        (0, (set_OutputValueSize (fst d) (sizeof_wchar_t * Z.of_nat (length path)),
             path))
    end.

(** A library that knows the given adapters: it always leaves their number
    in [NumAdapters], and writes them when it is given a buffer. *)
Definition sample_enum (adapters : list dxcore_adapterInfo) : pfnDxcoreEnumAdapters2 :=
  fun _ _ buf =>
    mk_enum_reply 0 (Z.of_nat (length adapters))
      (match buf with NULL => [] | Ptr _ => adapters end).

Definition sample_lib (adapters : list dxcore_adapterInfo) (version : Z)
    (path : list Z) : dxcore_lib :=
  mk_lib None (Some (sample_enum adapters)) (Some (sample_query version path)).

Definition sample_platform (adapters : list dxcore_adapterInfo) (version : Z)
    (path : list Z) : platform :=
  mk_platform
    (Some (mk_libdxcore (Some (sample_enum adapters))
             (Some (sample_query version path))))
    C_locale.

(** One adapter with handle 7. *)
Definition sample_adapter (luid : dxcore_luid) : dxcore_adapterInfo :=
  mk_adapterInfo 7 luid 1 0.

(** The wide string [C:\drivers\v1]. *)
Definition sample_path : list Z :=
  [67; 58; 92; 100; 114; 105; 118; 101; 114; 115; 92; 118; 49].

(** A machine without libdxcore.so, in the "C" locale. *)
Definition C_locale_platform : platform := mk_platform None C_locale.

(** A process in the middle of an enumeration: the candidate buffer is the
    only block, block 1, and holds the given candidates. *)
Definition candidates_world (adapters : list dxcore_adapterInfo) (s : list bool)
  : world :=
  mk_world
    {[1%positive :=
        mk_allocation (sizeof_adapterInfo * Z.of_nat (length adapters))
          (BAdapterInfos (Some <$> adapters))]}
    2%positive s 0 [] (fun _ _ => 0).

(** A fresh process: an empty heap, no library loaded, no call made; [s] is
    the fate of the allocation requests to come. *)
Definition boot (s : list bool) : world := mk_world ∅ 1%positive s 0 [] (fun _ _ => 0).


(** * Proof automation *)

Arguments alloc : simpl never.
Arguments store : simpl never.
Arguments load : simpl never.
Arguments free : simpl never.
Arguments realloc_adapters : simpl never.
Arguments overlay : simpl never.
Arguments wrap32 : simpl never.
Arguments output_slots : simpl never.

(** Projections of a world that was built explicitly. *)
Ltac world_simpl :=
  unfold ret, set_heap, set_dl_handles, log_call;
  cbn [heap next_block alloc_script dl_handles calls uninitialised alloc_size
       content fst snd is_null negb andb].

(** Equality of heaps built from inserts and deletes, by comparing lookups. *)
Ltac heap_eq :=
  apply map_eq; intros ?k;
  repeat (rewrite lookup_insert || rewrite lookup_delete);
  repeat case_decide; subst;
  try done; try congruence; try lia.

(** * Properties *)

(** ** Buffers and strings *)

Section buffers.

Context {A : Type}.
Implicit Types new old : list A.

Lemma length_overlay new old : length (overlay new old) = length old.
Proof.
  unfold overlay. rewrite length_take, length_app, length_drop. lia.
Qed.

Lemma lookup_overlay_lt new old (i : nat) :
  (i < length new)%nat -> (i < length old)%nat ->
  overlay new old !! i = new !! i.
Proof.
  intros Hn Ho. unfold overlay.
  rewrite lookup_take_lt by done. by rewrite lookup_app_l.
Qed.

Lemma lookup_overlay_ge new old (i : nat) :
  (length new <= i)%nat -> overlay new old !! i = old !! i.
Proof.
  intros Hn. unfold overlay.
  destruct (decide (i < length old)%nat) as [Ho|Ho].
  - rewrite lookup_take_lt by done.
    rewrite lookup_app_r by done. rewrite lookup_drop. f_equal. lia.
  - rewrite lookup_take_ge by lia. symmetry. apply lookup_ge_None. lia.
Qed.

Lemma overlay_nil old : overlay [] old = old.
Proof. unfold overlay. simpl. rewrite drop_0. apply firstn_all. Qed.

End buffers.

Lemma overlay_zeros (bs : list Z) (k : nat) :
  (length bs <= k)%nat ->
  overlay bs (replicate (S k) 0) = bs ++ 0 :: replicate (k - length bs) 0.
Proof.
  intros Hle. unfold overlay.
  rewrite length_replicate, drop_replicate.
  replace (S k - length bs)%nat with (S (k - length bs)) by lia.
  apply take_ge. rewrite length_app. simpl. rewrite length_replicate. lia.
Qed.

Lemma c_string_app_null (a r : list Z) : c_string (a ++ 0 :: r) = c_string a.
Proof.
  induction a as [|b a IH]; simpl; [done|].
  destruct (b =? 0); [done|]. by rewrite IH.
Qed.

Lemma c_string_nonnull (l : list Z) : Forall (fun c => c <> 0) l -> c_string l = l.
Proof.
  induction 1 as [|c l Hc _ IH]; simpl; [done|].
  destruct (Z.eqb_spec c 0); [done|]. by rewrite IH.
Qed.

Lemma c_string_Forall (l : list Z) : Forall (fun c => c <> 0) (c_string l).
Proof.
  induction l as [|c l IH]; simpl; [constructor|].
  destruct (Z.eqb_spec c 0); [constructor|]. by constructor.
Qed.

Lemma length_c_string (l : list Z) : (length (c_string l) <= length l)%nat.
Proof.
  induction l as [|c l IH]; simpl; [lia|].
  destruct (c =? 0); simpl; lia.
Qed.

(** A buffer that holds a null splits at its first null. *)
Lemma c_string_split (l : list Z) :
  0 ∈ l -> exists r, l = c_string l ++ 0 :: r.
Proof.
  induction l as [|c l IH]; intros Hin.
  - by apply elem_of_nil in Hin.
  - simpl. destruct (Z.eqb_spec c 0) as [->|Hc].
    + by exists l.
    + apply elem_of_cons in Hin as [Heq|Hin]; [congruence|].
      destruct (IH Hin) as [r Hr]. exists r. simpl. by rewrite <- Hr.
Qed.

(** The string in a buffer whose element [n] was overwritten with a null is
    the string in the first [n] elements. *)
Lemma c_string_insert_null (l : list Z) (n : nat) :
  (n < length l)%nat -> c_string (<[n := 0]> l) = c_string (take n l).
Proof.
  intros Hn. rewrite insert_take_drop by done. apply c_string_app_null.
Qed.

Lemma c_string_overlay_zeros (bs : list Z) (k : nat) :
  (length bs <= k)%nat ->
  c_string (overlay bs (replicate (S k) 0)) = c_string bs.
Proof.
  intros Hle. rewrite overlay_zeros by done. apply c_string_app_null.
Qed.

(** ** wcstombs *)

Section wcstombs.

Variable enc : Z -> option (list Z).

(** At most [n] bytes are stored. *)
Lemma wcstombs_length (src : list Z) : forall (n : nat) bs r,
  wcstombs enc src n = Some (bs, r) -> (length bs <= n)%nat.
Proof.
  induction src as [|c src IH]; intros [|n] bs r H; simpl in H;
    try (injection H as <- <-; simpl; lia); try discriminate.
  destruct (c =? 0); [injection H as <- <-; simpl; lia|].
  destruct (enc c) as [mb|]; [|injection H as <- <-; simpl; lia].
  destruct (length mb <=? S n)%nat eqn:Hfit; [|injection H as <- <-; simpl; lia].
  apply Nat.leb_le in Hfit.
  destruct (wcstombs enc src (S n - length mb)) as [[bs' r']|] eqn:Hrec; [|done].
  injection H as <- <-. apply IH in Hrec. rewrite length_app. lia.
Qed.

(** A source that holds a null is never run off. *)
Lemma wcstombs_defined (src : list Z) : forall n : nat,
  0 ∈ src -> is_Some (wcstombs enc src n).
Proof.
  induction src as [|c src IH]; intros n Hin.
  - by apply elem_of_nil in Hin.
  - destruct n as [|n]; simpl; [by eexists|].
    destruct (Z.eqb_spec c 0) as [->|Hc]; [by eexists|].
    apply elem_of_cons in Hin as [Heq|Hin]; [congruence|].
    destruct (enc c) as [mb|]; [|by eexists].
    destruct (length mb <=? S n)%nat; [|by eexists].
    destruct (IH (S n - length mb)%nat Hin) as [[bs r] ->]. by eexists.
Qed.

(** A string of such characters that fits is converted character for
    character, and its terminator is stored if one byte is left. *)
Lemma wcstombs_single_byte (wide narrow rest : list Z) :
  Forall2 (single_byte enc) wide narrow -> forall n : nat,
  (length wide <= n)%nat ->
  wcstombs enc (wide ++ 0 :: rest) n =
    Some (narrow ++ (if decide (length wide < n)%nat then [0] else []),
          Z.of_nat (length wide)).
Proof.
  induction 1 as [|c b wide narrow (Hc & Hb & Henc) _ IH]; intros n Hle.
  - destruct n as [|n]; simpl; done.
  - simpl in Hle. destruct n as [|n]; [lia|].
    cbn [app wcstombs]. destruct (Z.eqb_spec c 0) as [|_]; [done|].
    rewrite Henc. cbn [length]. replace (1 <=? S n)%nat with true by done.
    replace (S n - 1)%nat with n by lia.
    rewrite IH by lia.
    destruct (Z.eqb_spec (Z.of_nat (length wide)) (-1)) as [|_]; [lia|].
    do 2 f_equal.
    + f_equal. simpl. repeat case_decide; done || lia.
    + lia.
Qed.

(** A string whose multibyte characters fit in the [n] bytes is converted
    as a whole; the terminating null is stored if there is room for it. *)
Lemma wcstombs_multibyte (wide : list Z) (mbs : list (list Z)) (rest : list Z) :
  Forall2 (multibyte enc) wide mbs -> forall n : nat,
  (length (concat mbs) <= n)%nat ->
  wcstombs enc (wide ++ 0 :: rest) n =
    Some (concat mbs ++ (if decide (length (concat mbs) < n)%nat then [0] else []),
          Z.of_nat (length (concat mbs))).
Proof.
  induction 1 as [|c mb wide mbs (Hc & Henc & Hne & _) _ IH]; intros n Hle.
  - destruct n as [|n]; simpl; done.
  - cbn [concat] in *. rewrite length_app in Hle.
    assert (0 < length mb)%nat by (destruct mb; [done|simpl; lia]).
    destruct n as [|n]; [lia|].
    cbn [app wcstombs]. destruct (Z.eqb_spec c 0) as [|_]; [done|].
    rewrite Henc. destruct (Nat.leb_spec (length mb) (S n)) as [_|]; [|lia].
    rewrite IH by lia.
    destruct (Z.eqb_spec (Z.of_nat (length (concat mbs))) (-1)) as [|_]; [lia|].
    rewrite length_app, <- app_assoc.
    do 2 f_equal; [|lia].
    f_equal. repeat case_decide; done || lia.
Qed.

(** Conversion ends at the first character without a multibyte form; what
    was converted before it has been stored, and nothing after it. *)
Lemma wcstombs_unconvertible (pre narrow rest : list Z) (c : Z) :
  Forall2 (single_byte enc) pre narrow -> c <> 0 -> enc c = None -> forall n : nat,
  (length pre < n)%nat ->
  wcstombs enc (pre ++ c :: rest) n = Some (narrow, -1).
Proof.
  intros Hpre Hc Henc.
  induction Hpre as [|c' b pre narrow (Hc' & Hb & Henc') _ IH]; intros n Hlt.
  - destruct n as [|n]; [lia|]. simpl.
    destruct (Z.eqb_spec c 0) as [|_]; [done|]. by rewrite Henc.
  - simpl in Hlt. destruct n as [|n]; [lia|].
    cbn [app wcstombs]. destruct (Z.eqb_spec c' 0) as [|_]; [done|].
    rewrite Henc'. cbn [length]. replace (1 <=? S n)%nat with true by done.
    replace (S n - 1)%nat with n by lia.
    rewrite IH by lia. done.
Qed.

End wcstombs.

(** ** The heap *)


Lemma wf_world_fresh w : wf_world w -> heap w !! next_block w = None.
Proof.
  intros Hwf. destruct (heap w !! next_block w) eqn:E; [|done].
  assert (next_block w < next_block w)%positive by (apply Hwf; eauto). lia.
Qed.

Lemma wf_world_fresh_ge w b :
  wf_world w -> (next_block w <= b)%positive -> heap w !! b = None.
Proof.
  intros Hwf Hle. destruct (heap w !! b) eqn:E; [|done].
  assert (b < next_block w)%positive by (apply Hwf; eauto). lia.
Qed.

Lemma alloc_granted sz c w s :
  next_outcome (alloc_script w) = (true, s) ->
  alloc sz c w =
    Some (Ptr (next_block w),
          mk_world (<[next_block w := mk_allocation sz c]> (heap w))
            (Pos.succ (next_block w)) s (dl_handles w) (calls w) (uninitialised w)).
Proof. intros H. unfold alloc. by rewrite H. Qed.

Lemma alloc_refused sz c w s :
  next_outcome (alloc_script w) = (false, s) ->
  alloc sz c w =
    Some (NULL, mk_world (heap w) (next_block w) s (dl_handles w) (calls w) (uninitialised w)).
Proof. intros H. unfold alloc. by rewrite H. Qed.

Lemma store_live b a c w :
  heap w !! b = Some a ->
  store (Ptr b) c w =
    Some (tt, set_heap w (<[b := mk_allocation (alloc_size a) c]> (heap w))).
Proof. intros H. unfold store. by rewrite H. Qed.

Lemma load_live b a w :
  heap w !! b = Some a -> load (Ptr b) w = Some (content a, w).
Proof. intros H. unfold load. by rewrite H. Qed.

Lemma free_live b a w :
  heap w !! b = Some a ->
  free (Ptr b) w = Some (tt, set_heap w (delete b (heap w))).
Proof. intros H. unfold free. by rewrite H. Qed.

Lemma free_dangling b w : heap w !! b = None -> free (Ptr b) w = None.
Proof. intros H. unfold free. by rewrite H. Qed.

Lemma wrap32_range z : 0 <= wrap32 z < 2 ^ 32.
Proof. unfold wrap32. apply Z.mod_pos_bound. lia. Qed.

Lemma wrap32_small z : 0 <= z < 2 ^ 32 -> wrap32 z = z.
Proof. unfold wrap32. apply Z.mod_small. Qed.

Lemma wrap32_idemp z : wrap32 (wrap32 z) = wrap32 z.
Proof. apply wrap32_small, wrap32_range. Qed.

Lemma next_outcome_cases (script : list bool) :
  exists o s, next_outcome script = (o, s).
Proof. destruct script; simpl; eauto. Qed.

(** ** The driver-store path query *)

Section driverstore_run.

Variable P : platform.
Variable pLib : dxcore_lib.
Variable f : pfnDxcoreQueryAdapterInfo.
Hypothesis Hf : pDxcoreQueryAdapterInfo pLib = Some f.
Variable h : Z.

Lemma character_count_succ w :
  Z.to_nat (reported_size f h w / sizeof_wchar_t + 1) = S (character_count f h w).
Proof.
  unfold character_count, reported_size, sizeof_wchar_t.
  pose proof (wrap32_range (OutputValueSize (fst (snd (probe_reply f h w))))).
  rewrite Z2Nat.inj_add by (try apply Z.div_pos; lia). simpl. lia.
Qed.

Lemma character_count_lt_slots w :
  (character_count f h w < output_slots (reported_size f h w))%nat.
Proof.
  unfold character_count, output_slots, reported_size, sizeof_wchar_t, sizeof_union_Output.
  pose proof (wrap32_range (OutputValueSize (fst (snd (probe_reply f h w))))) as Hr.
  set (N := wrap32 _) in *.
  apply Z2Nat.inj_lt; [apply Z.div_pos; lia | apply Z.div_pos; lia |].
  replace (8 + N + 4) with (N + 3 * 4) by lia.
  rewrite Z.div_add by lia. lia.
Qed.

Lemma driverstore_success w p0 s s' :
  wf_world w ->
  fst (probe_reply f h w) = 0 ->
  reported_size f h w <= DXCORE_MAX_PATH * sizeof_wchar_t ->
  next_outcome (alloc_script w) = (true, s) ->
  fst (fill_reply f h w) = 0 ->
  next_outcome s = (true, s') ->
  exists bytes r,
    wcstombs (wctomb P) (<[character_count f h w := 0]> (reported_output f h w))
      (character_count f h w) = Some (bytes, r) /\
    dxcore_query_adapter_driverstore P pLib h p0 w =
      Some ((0, Ptr (Pos.succ (next_block w))),
            mk_world
              (<[Pos.succ (next_block w) :=
                   mk_allocation (Z.of_nat (character_count f h w) + 1)
                     (BChars (overlay bytes
                                (replicate (S (character_count f h w)) 0)))]>
                 (heap w))
              (Pos.succ (Pos.succ (next_block w))) s' (dl_handles w)
              (calls w ++ [probe_call h; fill_call f h w]) (uninitialised w)).
Proof.
  intros Hwf Hst1 Hsz Ha1 Hst2 Ha2.
  destruct (wcstombs_defined (wctomb P)
              (<[character_count f h w := 0]> (reported_output f h w))
              (character_count f h w)) as [[bytes r] Hconv].
  { apply list_elem_of_lookup. exists (character_count f h w).
    apply list_lookup_insert_eq. unfold reported_output.
    rewrite length_overlay, length_replicate. apply character_count_lt_slots. }
  exists bytes, r. split; [done|].
  pose proof (character_count_succ w) as Hsucc.
  pose proof (wf_world_fresh w Hwf) as Hfresh.
  unfold dxcore_query_adapter_driverstore, bind, dxcore_query_adapter_info_helper.
  rewrite Hf.
  unfold character_count, reported_output, fill_call, fill_reply, reported_size,
    probe_reply in *.
  fold probe_params.
  destruct (f (calls w) h DXCORE_QUERYREGISTRY _ _) as [st1 [q1 o1]] eqn:E1.
  cbn [fst snd] in *. subst st1. cbn [Z.eqb negb].
  destruct (Z.ltb_spec (DXCORE_MAX_PATH * sizeof_wchar_t) (wrap32 (OutputValueSize q1)));
    [lia|].
  unfold calloc. erewrite alloc_granted by (simpl; eassumption). cbn [is_null].
  erewrite store_live by (simpl; apply lookup_insert_eq).
  world_simpl.
  destruct (f (calls w ++ _) h DXCORE_QUERYREGISTRY _ _) as [st2 [q2 o2]] eqn:E2.
  cbn [fst snd] in *. subst st2. cbn [Z.eqb negb].
  erewrite store_live by (simpl; apply lookup_insert_eq).
  world_simpl.
  erewrite store_live by (simpl; apply lookup_insert_eq).
  world_simpl.
  erewrite alloc_granted by (simpl; eassumption). cbn [is_null].
  rewrite Hsucc, Hconv.
  erewrite store_live by (simpl; apply lookup_insert_eq).
  world_simpl.
  erewrite free_live
    by (simpl; rewrite !lookup_insert_ne by lia; apply lookup_insert_eq).
  world_simpl.
  f_equal. f_equal. unfold probe_call. rewrite <- app_assoc. cbn [app].
  f_equal.
  assert (Hsz' : (wrap32 (OutputValueSize q1) / sizeof_wchar_t + 1) * sizeof_char
                 = Z.of_nat (Z.to_nat (wrap32 (OutputValueSize q1) / sizeof_wchar_t)) + 1).
  { pose proof (wrap32_range (OutputValueSize q1)).
    unfold sizeof_char, sizeof_wchar_t.
    rewrite Z2Nat.id by (apply Z.div_pos; lia). lia. }
  rewrite Hsz'.
  heap_eq.
Qed.

(** The size probe failed: nothing but the probe happened. *)
Lemma driverstore_probe_failed w p0 :
  fst (probe_reply f h w) <> 0 ->
  dxcore_query_adapter_driverstore P pLib h p0 w =
    Some ((-1, p0), log_call w (probe_call h)).
Proof.
  intros Hst1.
  unfold dxcore_query_adapter_driverstore, bind, dxcore_query_adapter_info_helper.
  rewrite Hf. unfold probe_reply in *. fold probe_params.
  destruct (f (calls w) h DXCORE_QUERYREGISTRY _ _) as [st1 [q1 o1]] eqn:E1.
  cbn [fst snd] in *.
  destruct (Z.eqb_spec st1 0) as [|_]; [done|]. done.
Qed.

(** The reported size is larger than [DXCORE_MAX_PATH] wide characters:
    nothing but the probe happened. *)
Lemma driverstore_oversized w p0 :
  fst (probe_reply f h w) = 0 ->
  DXCORE_MAX_PATH * sizeof_wchar_t < reported_size f h w ->
  dxcore_query_adapter_driverstore P pLib h p0 w =
    Some ((-1, p0), log_call w (probe_call h)).
Proof.
  intros Hst1 Hsz.
  unfold dxcore_query_adapter_driverstore, bind, dxcore_query_adapter_info_helper.
  rewrite Hf. unfold reported_size, probe_reply in *. fold probe_params.
  destruct (f (calls w) h DXCORE_QUERYREGISTRY _ _) as [st1 [q1 o1]] eqn:E1.
  cbn [fst snd] in *. subst st1. cbn [Z.eqb negb].
  destruct (Z.ltb_spec (DXCORE_MAX_PATH * sizeof_wchar_t) (wrap32 (OutputValueSize q1)));
    [done|lia].
Qed.

(** No memory for the query buffer. *)
Lemma driverstore_buffer_refused w p0 s :
  fst (probe_reply f h w) = 0 ->
  reported_size f h w <= DXCORE_MAX_PATH * sizeof_wchar_t ->
  next_outcome (alloc_script w) = (false, s) ->
  dxcore_query_adapter_driverstore P pLib h p0 w =
    Some ((-1, p0),
          mk_world (heap w) (next_block w) s (dl_handles w)
            (calls w ++ [probe_call h]) (uninitialised w)).
Proof.
  intros Hst1 Hsz Ha1.
  unfold dxcore_query_adapter_driverstore, bind, dxcore_query_adapter_info_helper.
  rewrite Hf. unfold reported_size, probe_reply in *. fold probe_params.
  destruct (f (calls w) h DXCORE_QUERYREGISTRY _ _) as [st1 [q1 o1]] eqn:E1.
  cbn [fst snd] in *. subst st1. cbn [Z.eqb negb].
  destruct (Z.ltb_spec (DXCORE_MAX_PATH * sizeof_wchar_t) (wrap32 (OutputValueSize q1)));
    [lia|].
  unfold calloc. erewrite alloc_refused by (simpl; eassumption). done.
Qed.

(** The fill query failed: the query buffer has been released. *)
Lemma driverstore_fill_failed w p0 s :
  wf_world w ->
  fst (probe_reply f h w) = 0 ->
  reported_size f h w <= DXCORE_MAX_PATH * sizeof_wchar_t ->
  next_outcome (alloc_script w) = (true, s) ->
  fst (fill_reply f h w) <> 0 ->
  dxcore_query_adapter_driverstore P pLib h p0 w =
    Some ((-1, p0),
          mk_world (heap w) (Pos.succ (next_block w)) s (dl_handles w)
            (calls w ++ [probe_call h; fill_call f h w]) (uninitialised w)).
Proof.
  intros Hwf Hst1 Hsz Ha1 Hst2.
  pose proof (wf_world_fresh w Hwf) as Hfresh.
  unfold dxcore_query_adapter_driverstore, bind, dxcore_query_adapter_info_helper.
  rewrite Hf.
  unfold fill_call, fill_reply, reported_size, probe_reply in *.
  fold probe_params.
  destruct (f (calls w) h DXCORE_QUERYREGISTRY _ _) as [st1 [q1 o1]] eqn:E1.
  cbn [fst snd] in *. subst st1. cbn [Z.eqb negb].
  destruct (Z.ltb_spec (DXCORE_MAX_PATH * sizeof_wchar_t) (wrap32 (OutputValueSize q1)));
    [lia|].
  unfold calloc. erewrite alloc_granted by (simpl; eassumption). cbn [is_null].
  erewrite store_live by (simpl; apply lookup_insert_eq).
  world_simpl.
  destruct (f (calls w ++ _) h DXCORE_QUERYREGISTRY _ _) as [st2 [q2 o2]] eqn:E2.
  cbn [fst snd] in *.
  destruct (Z.eqb_spec st2 0) as [|_]; [done|]. cbn [negb].
  erewrite store_live by (simpl; apply lookup_insert_eq).
  world_simpl.
  erewrite free_live by (simpl; apply lookup_insert_eq).
  world_simpl.
  f_equal. f_equal. unfold probe_call. rewrite <- app_assoc. cbn [app].
  f_equal. heap_eq.
Qed.

(** No memory for the path: the query buffer has been released and
    [*ppDriverStorePath] is null. *)
Lemma driverstore_path_refused w p0 s s' :
  wf_world w ->
  fst (probe_reply f h w) = 0 ->
  reported_size f h w <= DXCORE_MAX_PATH * sizeof_wchar_t ->
  next_outcome (alloc_script w) = (true, s) ->
  fst (fill_reply f h w) = 0 ->
  next_outcome s = (false, s') ->
  dxcore_query_adapter_driverstore P pLib h p0 w =
    Some ((-1, NULL),
          mk_world (heap w) (Pos.succ (next_block w)) s' (dl_handles w)
            (calls w ++ [probe_call h; fill_call f h w]) (uninitialised w)).
Proof.
  intros Hwf Hst1 Hsz Ha1 Hst2 Ha2.
  pose proof (wf_world_fresh w Hwf) as Hfresh.
  unfold dxcore_query_adapter_driverstore, bind, dxcore_query_adapter_info_helper.
  rewrite Hf.
  unfold fill_call, fill_reply, reported_size, probe_reply in *.
  fold probe_params.
  destruct (f (calls w) h DXCORE_QUERYREGISTRY _ _) as [st1 [q1 o1]] eqn:E1.
  cbn [fst snd] in *. subst st1. cbn [Z.eqb negb].
  destruct (Z.ltb_spec (DXCORE_MAX_PATH * sizeof_wchar_t) (wrap32 (OutputValueSize q1)));
    [lia|].
  unfold calloc. erewrite alloc_granted by (simpl; eassumption). cbn [is_null].
  erewrite store_live by (simpl; apply lookup_insert_eq).
  world_simpl.
  destruct (f (calls w ++ _) h DXCORE_QUERYREGISTRY _ _) as [st2 [q2 o2]] eqn:E2.
  cbn [fst snd] in *. subst st2. cbn [Z.eqb negb].
  erewrite store_live by (simpl; apply lookup_insert_eq).
  world_simpl.
  erewrite store_live by (simpl; apply lookup_insert_eq).
  world_simpl.
  erewrite alloc_refused by (simpl; eassumption). cbn [is_null].
  erewrite free_live by (simpl; apply lookup_insert_eq).
  world_simpl.
  f_equal. f_equal. unfold probe_call. rewrite <- app_assoc. cbn [app].
  f_equal. heap_eq.
Qed.

(** Every resolution returns.  A failed one leaves the heap as it was; a
    successful one has added one block, the path. *)
Lemma driverstore_outcome w p0 :
  wf_world w ->
  exists r path w',
    dxcore_query_adapter_driverstore P pLib h p0 w = Some ((r, path), w') /\
    dl_handles w' = dl_handles w /\
    (next_block w <= next_block w')%positive /\
    ((r = -1 /\ heap w' = heap w) \/
     (r = 0 /\ exists b a,
        path = Ptr b /\ (next_block w <= b < next_block w')%positive /\
        heap w' = <[b := a]> (heap w))).
Proof.
  intros Hwf.
  destruct (decide (fst (probe_reply f h w) = 0)) as [Hst1|Hst1];
    [|eexists _, _, _; split; [by apply driverstore_probe_failed|];
      simpl; repeat split; try lia; by left].
  destruct (decide (reported_size f h w <= DXCORE_MAX_PATH * sizeof_wchar_t))
    as [Hsz|Hsz];
    [|eexists _, _, _; split; [apply driverstore_oversized; [done|lia]|];
      simpl; repeat split; try lia; by left].
  destruct (next_outcome_cases (alloc_script w)) as ([|] & s & Ha1);
    [|eexists _, _, _; split; [by eapply driverstore_buffer_refused|];
      simpl; repeat split; try lia; by left].
  destruct (decide (fst (fill_reply f h w) = 0)) as [Hst2|Hst2];
    [|eexists _, _, _; split; [by eapply driverstore_fill_failed|];
      simpl; repeat split; try lia; by left].
  destruct (next_outcome_cases s) as ([|] & s' & Ha2);
    [|eexists _, _, _; split; [by eapply driverstore_path_refused|];
      simpl; repeat split; try lia; by left].
  destruct (driverstore_success w p0 s s') as (bytes & r & _ & Hrun); try done.
  eexists _, _, _; split; [exact Hrun|].
  simpl; repeat split; try lia. right. split; [done|].
  eexists _, _. repeat split; try done; lia.
Qed.


End driverstore_run.

(** ** Qualification of one candidate *)

Lemma load_ai_hAdapter_world e w hA w' :
  load_ai_hAdapter e w = Some (hA, w') -> w' = w.
Proof.
  unfold load_ai_hAdapter, bind, load. destruct e as [[|b] i]; simpl; [done|].
  destruct (heap w !! b) as [[sz [| |l|]]|]; try done. simpl.
  destruct (i <? 0); [done|].
  destruct (l !! Z.to_nat i) as [[ai|]|]; [| |done];
    unfold ret, load_uninitialised; by intros [= _ <-].
Qed.

Lemma load_ai_hAdapter_live b (i : Z) w sz buf ai :
  heap w !! b = Some (mk_allocation sz (BAdapterInfos buf)) ->
  0 <= i -> buf !! Z.to_nat i = Some (Some ai) ->
  load_ai_hAdapter (Ptr b, i) w = Some (ai_hAdapter ai, w).
Proof.
  intros Hb Hi Hai. unfold load_ai_hAdapter, bind. simpl.
  erewrite load_live by done. simpl.
  destruct (Z.ltb_spec i 0); [lia|]. by rewrite Hai.
Qed.

Lemma load_ai_hAdapter_null (i : Z) w : load_ai_hAdapter (NULL, i) w = None.
Proof. done. Qed.

Lemma registry_wf_block w pCtx l b :
  registry w pCtx = Some l -> adapterList pCtx = Ptr b ->
  exists sz, heap w !! b = Some (mk_allocation sz (BAdapters l)) /\
             Z.of_nat (length l) = adapterCount pCtx.
Proof.
  unfold registry. intros H E. rewrite E in H.
  destruct (heap w !! b) as [[sz [|l'| |]]|]; try done.
  destruct (Z.eqb_spec (Z.of_nat (length l')) (adapterCount pCtx)); [|done].
  injection H as ->. eauto.
Qed.

Lemma registry_length w pCtx l :
  registry w pCtx = Some l -> Z.of_nat (length l) = adapterCount pCtx.
Proof.
  unfold registry. destruct (adapterList pCtx) as [|b].
  - destruct (Z.eqb_spec (adapterCount pCtx) 0); [|done]. intros [= <-]. simpl. lia.
  - destruct (heap w !! b) as [[sz [|l'| |]]|]; try done.
    destruct (Z.eqb_spec (Z.of_nat (length l')) (adapterCount pCtx)); [|done].
    by intros [= <-].
Qed.

Section add_adapter_run.

Variable P : platform.
Variable pLib : dxcore_lib.
Variable f : pfnDxcoreQueryAdapterInfo.
Hypothesis Hf : pDxcoreQueryAdapterInfo pLib = Some f.

(** The version query failed, or reported less than WDDM 2.7: nothing but
    the version query happened. *)
Lemma add_adapter_version_failed pCtx e hA w :
  load_ai_hAdapter e w = Some (hA, w) ->
  fst (version_reply f hA w) <> 0 ->
  dxcore_add_adapter P pCtx pLib e w = Some (pCtx, log_call w (version_call hA)).
Proof.
  intros Hload Hst.
  unfold dxcore_add_adapter, bind. rewrite Hload.
  unfold dxcore_query_adapter_wddm_version, dxcore_query_adapter_info_helper.
  rewrite Hf. unfold version_reply in *.
  destruct (f (calls w) hA DXCORE_QUERYDRIVERVERSION _ _) as [st v] eqn:E.
  cbn [fst snd] in *. destruct (Z.eqb_spec st 0) as [|_]; [done|]. done.
Qed.

Lemma add_adapter_below_minimum pCtx e hA w :
  load_ai_hAdapter e w = Some (hA, w) ->
  fst (version_reply f hA w) = 0 ->
  reported_version f hA w < WDDM_2_7 ->
  dxcore_add_adapter P pCtx pLib e w = Some (pCtx, log_call w (version_call hA)).
Proof.
  intros Hload Hst Hv.
  unfold dxcore_add_adapter, bind. rewrite Hload.
  unfold dxcore_query_adapter_wddm_version, dxcore_query_adapter_info_helper.
  rewrite Hf. unfold reported_version, version_reply in *.
  destruct (f (calls w) hA DXCORE_QUERYDRIVERVERSION _ _) as [st v] eqn:E.
  cbn [fst snd] in *. subst st. cbn [Z.eqb negb].
  destruct (Z.ltb_spec (wrap32 v) WDDM_2_7); [done|lia].
Qed.

(** The version is at least WDDM 2.7: the candidate goes on to the
    resolution of its driver-store path. *)
Lemma add_adapter_path_failed pCtx e hA w r path w2 :
  load_ai_hAdapter e w = Some (hA, w) ->
  fst (version_reply f hA w) = 0 ->
  WDDM_2_7 <= reported_version f hA w ->
  dxcore_query_adapter_driverstore P pLib hA NULL (log_call w (version_call hA))
    = Some ((r, path), w2) ->
  r <> 0 ->
  dxcore_add_adapter P pCtx pLib e w = Some (pCtx, w2).
Proof.
  intros Hload Hst Hv Hpath Hr.
  unfold dxcore_add_adapter, bind. rewrite Hload.
  unfold dxcore_query_adapter_wddm_version, dxcore_query_adapter_info_helper.
  rewrite Hf. unfold reported_version, version_reply in *.
  destruct (f (calls w) hA DXCORE_QUERYDRIVERVERSION _ _) as [st v] eqn:E.
  cbn [fst snd] in *. subst st. cbn [Z.eqb negb].
  destruct (Z.ltb_spec (wrap32 v) WDDM_2_7); [lia|].
  unfold version_call in Hpath. rewrite Hpath.
  destruct (Z.eqb_spec r 0) as [|_]; [done|]. done.
Qed.

(** The array could not be grown: the path is released, the session is as it
    was. *)
Lemma add_adapter_realloc_refused pCtx e hA w b w2 l s :
  load_ai_hAdapter e w = Some (hA, w) ->
  fst (version_reply f hA w) = 0 ->
  WDDM_2_7 <= reported_version f hA w ->
  dxcore_query_adapter_driverstore P pLib hA NULL (log_call w (version_call hA))
    = Some ((0, Ptr b), w2) ->
  is_Some (heap w2 !! b) ->
  registry w2 pCtx = Some l ->
  next_outcome (alloc_script w2) = (false, s) ->
  dxcore_add_adapter P pCtx pLib e w =
    Some (pCtx,
          mk_world (delete b (heap w2)) (next_block w2) s (dl_handles w2) (calls w2)
            (uninitialised w2)).
Proof.
  intros Hload Hst Hv Hpath [a Hb] Hreg Ha.
  unfold dxcore_add_adapter, bind. rewrite Hload.
  unfold dxcore_query_adapter_wddm_version, dxcore_query_adapter_info_helper.
  rewrite Hf. unfold reported_version, version_reply in *.
  destruct (f (calls w) hA DXCORE_QUERYDRIVERVERSION _ _) as [st v] eqn:E.
  cbn [fst snd] in *. subst st. cbn [Z.eqb negb].
  destruct (Z.ltb_spec (wrap32 v) WDDM_2_7); [lia|].
  unfold version_call in Hpath. rewrite Hpath. cbn [Z.eqb negb].
  assert (Hre : realloc_adapters (adapterList pCtx) (wrap32 (adapterCount pCtx + 1)) w2
                = Some (NULL, mk_world (heap w2) (next_block w2) s (dl_handles w2)
                                (calls w2) (uninitialised w2))).
  { unfold realloc_adapters. rewrite Ha.
    destruct (adapterList pCtx) as [|bl] eqn:El; [done|].
    destruct (registry_wf_block _ _ _ _ Hreg El) as (sz & -> & _). done. }
  rewrite Hre. cbn [is_null].
  erewrite free_live by (simpl; exact Hb). done.
Qed.

(** The array was grown: the candidate is its new last element. *)
Lemma add_adapter_appended pCtx e hA w b w2 l s :
  load_ai_hAdapter e w = Some (hA, w) ->
  fst (version_reply f hA w) = 0 ->
  WDDM_2_7 <= reported_version f hA w ->
  dxcore_query_adapter_driverstore P pLib hA NULL (log_call w (version_call hA))
    = Some ((0, Ptr b), w2) ->
  registry w2 pCtx = Some l ->
  next_outcome (alloc_script w2) = (true, s) ->
  adapterCount pCtx + 1 < 2 ^ 32 ->
  dxcore_add_adapter P pCtx pLib e w =
    Some (mk_context (adapterCount pCtx + 1) (Ptr (next_block w2)) (initialized pCtx),
          mk_world
            (<[next_block w2 :=
                 mk_allocation (sizeof_adapter * (adapterCount pCtx + 1))
                   (BAdapters
                      (l ++ [fill_adapter indeterminate_adapter hA (Ptr b)
                               (reported_version f hA w)]))]>
               (match adapterList pCtx with
                | NULL => heap w2
                | Ptr old => delete old (heap w2)
                end))
            (Pos.succ (next_block w2)) s (dl_handles w2) (calls w2) (uninitialised w2)).
Proof.
  intros Hload Hst Hv Hpath Hreg Ha Hcount.
  pose proof (registry_length _ _ _ Hreg) as Hlen.
  assert (Hwrap : wrap32 (adapterCount pCtx + 1) = adapterCount pCtx + 1)
    by (apply wrap32_small; lia).
  unfold dxcore_add_adapter, bind. rewrite Hload.
  unfold dxcore_query_adapter_wddm_version, dxcore_query_adapter_info_helper.
  rewrite Hf. unfold reported_version, version_reply in *.
  destruct (f (calls w) hA DXCORE_QUERYDRIVERVERSION _ _) as [st v] eqn:E.
  cbn [fst snd] in *. subst st. cbn [Z.eqb negb].
  destruct (Z.ltb_spec (wrap32 v) WDDM_2_7); [lia|].
  unfold version_call in Hpath. rewrite Hpath. cbn [Z.eqb negb].
  rewrite Hwrap.
  assert (Hre : realloc_adapters (adapterList pCtx) (adapterCount pCtx + 1) w2
                = Some (Ptr (next_block w2),
                        mk_world
                          (<[next_block w2 :=
                               mk_allocation (sizeof_adapter * (adapterCount pCtx + 1))
                                 (BAdapters (l ++ [indeterminate_adapter]))]>
                             (match adapterList pCtx with
                              | NULL => heap w2
                              | Ptr old => delete old (heap w2)
                              end))
                          (Pos.succ (next_block w2)) s (dl_handles w2) (calls w2)
                          (uninitialised w2))).
  { assert (Hres : forall l', l' = l ->
              resize (Z.to_nat (adapterCount pCtx + 1)) indeterminate_adapter l'
              = l ++ [indeterminate_adapter]).
    { intros l' ->. rewrite resize_spec, <- Hlen.
      replace (Z.to_nat (Z.of_nat (length l) + 1)) with (S (length l)) by lia.
      rewrite firstn_all2 by lia.
      by replace (S (length l) - length l)%nat with 1%nat by lia. }
    unfold realloc_adapters. rewrite Ha.
    destruct (adapterList pCtx) as [|bl] eqn:El.
    - unfold registry in Hreg. rewrite El in Hreg.
      destruct (adapterCount pCtx =? 0); [|done]. injection Hreg as <-.
      by rewrite Hres.
    - destruct (registry_wf_block _ _ _ _ Hreg El) as (sz & -> & _).
      by rewrite Hres. }
  rewrite Hre. cbn [is_null].
  erewrite load_live by (simpl; apply lookup_insert_eq). cbn [content].
  rewrite <- Hlen, Nat2Z.id, list_lookup_middle by done.
  erewrite store_live by (simpl; apply lookup_insert_eq).
  world_simpl. rewrite insert_insert_eq.
  rewrite insert_app_r_alt by lia. rewrite Nat.sub_diag. done.
Qed.

(** What the session holds after an append. *)
Lemma registry_appended w2 pCtx l a s sz :
  registry w2 pCtx = Some l ->
  registry
    (mk_world
       (<[next_block w2 := mk_allocation sz (BAdapters (l ++ [a]))]>
          (match adapterList pCtx with
           | NULL => heap w2
           | Ptr old => delete old (heap w2)
           end))
       (Pos.succ (next_block w2)) s (dl_handles w2) (calls w2) (uninitialised w2))
    (mk_context (adapterCount pCtx + 1) (Ptr (next_block w2)) (initialized pCtx))
  = Some (l ++ [a]).
Proof.
  intros Hreg. pose proof (registry_length _ _ _ Hreg) as Hlen.
  unfold registry. simpl. rewrite lookup_insert_eq.
  rewrite length_app. simpl.
  destruct (Z.eqb_spec (Z.of_nat (length l + 1)) (adapterCount pCtx + 1)); [done|lia].
Qed.

End add_adapter_run.

(** ** What one qualification does to the session and to the heap *)

Lemma wf_world_heap w w' :
  wf_world w ->
  (forall b, is_Some (heap w' !! b) ->
             is_Some (heap w !! b) \/ (next_block w <= b < next_block w')%positive) ->
  (next_block w <= next_block w')%positive ->
  wf_world w'.
Proof.
  intros Hwf Hsub Hle b Hb. destruct (Hsub b Hb) as [Hold|Hnew]; [|lia].
  specialize (Hwf b Hold). lia.
Qed.

(** The registry depends only on the blocks that are there. *)
Lemma registry_frame w w' pCtx l :
  registry w pCtx = Some l ->
  (forall b a, heap w !! b = Some a -> heap w' !! b = Some a) ->
  registry w' pCtx = Some l.
Proof.
  unfold registry. intros Hreg Hsub. destruct (adapterList pCtx) as [|b]; [done|].
  destruct (heap w !! b) as [a|] eqn:Hb; [|done].
  by rewrite (Hsub b a Hb).
Qed.

Lemma version_admitted_fill a hA path v :
  WDDM_2_7 <= v -> version_admitted (fill_adapter a hA path v).
Proof. intros Hv. by exists v. Qed.

Section qualification.

Variable P : platform.
Variable pLib : dxcore_lib.
Variable f : pfnDxcoreQueryAdapterInfo.
Hypothesis Hf : pDxcoreQueryAdapterInfo pLib = Some f.

(** Every qualification of a readable candidate returns.  It leaves a
    well-formed heap, a session whose adapters all have an admitted version,
    the loader as it was, and every block but the adapter array in place. *)
Lemma add_adapter_outcome pCtx e hA w l :
  wf_world w ->
  load_ai_hAdapter e w = Some (hA, w) ->
  registry w pCtx = Some l ->
  Forall version_admitted l ->
  adapterCount pCtx + 1 < 2 ^ 32 ->
  exists pCtx' w' l',
    dxcore_add_adapter P pCtx pLib e w = Some (pCtx', w') /\
    wf_world w' /\
    registry w' pCtx' = Some l' /\
    Forall version_admitted l' /\
    dl_handles w' = dl_handles w /\
    initialized pCtx' = initialized pCtx /\
    adapterCount pCtx <= adapterCount pCtx' <= adapterCount pCtx + 1 /\
    (forall b a, heap w !! b = Some a -> Ptr b <> adapterList pCtx ->
                 heap w' !! b = Some a).
Proof.
  intros Hwf Hload Hreg Hall Hcount.
  destruct (decide (fst (version_reply f hA w) = 0)) as [Hst|Hst];
    [|exists pCtx, (log_call w (version_call hA)), l;
      split; [by apply (add_adapter_version_failed P pLib f Hf)|];
      repeat split; try done; lia].
  destruct (decide (WDDM_2_7 <= reported_version f hA w)) as [Hv|Hv];
    [|exists pCtx, (log_call w (version_call hA)), l;
      split; [apply (add_adapter_below_minimum P pLib f Hf); [done..|lia]|];
      repeat split; try done; lia].
  assert (Hwf1 : wf_world (log_call w (version_call hA))) by done.
  destruct (driverstore_outcome P pLib f Hf hA _ NULL Hwf1)
    as (r & path & w2 & Hrun & Hdl & Hnb & Hheap).
  simpl in Hdl, Hnb.
  destruct Hheap as [[-> Hheap]|[-> (b & a & -> & Hb & Hheap)]];
    simpl in Hheap; try simpl in Hb.
  - (* the path was not resolved *)
    exists pCtx, w2, l.
    split; [by eapply (add_adapter_path_failed P pLib f Hf)|].
    repeat split; try done; try lia.
    + eapply wf_world_heap; [exact Hwf| |done].
      intros b' Hb'. left. by rewrite <- Hheap.
    + eapply registry_frame; [done|]. intros b' a' ?. by rewrite Hheap.
    + intros b' a' ? _. by rewrite Hheap.
  - assert (Hfresh : heap w !! b = None)
      by (apply wf_world_fresh_ge; [done|lia]).
    assert (Hwf2 : wf_world w2).
    { eapply wf_world_heap; [exact Hwf| |done].
      intros b' Hb'. rewrite Hheap, lookup_insert in Hb'.
      case_decide; [subst; right; lia|by left]. }
    assert (Hreg2 : registry w2 pCtx = Some l).
    { eapply registry_frame; [done|]. intros b' a' Hb'.
      rewrite Hheap, lookup_insert_ne; [done|congruence]. }
    destruct (next_outcome_cases (alloc_script w2)) as ([|] & s & Ha).
    + (* appended *)
      eexists _, _, _.
      split; [by eapply (add_adapter_appended P pLib f Hf)|].
      split; [|split; [by apply registry_appended|]].
      { eapply wf_world_heap; [exact Hwf2| |simpl; lia].
        simpl. intros b' Hb'. rewrite lookup_insert in Hb'.
        case_decide; [subst; right; lia|left].
        destruct (adapterList pCtx); [done|].
        rewrite lookup_delete in Hb'. case_decide; [by destruct Hb'|done]. }
      repeat split; try done; simpl; try lia.
      * apply Forall_app. split; [done|].
        apply Forall_singleton. by apply version_admitted_fill.
      * intros b' a' Hb' Hne.
        assert (b' < next_block w)%positive by (apply Hwf; eauto).
        rewrite lookup_insert_ne by lia.
        assert (heap w2 !! b' = Some a') as Hb2.
        { rewrite Hheap, lookup_insert_ne; [done|lia]. }
        destruct (adapterList pCtx) as [|old]; [done|].
        rewrite lookup_delete_ne; [done|congruence].
    + (* the array could not be grown *)
      eexists pCtx, _, l.
      split; [eapply (add_adapter_realloc_refused P pLib f Hf); try done;
              rewrite Hheap, lookup_insert_eq; eauto|].
      assert (Hback : delete b (heap w2) = heap w)
        by (rewrite Hheap; by apply delete_insert_id).
      repeat split; try done; simpl; try lia.
      * eapply wf_world_heap; [exact Hwf| |simpl; lia].
        simpl. intros b' Hb'. left. by rewrite <- Hback.
      * eapply registry_frame; [exact Hreg|]. simpl. intros b' a' ?.
        by rewrite Hback.
      * intros b' a' ? _. by rewrite Hback.
Qed.

End qualification.

(** ** Enumeration *)

Lemma bind_Some {A B} (m : M A) (k : A -> M B) w r :
  bind m k w = Some r -> exists a w1, m w = Some (a, w1) /\ k a w1 = Some r.
Proof.
  unfold bind. destruct (m w) as [[a w1]|]; [|done]. intros H. by exists a, w1.
Qed.

Lemma invoke_EnumAdapters2_null pLib g n w :
  pDxcoreEnumAdapters2 pLib = Some g ->
  invoke_EnumAdapters2 pLib (mk_enumAdapters2 n NULL) w =
    Some ((reply_status (g (calls w) n NULL),
           mk_enumAdapters2 (wrap32 (reply_NumAdapters (g (calls w) n NULL))) NULL),
          log_call w (CallEnumAdapters2 n NULL)).
Proof. intros Hg. unfold invoke_EnumAdapters2. by rewrite Hg. Qed.

Lemma invoke_EnumAdapters2_buffer pLib g n b sz buf w :
  pDxcoreEnumAdapters2 pLib = Some g ->
  heap w !! b = Some (mk_allocation sz (BAdapterInfos buf)) ->
  invoke_EnumAdapters2 pLib (mk_enumAdapters2 n (Ptr b)) w =
    Some ((reply_status (g (calls w) n (Ptr b)),
           mk_enumAdapters2 (wrap32 (reply_NumAdapters (g (calls w) n (Ptr b))))
             (Ptr b)),
          mk_world
            (<[b := mk_allocation sz
                      (BAdapterInfos
                         (overlay (Some <$> reply_adapters (g (calls w) n (Ptr b)))
                            buf))]> (heap w))
            (next_block w) (alloc_script w) (dl_handles w)
            (calls w ++ [CallEnumAdapters2 n (Ptr b)]) (uninitialised w)).
Proof.
  intros Hg Hb. unfold invoke_EnumAdapters2. rewrite Hg. simpl. by rewrite Hb.
Qed.

Lemma add_adapter_Some_load P pCtx pLib e w r :
  dxcore_add_adapter P pCtx pLib e w = Some r ->
  exists hA, load_ai_hAdapter e w = Some (hA, w).
Proof.
  intros H. apply bind_Some in H as (hA & w1 & Hload & _).
  pose proof (load_ai_hAdapter_world _ _ _ _ Hload) as ->. eauto.
Qed.

Lemma registry_not_adapters w pCtx l b a :
  registry w pCtx = Some l -> heap w !! b = Some a -> not_adapters a ->
  Ptr b <> adapterList pCtx.
Proof.
  intros Hreg Hb Hna Heq. symmetry in Heq.
  destruct (registry_wf_block _ _ _ _ Hreg Heq) as (sz & Hb' & _).
  rewrite Hb in Hb'. injection Hb' as ->. by eapply Hna.
Qed.

Section enumeration.

Variable P : platform.
Variable pLib : dxcore_lib.
Variable f : pfnDxcoreQueryAdapterInfo.
Hypothesis Hf : pDxcoreQueryAdapterInfo pLib = Some f.

(** The loop over the candidates, when it returns. *)
Lemma enum_loop_inv (p : ptr) (idxs : list Z) : forall pCtx w l pCtx' w',
  wf_world w ->
  registry w pCtx = Some l ->
  Forall version_admitted l ->
  adapterCount pCtx + Z.of_nat (length idxs) < 2 ^ 32 ->
  for_each (fun pCtx i => dxcore_add_adapter P pCtx pLib (p, i)) idxs pCtx w
    = Some (pCtx', w') ->
  wf_world w' /\
  (exists l', registry w' pCtx' = Some l' /\ Forall version_admitted l') /\
  dl_handles w' = dl_handles w /\
  initialized pCtx' = initialized pCtx /\
  (forall b a, heap w !! b = Some a -> not_adapters a -> heap w' !! b = Some a).
Proof.
  induction idxs as [|i idxs IH]; intros pCtx w l pCtx' w' Hwf Hreg Hall Hcount Hrun.
  - injection Hrun as <- <-. eauto 10.
  - cbn [for_each] in Hrun. apply bind_Some in Hrun as (pCtx1 & w1 & Hstep & Hrun).
    destruct (add_adapter_Some_load _ _ _ _ _ _ Hstep) as [hA Hload].
    cbn [length] in Hcount.
    destruct (add_adapter_outcome P pLib f Hf pCtx (p, i) hA w l)
      as (pCtx1' & w1' & l1 & Hstep' & Hwf1 & Hreg1 & Hall1 & Hdl1 & Hinit1 & Hc1 & Hfr1);
      try done; try lia.
    rewrite Hstep in Hstep'. injection Hstep' as <- <-.
    destruct (IH pCtx1 w1 l1 pCtx' w' Hwf1 Hreg1 Hall1 ltac:(lia) Hrun)
      as (Hwf' & Hreg' & Hdl' & Hinit' & Hfr').
    repeat split; try done; try congruence.
    intros b a Hb Hna. apply Hfr'; [|done]. apply Hfr1; [done|].
    by eapply registry_not_adapters.
Qed.

(** The loop over candidates that can all be read returns. *)
Lemma enum_loop_defined (bb : positive) sz buf (idxs : list Z) : forall pCtx w l,
  wf_world w ->
  registry w pCtx = Some l ->
  Forall version_admitted l ->
  adapterCount pCtx + Z.of_nat (length idxs) < 2 ^ 32 ->
  heap w !! bb = Some (mk_allocation sz (BAdapterInfos buf)) ->
  Forall (fun i => 0 <= i /\ exists ai, buf !! Z.to_nat i = Some (Some ai)) idxs ->
  is_Some (for_each (fun pCtx i => dxcore_add_adapter P pCtx pLib (Ptr bb, i))
             idxs pCtx w).
Proof.
  induction idxs as [|i idxs IH]; intros pCtx w l Hwf Hreg Hall Hcount Hbb Hread.
  - by eexists.
  - apply Forall_cons in Hread as [(Hi & ai & Hai) Hread].
    cbn [length] in Hcount. cbn [for_each]. unfold bind.
    destruct (add_adapter_outcome P pLib f Hf pCtx (Ptr bb, i) (ai_hAdapter ai) w l)
      as (pCtx1 & w1 & l1 & -> & Hwf1 & Hreg1 & Hall1 & Hdl1 & Hinit1 & Hc1 & Hfr1);
      try done; try lia.
    { by eapply load_ai_hAdapter_live. }
    eapply IH; try done; try lia.
    apply Hfr1; [done|]. eapply registry_not_adapters; [done..|]. by intros l0.
Qed.

Variable g : pfnDxcoreEnumAdapters2.
Hypothesis Hg : pDxcoreEnumAdapters2 pLib = Some g.

(** The size probe failed: nothing but the probe happened. *)
Lemma enum_adapters_probe_failed pCtx w :
  reply_status (enum_probe_reply g w) <> 0 ->
  dxcore_enum_adapters P pCtx pLib w = Some (pCtx, log_call w enum_probe_call).
Proof.
  intros Hst. unfold dxcore_enum_adapters, bind.
  rewrite (invoke_EnumAdapters2_null _ _ _ _ Hg).
  unfold enum_probe_reply in Hst.
  destruct (Z.eqb_spec (reply_status (g (calls w) 0 NULL)) 0) as [|_]; [done|]. done.
Qed.

(** No memory for the candidate buffer: the fill call is made all the same,
    with a null buffer and the count of the probe, and the candidates it
    counts are then read through the null pointer. *)
Lemma enum_adapters_buffer_refused pCtx w s :
  reply_status (enum_probe_reply g w) = 0 ->
  next_outcome (alloc_script w) = (false, s) ->
  dxcore_enum_adapters P pCtx pLib w =
    if negb (reply_status (enum_fill_reply g w NULL) =? 0)
    then Some (pCtx, world_without_buffer g w s)
    else
      for_each (fun pCtx i => dxcore_add_adapter P pCtx pLib (NULL, i))
        (seqZ 0 (filled_count g w NULL)) pCtx (world_without_buffer g w s).
Proof.
  intros Hst Ha. unfold dxcore_enum_adapters, bind.
  rewrite (invoke_EnumAdapters2_null _ _ _ _ Hg).
  unfold enum_probe_reply in Hst. rewrite Hst. cbn [Z.eqb negb NumAdapters].
  unfold malloc. erewrite alloc_refused by (simpl; eassumption).
  rewrite (invoke_EnumAdapters2_null _ _ _ _ Hg).
  unfold world_without_buffer, enum_fill_call, enum_fill_reply, filled_count,
    candidate_count, enum_probe_reply, enum_probe_call.
  world_simpl. rewrite <- app_assoc. cbn [app pAdapters NumAdapters].
  destruct (negb _); [done|].
  destruct (for_each _ _ _ _) as [[c w3]|]; done.
Qed.

Lemma enum_adapters_buffer_granted pCtx w s :
  reply_status (enum_probe_reply g w) = 0 ->
  next_outcome (alloc_script w) = (true, s) ->
  dxcore_enum_adapters P pCtx pLib w =
    if negb (reply_status (enum_fill_reply g w (Ptr (next_block w))) =? 0)
    then
      Some (pCtx,
            set_heap (world_with_buffer g w s)
              (delete (next_block w) (heap (world_with_buffer g w s))))
    else
      match
        for_each (fun pCtx i => dxcore_add_adapter P pCtx pLib (Ptr (next_block w), i))
          (seqZ 0 (filled_count g w (Ptr (next_block w)))) pCtx
          (world_with_buffer g w s)
      with
      | Some (pCtx', w3) =>
          match free (Ptr (next_block w)) w3 with
          | Some (_, w4) => Some (pCtx', w4)
          | None => None
          end
      | None => None
      end.
Proof.
  intros Hst Ha. unfold dxcore_enum_adapters, bind.
  rewrite (invoke_EnumAdapters2_null _ _ _ _ Hg).
  unfold enum_probe_reply in Hst. rewrite Hst. cbn [Z.eqb negb NumAdapters].
  unfold malloc. erewrite alloc_granted by (simpl; eassumption).
  erewrite (invoke_EnumAdapters2_buffer _ _ _ _ _ _ _ Hg)
    by (simpl; apply lookup_insert_eq).
  unfold world_with_buffer, enum_fill_call, enum_fill_reply, filled_count,
    candidate_count, enum_probe_reply, enum_probe_call.
  world_simpl. rewrite <- app_assoc, insert_insert_eq. cbn [app pAdapters NumAdapters].
  destruct (negb _); [|done].
  erewrite free_live by (simpl; apply lookup_insert_eq). done.
Qed.

(** The enumeration, when it returns, leaves a well-formed heap and a
    session whose adapters all have an admitted version. *)
Lemma enum_adapters_inv pCtx w l pCtx' w' :
  wf_world w ->
  registry w pCtx = Some l ->
  Forall version_admitted l ->
  adapterCount pCtx = 0 ->
  dxcore_enum_adapters P pCtx pLib w = Some (pCtx', w') ->
  wf_world w' /\
  (exists l', registry w' pCtx' = Some l' /\ Forall version_admitted l') /\
  dl_handles w' = dl_handles w /\
  initialized pCtx' = initialized pCtx.
Proof.
  intros Hwf Hreg Hall Hzero Hrun.
  pose proof (wf_world_fresh w Hwf) as Hfresh.
  assert (Hbound : forall p,
            adapterCount pCtx + Z.of_nat (length (seqZ 0 (filled_count g w p))) < 2 ^ 32).
  { intros p. rewrite length_seqZ, Hzero.
    pose proof (wrap32_range (reply_NumAdapters (enum_fill_reply g w p))).
    unfold filled_count. lia. }
  destruct (decide (reply_status (enum_probe_reply g w) = 0)) as [Hst|Hst].
  2:{ rewrite enum_adapters_probe_failed in Hrun by done.
      injection Hrun as <- <-. eauto 10. }
  destruct (next_outcome_cases (alloc_script w)) as ([|] & s & Ha).
  - rewrite (enum_adapters_buffer_granted _ _ s) in Hrun by done.
    assert (Hwf2 : wf_world (world_with_buffer g w s)).
    { eapply wf_world_heap; [exact Hwf| |simpl; lia].
      simpl. intros b Hb. rewrite lookup_insert in Hb.
      case_decide; [subst; right; lia|by left]. }
    destruct (negb _).
    + injection Hrun as <- <-. simpl. rewrite delete_insert_id by done.
      repeat split; try done; try (by eauto).
      eapply wf_world_heap; [exact Hwf| |simpl; lia]. simpl. by left.
    + destruct (for_each _ _ _ _) as [[pCtx3 w3]|] eqn:Hloop; [|done].
      destruct (free _ w3) as [[[] w4]|] eqn:Hfree; [|done].
      injection Hrun as <- <-.
      assert (Hreg2 : registry (world_with_buffer g w s) pCtx = Some l).
      { eapply registry_frame; [exact Hreg|]. simpl.
        intros b a Hb. rewrite lookup_insert_ne; [done|congruence]. }
      destruct (enum_loop_inv _ _ _ _ _ _ _ Hwf2 Hreg2 Hall (Hbound _) Hloop)
        as (Hwf3 & (l3 & Hreg3 & Hall3) & Hdl3 & Hinit3 & Hfr3).
      assert (exists a, heap w3 !! next_block w = Some a /\ not_adapters a)
        as (a & Hbb & Hna).
      { eexists. split; [apply Hfr3; [simpl; apply lookup_insert_eq|]|];
          by intros l0. }
      erewrite free_live in Hfree by done. injection Hfree as <-.
      repeat split; try done.
      * eapply wf_world_heap; [exact Hwf3| |simpl; lia].
        simpl. intros b Hb. rewrite lookup_delete in Hb.
        case_decide; [by destruct Hb|by left].
      * exists l3. split; [|done].
        pose proof (registry_not_adapters _ _ _ _ _ Hreg3 Hbb Hna) as Hne.
        unfold registry in *. simpl. destruct (adapterList pCtx3) as [|b]; [done|].
        rewrite lookup_delete_ne; [done|congruence].
  - rewrite (enum_adapters_buffer_refused _ _ s) in Hrun by done.
    assert (Hwf2 : wf_world (world_without_buffer g w s)) by done.
    destruct (negb _).
    + injection Hrun as <- <-. eauto 10.
    + assert (Hreg2 : registry (world_without_buffer g w s) pCtx = Some l)
        by (eapply registry_frame; [exact Hreg|]; done).
      destruct (enum_loop_inv _ _ _ _ _ _ _ Hwf2 Hreg2 Hall (Hbound _) Hrun)
        as (Hwf3 & Hreg3 & Hdl3 & Hinit3 & _).
      done.
Qed.

(** The enumeration returns when there was memory for the candidate
    buffer, or no candidate to hold, and the fill call kept to its
    contract. *)
Lemma enum_adapters_defined pCtx w l :
  wf_world w ->
  registry w pCtx = Some l ->
  Forall version_admitted l ->
  adapterCount pCtx = 0 ->
  (reply_status (enum_probe_reply g w) = 0 ->
   fst (next_outcome (alloc_script w)) = true \/ candidate_count g w = 0) ->
  fill_contract g w (candidate_buffer w) ->
  is_Some (dxcore_enum_adapters P pCtx pLib w).
Proof.
  intros Hwf Hreg Hall Hzero Hpre Hcontract.
  pose proof (wf_world_fresh w Hwf) as Hfresh.
  assert (Hbound : forall p,
            adapterCount pCtx + Z.of_nat (length (seqZ 0 (filled_count g w p))) < 2 ^ 32).
  { intros p. rewrite length_seqZ, Hzero.
    pose proof (wrap32_range (reply_NumAdapters (enum_fill_reply g w p))).
    unfold filled_count. lia. }
  destruct (decide (reply_status (enum_probe_reply g w) = 0)) as [Hst|Hst];
    [|rewrite enum_adapters_probe_failed by done; by eexists].
  specialize (Hpre Hst).
  unfold fill_contract, candidate_buffer in Hcontract.
  destruct (next_outcome_cases (alloc_script w)) as ([|] & s & Ha);
    rewrite Ha in Hcontract, Hpre; cbn [fst] in Hcontract, Hpre.
  - rewrite (enum_adapters_buffer_granted _ _ s) by done.
    destruct (Z.eqb_spec (reply_status (enum_fill_reply g w (Ptr (next_block w)))) 0)
      as [Hst2|_]; [|by eexists].
    cbn [negb]. destruct (Hcontract Hst2) as [Hwritten Hcap].
    assert (Hwf2 : wf_world (world_with_buffer g w s)).
    { eapply wf_world_heap; [exact Hwf| |simpl; lia].
      simpl. intros b Hb. rewrite lookup_insert in Hb.
      case_decide; [subst; right; lia|by left]. }
    assert (Hreg2 : registry (world_with_buffer g w s) pCtx = Some l).
    { eapply registry_frame; [exact Hreg|]. simpl.
      intros b a Hb. rewrite lookup_insert_ne; [done|congruence]. }
    destruct (enum_loop_defined (next_block w) _ _
                (seqZ 0 (filled_count g w (Ptr (next_block w))))
                pCtx (world_with_buffer g w s) l Hwf2 Hreg2 Hall (Hbound _)
                ltac:(simpl; apply lookup_insert_eq))
      as [[pCtx3 w3] Hloop].
    { apply Forall_forall. intros i Hi. apply elem_of_seqZ in Hi.
      split; [lia|].
      destruct (lookup_lt_is_Some_2
                  (reply_adapters (enum_fill_reply g w (Ptr (next_block w))))
                  (Z.to_nat i)) as [ai Hai]; [lia|].
      exists ai. rewrite lookup_overlay_lt.
      - by rewrite list_lookup_fmap, Hai.
      - rewrite length_fmap. lia.
      - rewrite length_replicate. lia. }
    rewrite Hloop.
    destruct (enum_loop_inv _ _ _ _ _ _ _ Hwf2 Hreg2 Hall (Hbound _) Hloop)
      as (_ & _ & _ & _ & Hfr3).
    erewrite free_live; [by eexists|].
    apply Hfr3; [simpl; apply lookup_insert_eq|]. by intros l0.
  - destruct Hpre as [|Hnone]; [done|].
    rewrite (enum_adapters_buffer_refused _ _ s) by done.
    destruct (Z.eqb_spec (reply_status (enum_fill_reply g w NULL)) 0)
      as [Hst2|_]; [|by eexists].
    cbn [negb]. destruct (Hcontract Hst2) as [_ Hcap].
    pose proof (wrap32_range (reply_NumAdapters (enum_fill_reply g w NULL))).
    rewrite seqZ_nil by (unfold filled_count in *; lia). by eexists.
Qed.

End enumeration.

(** ** Initialisation and teardown *)

Lemma deinit_context_body_zero w :
  deinit_context_body zero_context w = Some (zero_context, w).
Proof. done. Qed.

Lemma dlclose_after_dlopen img w :
  dlclose (Some img) (set_dl_handles w (S (dl_handles w))) = Some (tt, w).
Proof. by destruct w. Qed.

Lemma init_context_fatal P pCtx w :
  resolver_fails P ->
  dxcore_init_context P pCtx w = Some ((-1, zero_context), w).
Proof.
  unfold resolver_fails, dxcore_init_context, bind, dlopen.
  destruct (libdxcore_so P) as [img|]; [|done].
  cbn [pDxcoreEnumAdapters2 pDxcoreQueryAdapterInfo].
  intros Hsym.
  destruct (D3DKMTEnumAdapters2 img) as [g|] eqn:Hg.
  - destruct Hsym as [|Hq]; [done|]. rewrite Hq.
    unfold init_context_error, bind. fold zero_context.
    rewrite deinit_context_body_zero. cbn [hDxcoreLib].
    by rewrite dlclose_after_dlopen.
  - unfold init_context_error, bind. fold zero_context.
    rewrite deinit_context_body_zero. cbn [hDxcoreLib].
    by rewrite dlclose_after_dlopen.
Qed.

(** With the library resolved, initialisation is the enumeration between
    [dlopen] and [dlclose]. *)
Lemma init_context_resolved P g f pCtx w :
  resolves P g f ->
  exists lib,
    pDxcoreEnumAdapters2 lib = Some g /\
    pDxcoreQueryAdapterInfo lib = Some f /\
    dxcore_init_context P pCtx w =
      match dxcore_enum_adapters P zero_context lib
              (set_dl_handles w (S (dl_handles w))) with
      | Some (pCtx', w') =>
          match dl_handles w' with
          | S n =>
              Some ((0, mk_context (adapterCount pCtx') (adapterList pCtx') 1),
                    set_dl_handles w' n)
          | O => None
          end
      | None => None
      end.
Proof.
  intros (img & Himg & Hg & Hq).
  exists (mk_lib (Some img) (Some g) (Some f)). split; [done|]. split; [done|].
  unfold dxcore_init_context, bind, dlopen. rewrite Himg.
  cbn [pDxcoreEnumAdapters2 pDxcoreQueryAdapterInfo]. rewrite Hg, Hq.
  fold zero_context.
  destruct (dxcore_enum_adapters _ _ _ _) as [[pCtx' w']|]; [|done].
  cbn [hDxcoreLib]. unfold dlclose. by destruct (dl_handles w').
Qed.

(** Whenever initialisation returns, the adapters of the session all have an
    admitted version. *)
Lemma init_context_registry P pCtx w r pCtx' w' :
  wf_world w ->
  dxcore_init_context P pCtx w = Some ((r, pCtx'), w') ->
  exists l, registry w' pCtx' = Some l /\ Forall version_admitted l.
Proof.
  intros Hwf Hrun.
  destruct (libdxcore_so P) as [img|] eqn:Himg.
  2:{ rewrite init_context_fatal in Hrun by (unfold resolver_fails; by rewrite Himg).
      injection Hrun as <- <- <-. by exists []. }
  destruct (D3DKMTEnumAdapters2 img) as [g|] eqn:Hg.
  2:{ rewrite init_context_fatal in Hrun
        by (unfold resolver_fails; rewrite Himg; by left).
      injection Hrun as <- <- <-. by exists []. }
  destruct (D3DKMTQueryAdapterInfo img) as [f|] eqn:Hq.
  2:{ rewrite init_context_fatal in Hrun
        by (unfold resolver_fails; rewrite Himg; by right).
      injection Hrun as <- <- <-. by exists []. }
  destruct (init_context_resolved P g f pCtx w) as (lib & Hlg & Hlf & Heq);
    [by exists img|].
  rewrite Heq in Hrun.
  destruct (dxcore_enum_adapters _ _ _ _) as [[pCtx1 w1]|] eqn:Henum; [|done].
  destruct (dl_handles w1) as [|n]; [done|]. injection Hrun as <- <- <-.
  destruct (enum_adapters_inv P lib f Hlf g Hlg zero_context
              (set_dl_handles w (S (dl_handles w))) [] pCtx1 w1)
    as (_ & (l & Hreg & Hall) & _); try done.
  exists l. split; [|done]. exact Hreg.
Qed.

(** Initialisation succeeds when the library resolves, there is memory for
    the candidate buffer (or no candidate to hold) and the fill call keeps
    to its contract: whatever happens to the single candidates. *)
Lemma init_context_succeeds P g f pCtx w :
  resolves P g f ->
  wf_world w ->
  (reply_status (enum_probe_reply g w) = 0 ->
   fst (next_outcome (alloc_script w)) = true \/ candidate_count g w = 0) ->
  fill_contract g w (candidate_buffer w) ->
  exists pCtx' w',
    dxcore_init_context P pCtx w = Some ((0, pCtx'), w') /\
    initialized pCtx' = 1 /\
    dl_handles w' = dl_handles w.
Proof.
  intros Hres Hwf Hpre Hcontract.
  destruct (init_context_resolved P g f pCtx w Hres) as (lib & Hlg & Hlf & ->).
  set (w0 := set_dl_handles w (S (dl_handles w))).
  destruct (enum_adapters_defined P lib f Hlf g Hlg zero_context w0 [])
    as [[pCtx1 w1] Henum]; try done.
  rewrite Henum.
  destruct (enum_adapters_inv P lib f Hlf g Hlg zero_context w0 [] pCtx1 w1)
    as (_ & _ & Hdl & _); try done.
  rewrite Hdl. simpl. eauto.
Qed.

(** Teardown leaves the count and the array pointer of the session as they
    were. *)
Lemma deinit_context_body_fields pCtx w pCtx' w' :
  deinit_context_body pCtx w = Some (pCtx', w') ->
  adapterCount pCtx' = adapterCount pCtx /\
  adapterList pCtx' = adapterList pCtx /\
  initialized pCtx' = 0.
Proof.
  intros H. apply bind_Some in H as (? & w1 & _ & H).
  apply bind_Some in H as (? & w2 & _ & H). by injection H as <- <-.
Qed.

Lemma deinit_context_body_released pCtx w pCtx' w' b :
  adapterList pCtx = Ptr b ->
  deinit_context_body pCtx w = Some (pCtx', w') ->
  heap w' !! b = None.
Proof.
  intros Hb H. apply bind_Some in H as (? & w1 & _ & H).
  apply bind_Some in H as (? & w2 & Hfree & H). injection H as <- <-.
  rewrite Hb in Hfree. unfold free in Hfree.
  destruct (heap w1 !! b); [|done]. injection Hfree as <- <-.
  apply lookup_delete_eq.
Qed.

(** A second teardown of a session that had an adapter array reads or frees
    the array that the first one released. *)
Lemma deinit_context_body_twice pCtx w pCtx' w' b :
  adapterList pCtx = Ptr b ->
  deinit_context_body pCtx w = Some (pCtx', w') ->
  deinit_context_body pCtx' w' = None.
Proof.
  intros Hb H.
  pose proof (deinit_context_body_released _ _ _ _ _ Hb H) as Hgone.
  destruct (deinit_context_body_fields _ _ _ _ H) as (Hc & Hl & _).
  rewrite Hb in Hl. unfold deinit_context_body, bind. rewrite Hl.
  destruct (decide (0 < adapterCount pCtx')) as [Hpos|Hpos].
  - rewrite seqZ_cons by done. cbn [for_each]. unfold bind, dxcore_deinit_adapter.
    cbn [fst snd is_null andb]. unfold bind, load. by rewrite Hgone.
  - rewrite seqZ_nil by lia. cbn [for_each]. unfold ret.
    by rewrite free_dangling.
Qed.

(** * The properties of the specification *)

(** The heaps of the examples: one candidate buffer at block 1. *)
Lemma wf_world_boot s : wf_world (boot s).
Proof. intros b [a Ha]. simpl in Ha. by rewrite lookup_empty in Ha. Qed.

Lemma wf_world_candidates adapters s : wf_world (candidates_world adapters s).
Proof.
  intros b [a' Ha]. simpl in Ha. apply lookup_singleton_Some in Ha as [<- _].
  simpl. lia.
Qed.

(** ** Teardown *)

(** C1 (the code departs from it).  [dxcore_deinit_context] tolerates a null
    session pointer, but it is not idempotent and does not reset the session:
    it leaves [adapterCount] and the released [adapterList] in place.  For
    the session that [dxcore_init_context] builds from one qualifying
    adapter, the count is still 1 after the teardown, the array pointer
    dangles, and a second teardown in succession is undefined. *)
Theorem deinit_context_twice_after_one_adapter :
  dxcore_deinit_context None (boot []) = Some (None, boot []) /\
  exists pCtx w pCtx1 w1,
    dxcore_init_context
      (sample_platform [sample_adapter (mk_luid 1 0)] WDDM_2_7 sample_path)
      zero_context (boot []) = Some ((0, pCtx), w) /\
    dxcore_deinit_context (Some pCtx) w = Some (Some pCtx1, w1) /\
    adapterCount pCtx1 = 1 /\
    adapterList pCtx1 = Ptr 4 /\
    heap w1 !! 4%positive = None /\
    pCtx1 <> zero_context /\
    dxcore_deinit_context (Some pCtx1) w1 = None.
Proof.
  split; [done|].
  do 4 eexists.
  split; [vm_compute; reflexivity|].
  split; [vm_compute; reflexivity|].
  vm_compute. repeat split; done.
Qed.

(** ** Failure of the resolver *)

(** C4.  If the enumeration library cannot be loaded, or either of the two
    required entry points cannot be resolved, [dxcore_init_context] returns
    the failure code -1, the session's adapter count is 0, the session is in
    its torn-down zero state, and the library handle, if it was loaded, has
    been unloaded: the loader, the heap and the list of library calls are as
    they were before the call. *)
Theorem init_context_resolver_failure P pCtx w :
  resolver_fails P ->
  exists pCtx' w',
    dxcore_init_context P pCtx w = Some ((-1, pCtx'), w') /\
    adapterCount pCtx' = 0 /\
    pCtx' = zero_context /\
    dl_handles w' = dl_handles w /\
    heap w' = heap w /\
    calls w' = calls w.
Proof.
  intros Hfail. exists zero_context, w.
  split; [by apply init_context_fatal|]. done.
Qed.

Lemma init_context_resolver_failure_witness :
  exists pCtx' w',
    dxcore_init_context
      (mk_platform (Some (mk_libdxcore (Some (sample_enum [])) None)) C_locale)
      (mk_context 3 (Ptr 9) 1) (boot []) = Some ((-1, pCtx'), w') /\
    adapterCount pCtx' = 0 /\
    pCtx' = zero_context /\
    dl_handles w' = dl_handles (boot []) /\
    heap w' = heap (boot []) /\
    calls w' = calls (boot []).
Proof.
  apply init_context_resolver_failure. simpl. right. reflexivity.
Defined.

(** ** The bound on the driver-store path *)

(** C6.  If the size probe of the driver-store path query reports an
    [OutputValueSize] strictly greater than [DXCORE_MAX_PATH] wide characters
    in bytes, [dxcore_query_adapter_driverstore] returns the error -1 having
    made no allocation request and no fill query (the allocator and the heap
    are untouched and the probe is the only call), and the candidate is
    skipped: [dxcore_add_adapter] leaves the session as it was. *)
Theorem driverstore_oversized_skips P pLib f pCtx e hA w :
  pDxcoreQueryAdapterInfo pLib = Some f ->
  load_ai_hAdapter e w = Some (hA, w) ->
  fst (version_reply f hA w) = 0 ->
  WDDM_2_7 <= reported_version f hA w ->
  fst (probe_reply f hA (log_call w (version_call hA))) = 0 ->
  DXCORE_MAX_PATH * sizeof_wchar_t
    < reported_size f hA (log_call w (version_call hA)) ->
  exists w',
    dxcore_query_adapter_driverstore P pLib hA NULL (log_call w (version_call hA))
      = Some ((-1, NULL), w') /\
    alloc_script w' = alloc_script w /\
    next_block w' = next_block w /\
    heap w' = heap w /\
    calls w' = calls w ++ [version_call hA; probe_call hA] /\
    dxcore_add_adapter P pCtx pLib e w = Some (pCtx, w').
Proof.
  intros Hf Hload Hst Hv Hprobe Hsize.
  exists (log_call (log_call w (version_call hA)) (probe_call hA)).
  assert (Hrun : dxcore_query_adapter_driverstore P pLib hA NULL
                   (log_call w (version_call hA))
                 = Some ((-1, NULL),
                         log_call (log_call w (version_call hA)) (probe_call hA)))
    by (by eapply driverstore_oversized).
  split; [done|]. repeat split; try done.
  - simpl. by rewrite <- app_assoc.
  - eapply (add_adapter_path_failed P pLib f Hf); done.
Qed.

Lemma driverstore_oversized_skips_witness :
  exists w',
    dxcore_query_adapter_driverstore C_locale_platform
      (sample_lib [] WDDM_2_7 (replicate 261 65)) 7 NULL
      (log_call (candidates_world [sample_adapter (mk_luid 1 0)] []) (version_call 7))
      = Some ((-1, NULL), w') /\
    alloc_script w' = [] /\
    next_block w' = 2%positive /\
    heap w' = heap (candidates_world [sample_adapter (mk_luid 1 0)] []) /\
    calls w' = [version_call 7; probe_call 7] /\
    dxcore_add_adapter C_locale_platform zero_context
      (sample_lib [] WDDM_2_7 (replicate 261 65)) (Ptr 1, 0)
      (candidates_world [sample_adapter (mk_luid 1 0)] [])
      = Some (zero_context, w').
Proof.
  apply (driverstore_oversized_skips C_locale_platform
           (sample_lib [] WDDM_2_7 (replicate 261 65))
           (sample_query WDDM_2_7 (replicate 261 65))
           zero_context (Ptr 1, 0) 7
           (candidates_world [sample_adapter (mk_luid 1 0)] []));
    [reflexivity | reflexivity | reflexivity | vm_compute; discriminate
    | reflexivity | vm_compute; reflexivity].
Defined.

(** ** Appending to the registry *)

Section append.

Variable P : platform.
Variable pLib : dxcore_lib.
Variable f : pfnDxcoreQueryAdapterInfo.
Hypothesis Hf : pDxcoreQueryAdapterInfo pLib = Some f.

(** What a successful resolution of the path of a qualified candidate has
    done to a well-formed heap that holds the session. *)
Lemma resolved_path_frame pCtx hA w l b w2 :
  wf_world w ->
  registry w pCtx = Some l ->
  dxcore_query_adapter_driverstore P pLib hA NULL (log_call w (version_call hA))
    = Some ((0, Ptr b), w2) ->
  exists a,
    heap w !! b = None /\
    heap w2 = <[b := a]> (heap w) /\
    (b < next_block w2)%positive /\
    Ptr b <> adapterList pCtx /\
    registry w2 pCtx = Some l.
Proof.
  intros Hwf Hreg Hrun.
  assert (Hwf1 : wf_world (log_call w (version_call hA))) by done.
  destruct (driverstore_outcome P pLib f Hf hA _ NULL Hwf1)
    as (r & path & w2' & Hrun' & _ & _ & Hheap).
  rewrite Hrun in Hrun'. injection Hrun' as <- <- <-.
  destruct Hheap as [[? _]|[_ (b' & a & [= <-] & Hb & Hheap)]]; [done|].
  simpl in Hb, Hheap.
  assert (Hfresh : heap w !! b = None) by (apply wf_world_fresh_ge; [done|lia]).
  exists a. repeat split; try done; try lia.
  - intros Heq. symmetry in Heq.
    destruct (registry_wf_block _ _ _ _ Hreg Heq) as (sz & Hb' & _). congruence.
  - eapply registry_frame; [done|]. intros b' a' Hb'.
    rewrite Hheap, lookup_insert_ne; [done|congruence].
Qed.


Lemma add_adapter_admitted pCtx e hA w l b w2 s :
  wf_world w ->
  load_ai_hAdapter e w = Some (hA, w) ->
  fst (version_reply f hA w) = 0 ->
  WDDM_2_7 <= reported_version f hA w ->
  registry w pCtx = Some l ->
  dxcore_query_adapter_driverstore P pLib hA NULL (log_call w (version_call hA))
    = Some ((0, Ptr b), w2) ->
  next_outcome (alloc_script w2) = (true, s) ->
  adapterCount pCtx + 1 < 2 ^ 32 ->
  exists pCtx' w3,
    dxcore_add_adapter P pCtx pLib e w = Some (pCtx', w3) /\
    registry w3 pCtx' =
      Some (l ++ [fill_adapter indeterminate_adapter hA (Ptr b)
                    (reported_version f hA w)]) /\
    adapterCount pCtx' = adapterCount pCtx + 1 /\
    initialized pCtx' = initialized pCtx /\
    is_Some (heap w3 !! b).
Proof.
  intros Hwf Hload Hst Hv Hreg Hrun Ha Hcount.
  destruct (resolved_path_frame pCtx hA w l b w2 Hwf Hreg Hrun)
    as (a & Hfresh & Hheap & Hlt & Hne & Hreg2).
  eexists _, _.
  split; [by eapply (add_adapter_appended P pLib f Hf)|].
  split; [by apply registry_appended|].
  repeat split. simpl. exists a.
  rewrite lookup_insert_ne by lia.
  destruct (adapterList pCtx) as [|old].
  - rewrite Hheap. apply lookup_insert_eq.
  - rewrite lookup_delete_ne by congruence. rewrite Hheap. apply lookup_insert_eq.
Qed.

Lemma add_adapter_not_grown pCtx e hA w l b w2 s :
  wf_world w ->
  load_ai_hAdapter e w = Some (hA, w) ->
  fst (version_reply f hA w) = 0 ->
  WDDM_2_7 <= reported_version f hA w ->
  registry w pCtx = Some l ->
  dxcore_query_adapter_driverstore P pLib hA NULL (log_call w (version_call hA))
    = Some ((0, Ptr b), w2) ->
  next_outcome (alloc_script w2) = (false, s) ->
  exists w3,
    dxcore_add_adapter P pCtx pLib e w = Some (pCtx, w3) /\
    heap w3 = heap w /\
    is_Some (heap w2 !! b) /\
    heap w3 !! b = None /\
    registry w3 pCtx = Some l.
Proof.
  intros Hwf Hload Hst Hv Hreg Hrun Ha.
  destruct (resolved_path_frame pCtx hA w l b w2 Hwf Hreg Hrun)
    as (a & Hfresh & Hheap & Hlt & Hne & Hreg2).
  assert (Hlive : is_Some (heap w2 !! b))
    by (rewrite Hheap, lookup_insert_eq; eauto).
  eexists.
  split; [by eapply (add_adapter_realloc_refused P pLib f Hf)|].
  assert (Hback : delete b (heap w2) = heap w)
    by (rewrite Hheap; by apply delete_insert_id).
  simpl. repeat split; try done.
  - by rewrite Hback.
  - eapply registry_frame; [exact Hreg|]. simpl. intros b' a' ?. by rewrite Hback.
Qed.

End append.



(** ** The version gate *)

(** C2.  Qualification applies the minimum driver-model version as a closed
    lower bound at the integer code of version 2.7, 2700.  A candidate whose
    queried version is below the bound, in particular exactly one below it,
    is skipped and the session is left as it was; a candidate whose version
    is at the bound or above it, in particular exactly the bound, is
    admitted: once its path is resolved and the array grown it is the new
    last adapter, with that version.  And every adapter that is in the
    registry when [dxcore_init_context] returns has a version of at least
    the bound. *)
Theorem version_gate_closed_lower_bound P pLib f pCtx e hA w l :
  pDxcoreQueryAdapterInfo pLib = Some f ->
  wf_world w ->
  load_ai_hAdapter e w = Some (hA, w) ->
  registry w pCtx = Some l ->
  fst (version_reply f hA w) = 0 ->
  WDDM_2_7 = 2700 /\
  (reported_version f hA w < WDDM_2_7 ->
   dxcore_add_adapter P pCtx pLib e w = Some (pCtx, log_call w (version_call hA))) /\
  (WDDM_2_7 <= reported_version f hA w ->
   forall b w2 s,
     dxcore_query_adapter_driverstore P pLib hA NULL (log_call w (version_call hA))
       = Some ((0, Ptr b), w2) ->
     next_outcome (alloc_script w2) = (true, s) ->
     adapterCount pCtx + 1 < 2 ^ 32 ->
     exists pCtx' w3 a,
       dxcore_add_adapter P pCtx pLib e w = Some (pCtx', w3) /\
       registry w3 pCtx' = Some (l ++ [a]) /\
       wddmVersion a = Some (reported_version f hA w)) /\
  (forall pCtx0 w0 r pCtx' w',
     wf_world w0 ->
     dxcore_init_context P pCtx0 w0 = Some ((r, pCtx'), w') ->
     exists l', registry w' pCtx' = Some l' /\ Forall version_admitted l').
Proof.
  intros Hf Hwf Hload Hreg Hst. split; [done|]. split; [|split].
  - intros Hv. by apply (add_adapter_below_minimum P pLib f Hf).
  - intros Hv b w2 s Hrun Ha Hcount.
    destruct (add_adapter_admitted P pLib f Hf pCtx e hA w l b w2 s)
      as (pCtx' & w3 & Hstep & Hreg3 & _); try done.
    by eexists _, _, _.
  - intros pCtx0 w0 r pCtx' w' Hwf0 Hrun. by eapply init_context_registry.
Qed.

Lemma version_gate_closed_lower_bound_witness :
  dxcore_add_adapter C_locale_platform zero_context
    (sample_lib [] (WDDM_2_7 - 1) sample_path) (Ptr 1, 0)
    (candidates_world [sample_adapter (mk_luid 1 0)] [])
  = Some (zero_context,
          log_call (candidates_world [sample_adapter (mk_luid 1 0)] [])
            (version_call 7)) /\
  exists pCtx' w3 a,
    dxcore_add_adapter C_locale_platform zero_context
      (sample_lib [] WDDM_2_7 sample_path) (Ptr 1, 0)
      (candidates_world [sample_adapter (mk_luid 1 0)] [])
    = Some (pCtx', w3) /\
    registry w3 pCtx' = Some ([] ++ [a]) /\
    wddmVersion a = Some 2700.
Proof.
  split.
  - apply (version_gate_closed_lower_bound C_locale_platform
             (sample_lib [] (WDDM_2_7 - 1) sample_path)
             (sample_query (WDDM_2_7 - 1) sample_path)
             zero_context (Ptr 1, 0) 7
             (candidates_world [sample_adapter (mk_luid 1 0)] []) []);
      [reflexivity | apply wf_world_candidates | reflexivity | reflexivity
      | reflexivity | vm_compute; reflexivity].
  - eapply (version_gate_closed_lower_bound C_locale_platform
              (sample_lib [] WDDM_2_7 sample_path)
              (sample_query WDDM_2_7 sample_path)
              zero_context (Ptr 1, 0) 7
              (candidates_world [sample_adapter (mk_luid 1 0)] []) []);
      [reflexivity | apply wf_world_candidates | reflexivity | reflexivity
      | reflexivity | vm_compute; discriminate | vm_compute; reflexivity
      | reflexivity | reflexivity].
Defined.

(** The boundary on whole runs: the same machine with its one adapter at
    2699 and at 2700. *)
Example init_context_one_below_threshold :
  exists w,
    dxcore_init_context
      (sample_platform [sample_adapter (mk_luid 1 0)] 2699 sample_path)
      zero_context (boot []) = Some ((0, mk_context 0 NULL 1), w) /\
    heap w = ∅.
Proof. eexists. split; vm_compute; reflexivity. Qed.

Example init_context_at_threshold :
  exists w,
    dxcore_init_context
      (sample_platform [sample_adapter (mk_luid 1 0)] 2700 sample_path)
      zero_context (boot []) = Some ((0, mk_context 1 (Ptr 4) 1), w) /\
    registry w (mk_context 1 (Ptr 4) 1)
    = Some [mk_adapter (Some 7) (Some 2700) (Some (Ptr 3)) None None None].
Proof. eexists. split; vm_compute; reflexivity. Qed.

(** ** The attributes of an adapter *)

(** C8, as the code has it.  Every adapter admitted into the registry
    carries the platform handle, the driver-model version and the owned
    driver-store path: after a successful append the session has one adapter
    more, and the new last element of the registry has the candidate's
    [hAdapter], the version that was queried for it and the path buffer that
    was resolved for it, which is a live allocation.  [struct dxcore_adapter]
    has no member for the luid, so none is recorded. *)
Theorem appended_adapter_attributes P pLib f pCtx e hA w l b w2 s :
  pDxcoreQueryAdapterInfo pLib = Some f ->
  wf_world w ->
  load_ai_hAdapter e w = Some (hA, w) ->
  fst (version_reply f hA w) = 0 ->
  WDDM_2_7 <= reported_version f hA w ->
  registry w pCtx = Some l ->
  dxcore_query_adapter_driverstore P pLib hA NULL (log_call w (version_call hA))
    = Some ((0, Ptr b), w2) ->
  next_outcome (alloc_script w2) = (true, s) ->
  adapterCount pCtx + 1 < 2 ^ 32 ->
  exists pCtx' w3 a,
    dxcore_add_adapter P pCtx pLib e w = Some (pCtx', w3) /\
    adapterCount pCtx' = adapterCount pCtx + 1 /\
    registry w3 pCtx' = Some (l ++ [a]) /\
    hAdapter a = Some hA /\
    wddmVersion a = Some (reported_version f hA w) /\
    pDriverStorePath a = Some (Ptr b) /\
    is_Some (heap w3 !! b).
Proof.
  intros Hf Hwf Hload Hst Hv Hreg Hrun Ha Hcount.
  destruct (add_adapter_admitted P pLib f Hf pCtx e hA w l b w2 s)
    as (pCtx' & w3 & Hstep & Hreg3 & Hc & _ & Hlive); try done.
  eexists _, _, _. repeat split; try done.
Qed.

Lemma appended_adapter_attributes_witness :
  exists pCtx' w3 a,
    dxcore_add_adapter C_locale_platform zero_context
      (sample_lib [] WDDM_2_7 sample_path) (Ptr 1, 0)
      (candidates_world [sample_adapter (mk_luid 1 0)] [])
    = Some (pCtx', w3) /\
    adapterCount pCtx' = 0 + 1 /\
    registry w3 pCtx' = Some ([] ++ [a]) /\
    hAdapter a = Some 7 /\
    wddmVersion a = Some 2700 /\
    pDriverStorePath a = Some (Ptr 3) /\
    is_Some (heap w3 !! 3%positive).
Proof.
  eapply (appended_adapter_attributes C_locale_platform
            (sample_lib [] WDDM_2_7 sample_path)
            (sample_query WDDM_2_7 sample_path)
            zero_context (Ptr 1, 0) 7
            (candidates_world [sample_adapter (mk_luid 1 0)] []) []);
    [reflexivity | apply wf_world_candidates | reflexivity | reflexivity
    | vm_compute; discriminate | reflexivity | vm_compute; reflexivity
    | reflexivity | reflexivity].
Defined.

(** C8, as it is stated, fails.  Two machines whose one adapter differs in
    nothing but its luid leave the very same element in the registry, so no
    reading of a registry element gives the luid of its candidate; and the
    back-reference [pContext] of that element was never stored: it points to
    no session. *)
Lemma adapter_luid_and_context_not_recorded :
  exists w1 w2 a,
    dxcore_init_context
      (sample_platform [sample_adapter (mk_luid 1 0)] WDDM_2_7 sample_path)
      zero_context (boot []) = Some ((0, mk_context 1 (Ptr 4) 1), w1) /\
    dxcore_init_context
      (sample_platform [sample_adapter (mk_luid 2 0)] WDDM_2_7 sample_path)
      zero_context (boot []) = Some ((0, mk_context 1 (Ptr 4) 1), w2) /\
    registry w1 (mk_context 1 (Ptr 4) 1) = Some [a] /\
    registry w2 (mk_context 1 (Ptr 4) 1) = Some [a] /\
    ~ (exists luid_of : dxcore_adapter -> dxcore_luid,
         luid_of a = AdapterLuid (sample_adapter (mk_luid 1 0)) /\
         luid_of a = AdapterLuid (sample_adapter (mk_luid 2 0))) /\
    (forall session : ptr, pContext a <> Some session).
Proof.
  eexists _, _, _.
  split; [vm_compute; reflexivity|].
  split; [vm_compute; reflexivity|].
  split; [vm_compute; reflexivity|].
  split; [vm_compute; reflexivity|].
  split.
  - intros (luid_of & H1 & H2). rewrite H1 in H2. discriminate.
  - intros session. discriminate.
Qed.

(** ** The resolved path *)

(** A buffer with a null behind it splits at its first null. *)
Lemma terminated_split (a r : list Z) :
  exists r', a ++ 0 :: r = c_string a ++ 0 :: r'.
Proof.
  induction a as [|c a [r' IH]]; [by exists r|].
  simpl. destruct (Z.eqb_spec c 0) as [->|_].
  - by exists (a ++ 0 :: r).
  - exists r'. simpl. by rewrite IH.
Qed.

Section resolved_path.

Variable P : platform.
Variable pLib : dxcore_lib.
Variable f : pfnDxcoreQueryAdapterInfo.
Hypothesis Hf : pDxcoreQueryAdapterInfo pLib = Some f.
Variable h : Z.

(** What [wcstombs] is given: the reported string, its terminator, and what
    lies behind. *)
Lemma terminated_output_split w :
  exists rest,
    <[character_count f h w := 0]> (reported_output f h w)
    = reported_path f h w ++ 0 :: rest /\
    (length (reported_path f h w) <= character_count f h w)%nat.
Proof.
  pose proof (character_count_lt_slots f h w) as Hlt.
  assert (Hlen : length (reported_output f h w) = output_slots (reported_size f h w))
    by (unfold reported_output; by rewrite length_overlay, length_replicate).
  rewrite insert_take_drop by lia.
  destruct (terminated_split (take (character_count f h w) (reported_output f h w))
              (drop (S (character_count f h w)) (reported_output f h w)))
    as [rest Hsplit].
  exists rest. split; [exact Hsplit|].
  unfold reported_path.
  etransitivity; [apply length_c_string|]. rewrite length_take. lia.
Qed.

(** The path buffer of a successful resolution: [outputSize + 1] bytes, of
    which the last is null whatever the conversion did. *)
Lemma resolved_path_buffer w p0 s s' :
  wf_world w ->
  fst (probe_reply f h w) = 0 ->
  reported_size f h w <= DXCORE_MAX_PATH * sizeof_wchar_t ->
  next_outcome (alloc_script w) = (true, s) ->
  fst (fill_reply f h w) = 0 ->
  next_outcome s = (true, s') ->
  exists bytes r w',
    wcstombs (wctomb P) (<[character_count f h w := 0]> (reported_output f h w))
      (character_count f h w) = Some (bytes, r) /\
    dxcore_query_adapter_driverstore P pLib h p0 w
      = Some ((0, Ptr (Pos.succ (next_block w))), w') /\
    heap w' !! Pos.succ (next_block w)
      = Some (mk_allocation (Z.of_nat (character_count f h w) + 1)
                (BChars (overlay bytes (replicate (S (character_count f h w)) 0)))) /\
    (length bytes <= character_count f h w)%nat /\
    length (overlay bytes (replicate (S (character_count f h w)) 0))
      = S (character_count f h w) /\
    overlay bytes (replicate (S (character_count f h w)) 0)
      !! character_count f h w = Some 0 /\
    c_string (overlay bytes (replicate (S (character_count f h w)) 0))
      = c_string bytes.
Proof.
  intros Hwf Hst1 Hsz Ha1 Hst2 Ha2.
  destruct (driverstore_success P pLib f Hf h w p0 s s') as (bytes & r & Hconv & Hrun);
    try done.
  pose proof (wcstombs_length _ _ _ _ _ Hconv) as Hlen.
  exists bytes, r. eexists. split; [done|]. split; [exact Hrun|].
  cbn [heap]. rewrite lookup_insert_eq. repeat split; try done.
  - by rewrite length_overlay, length_replicate.
  - rewrite lookup_overlay_ge by done. apply lookup_replicate_2. lia.
  - by apply c_string_overlay_zeros.
Qed.

End resolved_path.

(** C3, as the code has it.  Every successful driver-store path resolution
    with reported [OutputValueSize] of N bytes, that is n = N / sizeof(wchar_t)
    characters, returns a non-null pointer to an allocation of exactly n + 1
    bytes whose last byte is null, and a path of zero length yields the empty
    string.  When every character of the wide string that the library
    reported converts to a single byte that is not null, as ASCII does in
    the "C" locale, the string in the buffer is that wide string converted
    character for character; more generally, when the characters convert to
    multibyte characters without null bytes that fit into n bytes together,
    the string in the buffer is those multibyte characters one after the
    other. *)
Theorem resolved_path_converted P pLib f h w p0 s s' :
  pDxcoreQueryAdapterInfo pLib = Some f ->
  wf_world w ->
  fst (probe_reply f h w) = 0 ->
  reported_size f h w <= DXCORE_MAX_PATH * sizeof_wchar_t ->
  next_outcome (alloc_script w) = (true, s) ->
  fst (fill_reply f h w) = 0 ->
  next_outcome s = (true, s') ->
  exists b bs w',
    dxcore_query_adapter_driverstore P pLib h p0 w = Some ((0, Ptr b), w') /\
    heap w' !! b
      = Some (mk_allocation (Z.of_nat (character_count f h w) + 1) (BChars bs)) /\
    length bs = S (character_count f h w) /\
    bs !! character_count f h w = Some 0 /\
    (reported_size f h w = 0 -> c_string bs = []) /\
    (forall narrow,
       Forall2 (single_byte (wctomb P)) (reported_path f h w) narrow ->
       c_string bs = narrow /\
       converted (wctomb P) (reported_path f h w) (c_string bs)) /\
    (forall mbs,
       Forall2 (multibyte (wctomb P)) (reported_path f h w) mbs ->
       (length (concat mbs) <= character_count f h w)%nat ->
       c_string bs = concat mbs).
Proof.
  intros Hf Hwf Hst1 Hsz Ha1 Hst2 Ha2.
  destruct (resolved_path_buffer P pLib f Hf h w p0 s s')
    as (bytes & r & w' & Hw & Hrun & Hblock & Hlen & Hsize & Hnull & Hstr); try done.
  destruct (terminated_output_split f h w) as (rest & Hsplit & Hfit).
  rewrite Hsplit in Hw.
  eexists _, _, _. split; [exact Hrun|]. split; [exact Hblock|].
  split; [exact Hsize|]. split; [exact Hnull|]. split; [|split].
  - intros Hzero.
    assert (Hcount : character_count f h w = 0%nat)
      by (unfold character_count; by rewrite Hzero).
    set (out := overlay bytes (replicate (S (character_count f h w)) 0)) in *.
    clearbody out. rewrite Hcount in Hnull.
    destruct out as [|c bs]; [done|].
    simpl in Hnull. injection Hnull as ->. reflexivity.
  - intros narrow Hconv.
    rewrite (wcstombs_single_byte _ _ narrow) in Hw by done.
    injection Hw as <- <-.
    assert (Hnarrow : c_string (overlay
                        (narrow ++ (if decide (length (reported_path f h w)
                                               < character_count f h w)%nat
                                    then [0] else []))
                        (replicate (S (character_count f h w)) 0)) = narrow).
    { rewrite Hstr.
      assert (Forall (fun c => c <> 0) narrow) as Hnz.
      { clear -Hconv. induction Hconv as [|c b ? ? (_ & Hb & _) _ IH]; by constructor. }
      case_decide.
      - rewrite c_string_app_null. by apply c_string_nonnull.
      - rewrite app_nil_r. by apply c_string_nonnull. }
    split; [exact Hnarrow|].
    rewrite Hnarrow. eapply Forall2_impl; [exact Hconv|].
    by intros c b (_ & _ & ?).
  - intros mbs Hconv Hroom.
    rewrite (wcstombs_multibyte _ _ mbs) in Hw by done.
    injection Hw as <- <-. rewrite Hstr.
    assert (Forall (fun c => c <> 0) (concat mbs)) as Hnz.
    { clear -Hconv. induction Hconv as [|c mb ? ? (_ & _ & _ & Hmb) _ IH];
        [constructor|]. simpl. by apply Forall_app. }
    case_decide.
    + rewrite c_string_app_null. by apply c_string_nonnull.
    + rewrite app_nil_r. by apply c_string_nonnull.
Qed.

(** The round trip of the specification: [C:\drivers\v1], 13 characters,
    comes back as the same 13 characters in an allocation of 14 bytes. *)
Lemma resolved_path_converted_witness :
  exists b bs w',
    dxcore_query_adapter_driverstore C_locale_platform
      (sample_lib [] WDDM_2_7 sample_path) 7 NULL (boot [])
    = Some ((0, Ptr b), w') /\
    heap w' !! b = Some (mk_allocation (Z.of_nat 13 + 1) (BChars bs)) /\
    length bs = 14%nat /\
    bs !! 13%nat = Some 0 /\
    c_string bs = sample_path /\
    converted C_locale sample_path (c_string bs) /\
    (sizeof_wchar_t * 13 = 0 -> c_string bs = []).
Proof.
  destruct (resolved_path_converted C_locale_platform
              (sample_lib [] WDDM_2_7 sample_path)
              (sample_query WDDM_2_7 sample_path) 7 (boot []) NULL [] [])
    as (b & bs & w' & Hrun & Hblock & Hlen & Hnull & Hempty & Hconv & _);
    [reflexivity | apply wf_world_boot | reflexivity | vm_compute; discriminate
    | reflexivity | reflexivity | reflexivity |].
  destruct (Hconv sample_path) as [Hstr Hchars];
    [vm_compute; repeat constructor; discriminate|].
  exists b, bs, w'. split; [exact Hrun|]. split; [exact Hblock|].
  split; [exact Hlen|]. split; [exact Hnull|]. split; [exact Hstr|].
  split; [exact Hchars|exact Hempty].
Defined.

Example resolved_path_empty :
  exists w',
    dxcore_query_adapter_driverstore C_locale_platform
      (sample_lib [] WDDM_2_7 []) 7 NULL (boot [])
    = Some ((0, Ptr 2), w') /\
    heap w' !! 2%positive = Some (mk_allocation 1 (BChars [0])).
Proof. eexists. split; vm_compute; reflexivity. Qed.

(** A locale in which e with an acute accent has a form of two bytes: the
    path of that one character, reported with its terminator, comes back as
    the two bytes in an allocation of three. *)
Example resolved_path_two_bytes :
  exists w',
    dxcore_query_adapter_driverstore
      (mk_platform None (fun c => if c =? 233 then Some [195; 169] else C_locale c))
      (sample_lib [] WDDM_2_7 [233; 0]) 7 NULL (boot [])
    = Some ((0, Ptr 2), w') /\
    heap w' !! 2%positive = Some (mk_allocation 3 (BChars [195; 169; 0])).
Proof. eexists. split; vm_compute; reflexivity. Qed.

(** C3, as it is stated, fails.  In the "C" locale the three wide characters
    C, e with an acute accent, D are reported and resolution succeeds, but
    the string in the buffer is the single character C: it is not the wide
    string converted character for character. *)
Lemma resolved_path_not_converted :
  exists w' bs,
    dxcore_query_adapter_driverstore C_locale_platform
      (sample_lib [] WDDM_2_7 [67; 233; 68]) 7 NULL (boot [])
    = Some ((0, Ptr 2), w') /\
    heap w' !! 2%positive = Some (mk_allocation 4 (BChars bs)) /\
    reported_path (sample_query WDDM_2_7 [67; 233; 68]) 7 (boot []) = [67; 233; 68] /\
    c_string bs = [67] /\
    ~ converted C_locale [67; 233; 68] (c_string bs).
Proof.
  eexists _, _.
  split; [vm_compute; reflexivity|].
  split; [vm_compute; reflexivity|].
  split; [vm_compute; reflexivity|].
  split; [vm_compute; reflexivity|].
  intros H. vm_compute in H. inversion H as [|? ? ? ? _ Hrest]. inversion Hrest.
Qed.

(** C10.  The result of the wide-to-narrow conversion is never checked: a
    resolution whose two queries and two allocations succeed returns success
    whatever [wcstombs] returns, so that a wide string with a character that
    has no multibyte form yields success with the string cut before that
    character (the return value of [wcstombs] being -1).  All the same the
    returned buffer always ends in a null: it has [outputSize + 1] bytes, all
    zero before the conversion, of which [wcstombs] writes at most
    [outputSize]. *)
Theorem resolved_path_null_terminated P pLib f h w p0 s s' :
  pDxcoreQueryAdapterInfo pLib = Some f ->
  wf_world w ->
  fst (probe_reply f h w) = 0 ->
  reported_size f h w <= DXCORE_MAX_PATH * sizeof_wchar_t ->
  next_outcome (alloc_script w) = (true, s) ->
  fst (fill_reply f h w) = 0 ->
  next_outcome s = (true, s') ->
  exists bytes r b bs w',
    wcstombs (wctomb P) (<[character_count f h w := 0]> (reported_output f h w))
      (character_count f h w) = Some (bytes, r) /\
    dxcore_query_adapter_driverstore P pLib h p0 w = Some ((0, Ptr b), w') /\
    heap w' !! b
      = Some (mk_allocation (Z.of_nat (character_count f h w) + 1) (BChars bs)) /\
    bs = overlay bytes (replicate (S (character_count f h w)) 0) /\
    (length bytes <= character_count f h w)%nat /\
    length bs = S (character_count f h w) /\
    bs !! character_count f h w = Some 0 /\
    (forall pre c post narrow,
       reported_path f h w = pre ++ c :: post ->
       Forall2 (single_byte (wctomb P)) pre narrow ->
       wctomb P c = None ->
       r = -1 /\ c_string bs = narrow).
Proof.
  intros Hf Hwf Hst1 Hsz Ha1 Hst2 Ha2.
  destruct (resolved_path_buffer P pLib f Hf h w p0 s s')
    as (bytes & r & w' & Hw & Hrun & Hblock & Hlen & Hsize & Hnull & Hstr); try done.
  exists bytes, r. eexists _, _, _.
  split; [exact Hw|]. split; [exact Hrun|]. split; [exact Hblock|].
  do 4 (split; [done|]).
  intros pre c post narrow Hpath Hpre Henc.
  destruct (terminated_output_split f h w) as (rest & Hsplit & Hfit).
  rewrite Hsplit, Hpath, <- app_assoc in Hw. cbn [app] in Hw.
  assert (c <> 0) as Hc.
  { pose proof (c_string_Forall
                  (take (character_count f h w) (reported_output f h w))) as Hnz.
    fold (reported_path f h w) in Hnz. rewrite Hpath in Hnz.
    apply Forall_app in Hnz as [_ Hnz]. by apply Forall_cons in Hnz as [? _]. }
  rewrite (wcstombs_unconvertible _ _ narrow) in Hw
    by (try done; rewrite Hpath, length_app in Hfit; simpl in Hfit; lia).
  injection Hw as <- <-. split; [done|].
  rewrite Hstr. apply c_string_nonnull.
  clear -Hpre. induction Hpre as [|c' b' ? ? (_ & Hb & _) _ IH]; by constructor.
Qed.

Lemma resolved_path_null_terminated_witness :
  exists bytes r b bs w',
    wcstombs C_locale [67; 233; 68; 0; 0; 0] 3 = Some (bytes, r) /\
    dxcore_query_adapter_driverstore C_locale_platform
      (sample_lib [] WDDM_2_7 [67; 233; 68]) 7 NULL (boot [])
    = Some ((0, Ptr b), w') /\
    heap w' !! b = Some (mk_allocation (Z.of_nat 3 + 1) (BChars bs)) /\
    bs = overlay bytes (replicate 4 0) /\
    (length bytes <= 3)%nat /\
    length bs = 4%nat /\
    bs !! 3%nat = Some 0 /\
    (forall pre c post narrow,
       [67; 233; 68] = pre ++ c :: post ->
       Forall2 (single_byte C_locale) pre narrow ->
       C_locale c = None ->
       r = -1 /\ c_string bs = narrow).
Proof.
  apply (resolved_path_null_terminated C_locale_platform
           (sample_lib [] WDDM_2_7 [67; 233; 68])
           (sample_query WDDM_2_7 [67; 233; 68]) 7 (boot []) NULL [] []);
    [reflexivity | apply wf_world_boot | reflexivity | vm_compute; discriminate
    | reflexivity | reflexivity | reflexivity].
Defined.

(** ** The candidate buffer *)

(** C9.  The allocation of the candidate buffer, between the size probe and
    the fill call of the enumeration, is not checked.  When the probe counts
    at least one adapter and the allocation fails, the fill call is made all
    the same, with a null buffer and that non-zero count; what the
    enumeration does next is decided by what the library answers to that
    call, and if it answers success with a count that is not zero, the first
    candidate is read through the null pointer: the enumeration is undefined.
    The enumeration does return when the allocation succeeds, or there is no
    candidate to hold, and the fill call keeps to its contract. *)
Theorem enum_adapters_unchecked_buffer P pLib f g pCtx w :
  pDxcoreEnumAdapters2 pLib = Some g ->
  pDxcoreQueryAdapterInfo pLib = Some f ->
  reply_status (enum_probe_reply g w) = 0 ->
  (forall s,
     next_outcome (alloc_script w) = (false, s) ->
     0 < candidate_count g w ->
     enum_fill_call g w NULL = CallEnumAdapters2 (candidate_count g w) NULL /\
     last (calls (world_without_buffer g w s)) = Some (enum_fill_call g w NULL) /\
     dxcore_enum_adapters P pCtx pLib w =
       (if negb (reply_status (enum_fill_reply g w NULL) =? 0)
        then Some (pCtx, world_without_buffer g w s)
        else
          for_each (fun pCtx i => dxcore_add_adapter P pCtx pLib (NULL, i))
            (seqZ 0 (filled_count g w NULL)) pCtx (world_without_buffer g w s)) /\
     (reply_status (enum_fill_reply g w NULL) = 0 ->
      0 < filled_count g w NULL ->
      dxcore_enum_adapters P pCtx pLib w = None)) /\
  (forall l,
     wf_world w ->
     registry w pCtx = Some l ->
     Forall version_admitted l ->
     adapterCount pCtx = 0 ->
     fst (next_outcome (alloc_script w)) = true \/ candidate_count g w = 0 ->
     fill_contract g w (candidate_buffer w) ->
     is_Some (dxcore_enum_adapters P pCtx pLib w)).
Proof.
  intros Hg Hf Hst. split.
  - intros s Ha Hcount.
    pose proof (enum_adapters_buffer_refused P pLib g Hg pCtx w s Hst Ha) as Heq.
    split; [done|]. split; [|split; [exact Heq|]].
    + simpl. by rewrite last_app.
    + intros Hst2 Hfilled. rewrite Heq, Hst2. cbn [Z.eqb negb].
      rewrite seqZ_cons by done. done.
  - intros l Hwf Hreg Hall Hzero Hpre Hcontract.
    eapply (enum_adapters_defined P pLib f Hf g Hg); try done.
Qed.

Lemma enum_adapters_unchecked_buffer_witness :
  last (calls (world_without_buffer (sample_enum [sample_adapter (mk_luid 1 0)])
                 (boot [false]) []))
  = Some (CallEnumAdapters2 1 NULL) /\
  dxcore_enum_adapters C_locale_platform zero_context
    (sample_lib [sample_adapter (mk_luid 1 0)] WDDM_2_7 sample_path) (boot [false])
  = None /\
  is_Some
    (dxcore_enum_adapters C_locale_platform zero_context
       (sample_lib [sample_adapter (mk_luid 1 0)] WDDM_2_7 sample_path) (boot [])).
Proof.
  destruct (enum_adapters_unchecked_buffer C_locale_platform
              (sample_lib [sample_adapter (mk_luid 1 0)] WDDM_2_7 sample_path)
              (sample_query WDDM_2_7 sample_path)
              (sample_enum [sample_adapter (mk_luid 1 0)])
              zero_context (boot [false]))
    as [Hrefused _]; [reflexivity | reflexivity | reflexivity |].
  destruct (Hrefused []) as (_ & Hlast & _ & Hnone);
    [reflexivity | vm_compute; reflexivity |].
  destruct (enum_adapters_unchecked_buffer C_locale_platform
              (sample_lib [sample_adapter (mk_luid 1 0)] WDDM_2_7 sample_path)
              (sample_query WDDM_2_7 sample_path)
              (sample_enum [sample_adapter (mk_luid 1 0)])
              zero_context (boot []))
    as [_ Hgranted]; [reflexivity | reflexivity | reflexivity |].
  split; [exact Hlast|]. split.
  - apply Hnone; [reflexivity | vm_compute; reflexivity].
  - apply (Hgranted []);
      [apply wf_world_boot | reflexivity | constructor | reflexivity
      | left; reflexivity |].
    intros _. split; vm_compute; discriminate.
Defined.

(** ** Success of the discovery pass *)

(** C7 (the code departs from it).  With the library loaded and both entry
    points resolved, [dxcore_init_context] does not always return success:
    on a machine with one adapter, when the one allocation request of the
    enumeration, the candidate buffer, fails, the library is still asked to
    fill a null buffer, answers success with its count of one, and the
    candidate is read through the null pointer.  With memory for the buffer
    the same machine gives success and an initialised session. *)
Theorem init_context_without_candidate_buffer :
  resolves (sample_platform [sample_adapter (mk_luid 1 0)] WDDM_2_7 sample_path)
    (sample_enum [sample_adapter (mk_luid 1 0)]) (sample_query WDDM_2_7 sample_path) /\
  dxcore_init_context
    (sample_platform [sample_adapter (mk_luid 1 0)] WDDM_2_7 sample_path)
    zero_context (boot [false]) = None /\
  exists w,
    dxcore_init_context
      (sample_platform [sample_adapter (mk_luid 1 0)] WDDM_2_7 sample_path)
      zero_context (boot []) = Some ((0, mk_context 1 (Ptr 4) 1), w).
Proof.
  split; [by eexists|]. split; [reflexivity|].
  eexists. vm_compute. reflexivity.
Qed.

(** * Further properties of dxcore.c *)

(** ** One qualification, step by step *)

Section qualification_step.

Variable P : platform.
Variable pLib : dxcore_lib.
Variable f : pfnDxcoreQueryAdapterInfo.
Hypothesis Hf : pDxcoreQueryAdapterInfo pLib = Some f.

(** A qualification either leaves the session and the heap as they were, or
    adds two blocks, the path and the grown array, and releases the old
    array. *)
Lemma add_adapter_step pCtx e hA w l :
  wf_world w ->
  load_ai_hAdapter e w = Some (hA, w) ->
  registry w pCtx = Some l ->
  Forall version_admitted l ->
  adapterCount pCtx + 1 < 2 ^ 32 ->
  exists pCtx' w',
    dxcore_add_adapter P pCtx pLib e w = Some (pCtx', w') /\
    wf_world w' /\
    ((pCtx' = pCtx /\ heap w' = heap w) \/
     exists b nb ap sz v,
       WDDM_2_7 <= v /\
       heap w !! b = None /\ heap w !! nb = None /\ b <> nb /\
       pCtx' = mk_context (adapterCount pCtx + 1) (Ptr nb) (initialized pCtx) /\
       heap w' =
         <[nb := mk_allocation sz
                   (BAdapters (l ++ [entry (mk_admission hA b v)]))]>
           (match adapterList pCtx with
            | NULL => <[b := ap]> (heap w)
            | Ptr old => delete old (<[b := ap]> (heap w))
            end)).
Proof.
  intros Hwf Hload Hreg Hall Hcount.
  destruct (add_adapter_outcome P pLib f Hf pCtx e hA w l)
    as (pCtx' & w' & l' & Hrun & Hwf' & _); try done.
  exists pCtx', w'. split; [done|]. split; [done|].
  destruct (decide (fst (version_reply f hA w) = 0)) as [Hst|Hst].
  2:{ rewrite (add_adapter_version_failed P pLib f Hf pCtx e hA w) in Hrun by done.
      injection Hrun as <- <-. by left. }
  destruct (decide (WDDM_2_7 <= reported_version f hA w)) as [Hv|Hv].
  2:{ rewrite (add_adapter_below_minimum P pLib f Hf pCtx e hA w) in Hrun
        by (done || lia).
      injection Hrun as <- <-. by left. }
  assert (Hwf1 : wf_world (log_call w (version_call hA))) by done.
  destruct (driverstore_outcome P pLib f Hf hA _ NULL Hwf1)
    as (r & path & w2 & Hpath & _ & _ & Hheap).
  destruct Hheap as [[-> Hheap]|[-> (b & ap & -> & Hb & Hheap)]];
    simpl in Hheap; try simpl in Hb.
  { rewrite (add_adapter_path_failed P pLib f Hf pCtx e hA w (-1) path w2) in Hrun
      by done.
    injection Hrun as <- <-. by left. }
  destruct (next_outcome_cases (alloc_script w2)) as ([|] & s & Ha).
  - destruct (resolved_path_frame P pLib f Hf pCtx hA w l b w2 Hwf Hreg Hpath)
      as (ap' & Hfresh & Hheap' & Hlt & Hne & Hreg2).
    rewrite (add_adapter_appended P pLib f Hf pCtx e hA w b w2 l s) in Hrun by done.
    injection Hrun as <- <-. right.
    exists b, (next_block w2), ap, (sizeof_adapter * (adapterCount pCtx + 1)),
      (reported_version f hA w).
    split; [done|]. split; [done|].
    split; [apply wf_world_fresh_ge; [done|lia]|].
    split; [lia|]. split; [done|].
    simpl. rewrite Hheap. by destruct (adapterList pCtx).
  - destruct (add_adapter_not_grown P pLib f Hf pCtx e hA w l b w2 s)
      as (w3 & Hstep & Hback & _); try done.
    rewrite Hstep in Hrun. injection Hrun as <- <-. by left.
Qed.

End qualification_step.

(** ** What a session owns *)

Lemma elem_of_owned_blocks pCtx ts k :
  k ∈ owned_blocks pCtx ts <-> adapterList pCtx = Ptr k \/ k ∈ adm_path <$> ts.
Proof.
  unfold owned_blocks. rewrite elem_of_app.
  destruct (adapterList pCtx) as [|arr].
  - rewrite elem_of_nil. split; intros [H|H]; try done; by right.
  - rewrite list_elem_of_singleton. split; intros [H|H]; try (by right).
    + left. by subst.
    + left. by injection H as ->.
Qed.

Lemma owns_empty w : owns (heap w) w zero_context [].
Proof.
  split; try done.
  - constructor.
  - intros b Hb. by apply elem_of_nil in Hb.
Qed.

(** Ownership looks at the heap only. *)
Lemma owns_same_heap base w w' pCtx ts :
  owns base w pCtx ts -> heap w' = heap w -> owns base w' pCtx ts.
Proof.
  intros [Hreg Hv Hnd Hlive Hrest] Heq. split; try done.
  - eapply registry_frame; [exact Hreg|]. intros b a. by rewrite Heq.
  - intros b Hb. rewrite Heq. by apply Hlive.
  - intros k. rewrite Heq. apply Hrest.
Qed.

(** The flag [initialized] plays no part in it. *)
Lemma owns_initialized base w pCtx ts v :
  owns base w pCtx ts ->
  owns base w (mk_context (adapterCount pCtx) (adapterList pCtx) v) ts.
Proof. intros [Hreg Hv Hnd Hlive Hrest]. by split. Qed.

Lemma owns_appended base w w' pCtx ts hA b nb ap sz v i :
  owns base w pCtx ts ->
  WDDM_2_7 <= v ->
  heap w !! b = None -> heap w !! nb = None -> b <> nb ->
  heap w' =
    <[nb := mk_allocation sz
              (BAdapters ((entry <$> ts) ++ [entry (mk_admission hA b v)]))]>
      (match adapterList pCtx with
       | NULL => <[b := ap]> (heap w)
       | Ptr old => delete old (<[b := ap]> (heap w))
       end) ->
  owns base w' (mk_context (adapterCount pCtx + 1) (Ptr nb) i)
    (ts ++ [mk_admission hA b v]).
Proof.
  intros [Hreg Hv Hnd Hlive Hrest] Hver Hb Hnb Hne Hheap.
  pose proof (registry_length _ _ _ Hreg) as Hlen. rewrite length_fmap in Hlen.
  assert (Hpaths : forall k, k ∈ adm_path <$> ts -> is_Some (heap w !! k))
    by (intros k Hk; apply Hlive, elem_of_owned_blocks; by right).
  assert (Hold : forall old, adapterList pCtx = Ptr old ->
                   is_Some (heap w !! old) /\ old ∉ adm_path <$> ts).
  { intros old Hold. split.
    - apply Hlive, elem_of_owned_blocks. by left.
    - unfold owned_blocks in Hnd. rewrite Hold in Hnd. simpl in Hnd.
      by apply NoDup_cons in Hnd as [? _]. }
  assert (Hndp : NoDup (adm_path <$> ts)).
  { unfold owned_blocks in Hnd. by apply NoDup_app in Hnd as (_ & _ & ?). }
  assert (Hbp : b ∉ adm_path <$> ts)
    by (intros Hin; destruct (Hpaths b Hin); congruence).
  assert (Hnbp : nb ∉ adm_path <$> ts)
    by (intros Hin; destruct (Hpaths nb Hin); congruence).
  assert (Hlook : forall k, k <> nb ->
            heap w' !! k =
              if decide (adapterList pCtx = Ptr k) then None
              else if decide (k = b) then Some ap else heap w !! k).
  { intros k Hk. rewrite Hheap, lookup_insert_ne by done.
    destruct (adapterList pCtx) as [|old] eqn:El.
    - rewrite decide_False by done. rewrite lookup_insert.
      repeat case_decide; congruence.
    - rewrite lookup_delete, lookup_insert.
      repeat case_decide; congruence. }
  split.
  - unfold registry. simpl. rewrite Hheap, lookup_insert_eq, fmap_app. simpl.
    rewrite length_app, length_fmap. simpl.
    destruct (Z.eqb_spec (Z.of_nat (length ts + 1)) (adapterCount pCtx + 1));
      [done|lia].
  - apply Forall_app. split; [done|]. by apply Forall_singleton.
  - unfold owned_blocks. simpl. rewrite fmap_app. simpl.
    apply NoDup_cons. split.
    + rewrite elem_of_app, list_elem_of_singleton. intros [?|?]; congruence.
    + apply NoDup_app. split; [done|]. split; [|apply NoDup_singleton].
      intros k Hk Hk'. apply list_elem_of_singleton in Hk'. congruence.
  - intros k Hk. apply elem_of_owned_blocks in Hk. simpl in Hk.
    destruct Hk as [[= <-]|Hk].
    { rewrite Hheap, lookup_insert_eq. eauto. }
    rewrite fmap_app, elem_of_app in Hk. simpl in Hk.
    rewrite list_elem_of_singleton in Hk.
    assert (k <> nb) by (destruct Hk; congruence).
    rewrite Hlook by done.
    rewrite decide_False
      by (intros Hl; destruct (Hold k Hl) as [[a Ha] Hnot];
          destruct Hk as [?| ->]; [done|congruence]).
    case_decide; [eauto|]. destruct Hk; [by apply Hpaths|done].
  - intros k. rewrite Hrest.
    assert (Hnew : k ∈ owned_blocks (mk_context (adapterCount pCtx + 1) (Ptr nb) i)
                       (ts ++ [mk_admission hA b v])
                   <-> k = nb \/ k ∈ adm_path <$> ts \/ k = b).
    { rewrite elem_of_owned_blocks, fmap_app, elem_of_app. simpl.
      rewrite list_elem_of_singleton.
      split; [intros [[= ->]|?]; auto|intros [->|?]; auto]. }
    pose proof (elem_of_owned_blocks pCtx ts k) as Hmem.
    case_decide as Ho; case_decide as Hn; rewrite ?Hmem in Ho; rewrite ?Hnew in Hn.
    + done.
    + assert (k <> nb) by (intros ->; apply Hn; by left).
      destruct Ho as [Hl|?]; [|destruct Hn; auto].
      rewrite Hlook by done. by rewrite decide_True.
    + destruct Hn as [->|[?| ->]]; [done| |done]. destruct Ho. by right.
    + assert (k <> nb) by (intros ->; apply Hn; by left).
      rewrite Hlook by done.
      rewrite decide_False by (intros ?; apply Ho; by left).
      rewrite decide_False by (intros ->; apply Hn; auto). done.
Qed.

Lemma owns_version_admitted base w pCtx ts :
  owns base w pCtx ts -> Forall version_admitted (entry <$> ts).
Proof.
  intros [_ Hv _ _ _]. apply Forall_fmap. eapply Forall_impl; [exact Hv|].
  intros t Ht. by exists (adm_version t).
Qed.

(** A block of the rest of the heap is there, untouched, in every world in
    which the session owns its blocks. *)
Lemma owns_rest_live base w pCtx ts k a :
  owns base w pCtx ts -> base !! k = Some a ->
  heap w !! k = Some a /\ k ∉ owned_blocks pCtx ts.
Proof.
  intros [_ _ _ _ Hrest] Hk. rewrite Hrest in Hk. by case_decide.
Qed.

Lemma owns_insert_fresh base w w' pCtx ts k a :
  owns base w pCtx ts ->
  heap w !! k = None ->
  heap w' = <[k := a]> (heap w) ->
  owns (<[k := a]> base) w' pCtx ts.
Proof.
  intros [Hreg Hv Hnd Hlive Hrest] Hk Heq.
  assert (Hnot : k ∉ owned_blocks pCtx ts)
    by (intros Hin; destruct (Hlive k Hin); congruence).
  split; try done.
  - eapply registry_frame; [exact Hreg|]. intros b' a' Hb'.
    rewrite Heq, lookup_insert_ne; [done|congruence].
  - intros b Hb. rewrite Heq, lookup_insert_ne by congruence. by apply Hlive.
  - intros k'. rewrite Heq, !lookup_insert. case_decide; [subst|apply Hrest].
    by rewrite decide_False.
Qed.

Lemma owns_delete_rest base w w' pCtx ts k a :
  owns base w pCtx ts ->
  base !! k = Some a ->
  heap w' = delete k (heap w) ->
  owns (delete k base) w' pCtx ts.
Proof.
  intros Howns Hk Heq.
  destruct (owns_rest_live _ _ _ _ _ _ Howns Hk) as [Hlive' Hnot].
  destruct Howns as [Hreg Hv Hnd Hlive Hrest].
  split; try done.
  - unfold registry in *. destruct (adapterList pCtx) as [|arr] eqn:El; [done|].
    rewrite Heq, lookup_delete_ne; [done|].
    intros <-. apply Hnot, elem_of_owned_blocks. by left.
  - intros b Hb. rewrite Heq, lookup_delete_ne by congruence. by apply Hlive.
  - intros k'. rewrite Heq, !lookup_delete. case_decide; [subst|apply Hrest].
    by case_decide.
Qed.

(** ** The loop over the candidates *)

Lemma load_ai_hAdapter_handle b i w hA w' sz buf :
  load_ai_hAdapter (Ptr b, i) w = Some (hA, w') ->
  heap w !! b = Some (mk_allocation sz (BAdapterInfos buf)) ->
  is_Some (candidate_handle buf i) ->
  candidate_handle buf i = Some hA.
Proof.
  unfold load_ai_hAdapter, bind, load, candidate_handle. simpl.
  intros H Hb Hwritten. rewrite Hb in H. simpl in H.
  destruct (i <? 0); [done|].
  destruct (buf !! Z.to_nat i) as [[ai|]|]; try by destruct Hwritten.
  unfold ret in H. by injection H as <- _.
Qed.

Section candidate_loop.

Variable P : platform.
Variable pLib : dxcore_lib.
Variable f : pfnDxcoreQueryAdapterInfo.
Hypothesis Hf : pDxcoreQueryAdapterInfo pLib = Some f.
Variable base : gmap positive allocation.
Variable p : ptr.

(** [handle_of i] is the handle that the library wrote to candidate [i], and
    [kept] says that it wrote every candidate of the loop. *)
Variable handle_of : Z -> option Z.
Variable kept : Prop.

(** When the loop returns, the session holds what it held and one adapter
    for some of the candidates of the loop, in their order; it owns their
    blocks and the rest of the heap is as it was.  If the library wrote
    every candidate, the handles of the adapters are handles it wrote. *)
Lemma enum_loop_owns (idxs : list Z) : forall pCtx w ts pCtx' w',
  (kept -> forall w0 pCtx0 ts0 i hA,
     i ∈ idxs ->
     owns base w0 pCtx0 ts0 ->
     load_ai_hAdapter (p, i) w0 = Some (hA, w0) ->
     handle_of i = Some hA) ->
  wf_world w ->
  owns base w pCtx ts ->
  adapterCount pCtx + Z.of_nat (length idxs) < 2 ^ 32 ->
  for_each (fun pCtx i => dxcore_add_adapter P pCtx pLib (p, i)) idxs pCtx w
    = Some (pCtx', w') ->
  exists ts',
    owns base w' pCtx' (ts ++ ts') /\
    (kept -> adm_handle <$> ts' `sublist_of` omap handle_of idxs).
Proof.
  induction idxs as [|i idxs IH];
    intros pCtx w ts pCtx' w' Hhandle Hwf Howns Hcount Hrun.
  - injection Hrun as <- <-. exists []. rewrite app_nil_r. split; [done|].
    intros _. constructor.
  - cbn [for_each] in Hrun. apply bind_Some in Hrun as (pCtx1 & w1 & Hstep & Hrun).
    destruct (add_adapter_Some_load _ _ _ _ _ _ Hstep) as [hA Hload].
    cbn [length] in Hcount.
    assert (Hh : kept -> handle_of i = Some hA).
    { intros Hk. eapply (Hhandle Hk); [by left|exact Howns|exact Hload]. }
    assert (Hhandle' : kept -> forall w0 pCtx0 ts0 j hB,
              j ∈ idxs ->
              owns base w0 pCtx0 ts0 ->
              load_ai_hAdapter (p, j) w0 = Some (hB, w0) ->
              handle_of j = Some hB).
    { intros Hk w0 pCtx0 ts0 j hB Hj. apply (Hhandle Hk). by right. }
    destruct (add_adapter_step P pLib f Hf pCtx (p, i) hA w (entry <$> ts))
      as (pCtx1' & w1' & Hstep' & Hwf1 & Hcases);
      [done | done | apply Howns | by eapply owns_version_admitted | lia |].
    rewrite Hstep in Hstep'. injection Hstep' as <- <-.
    destruct Hcases as [[-> Hheap]|(b & nb & ap & sz & v & Hv & Hb & Hnb & Hne & -> & Hheap)].
    + destruct (IH pCtx w1 ts pCtx' w' Hhandle' Hwf1) as (ts' & Howns' & Hsub);
        [by eapply owns_same_heap | lia | done |].
      exists ts'. split; [done|]. intros Hk.
      cbn [omap list_omap]. rewrite (Hh Hk). apply sublist_cons. by apply Hsub.
    + destruct (IH (mk_context (adapterCount pCtx + 1) (Ptr nb) (initialized pCtx))
                  w1 (ts ++ [mk_admission hA b v]) pCtx' w' Hhandle' Hwf1)
        as (ts' & Howns' & Hsub);
        [by eapply owns_appended | simpl; lia | done |].
      exists (mk_admission hA b v :: ts'). rewrite <- app_assoc in Howns'.
      split; [done|]. intros Hk.
      cbn [omap list_omap]. rewrite (Hh Hk). simpl. apply sublist_skip.
      by apply Hsub.
Qed.

End candidate_loop.

(** The handles that the loop can read from the candidate buffer after the
    fill call are handles of the records the library wrote, in their
    order. *)
Lemma candidate_handle_written (written : list dxcore_adapterInfo) (n j : nat) :
  candidate_handle (overlay (Some <$> written) (replicate n None)) (Z.of_nat j)
  = ai_hAdapter <$> take n written !! j.
Proof.
  unfold candidate_handle. destruct (Z.ltb_spec (Z.of_nat j) 0); [lia|].
  rewrite Nat2Z.id.
  destruct (decide (j < n)%nat) as [Hn|Hn].
  - rewrite lookup_take_lt by done.
    destruct (decide (j < length written)%nat) as [Hw|Hw].
    + rewrite lookup_overlay_lt
        by (rewrite ?length_fmap, ?length_replicate; lia).
      rewrite list_lookup_fmap. by destruct (written !! j).
    + rewrite lookup_overlay_ge by (rewrite length_fmap; lia).
      rewrite lookup_replicate_2 by done.
      by rewrite (lookup_ge_None_2 written) by lia.
  - rewrite lookup_take_ge by lia.
    rewrite (lookup_ge_None_2 (overlay _ _))
      by (rewrite length_overlay, length_replicate; lia).
    done.
Qed.

Lemma candidate_handles_written (written : list dxcore_adapterInfo) (n : nat) (m : Z) :
  omap (candidate_handle (overlay (Some <$> written) (replicate n None))) (seqZ 0 m)
  `sublist_of` (ai_hAdapter <$> written).
Proof.
  assert (Hnat : forall k : nat,
            omap (candidate_handle (overlay (Some <$> written) (replicate n None)))
              (seqZ 0 (Z.of_nat k))
            = ai_hAdapter <$> take k (take n written)).
  { induction k as [|k IH]; [done|].
    rewrite seqZ_S, omap_app, IH. cbn [omap list_omap]. rewrite Z.add_0_l.
    rewrite candidate_handle_written.
    destruct (take n written !! k) as [ai|] eqn:Hk.
    - rewrite (take_S_r _ _ ai) by done. by rewrite fmap_app.
    - simpl. rewrite app_nil_r.
      apply lookup_ge_None in Hk.
      by rewrite (take_ge (take n written) k), (take_ge (take n written) (S k))
        by lia. }
  destruct (decide (m <= 0)) as [Hm|Hm]; [rewrite seqZ_nil by done; apply sublist_nil_l|].
  rewrite <- (Z2Nat.id m) by lia. rewrite Hnat.
  apply fmap_sublist. etransitivity; apply sublist_take.
Qed.

(** ** The enumeration *)

Lemma candidate_handle_counted (written : list dxcore_adapterInfo) (n : nat) (i : Z) :
  0 <= i ->
  (Z.to_nat i < length written)%nat ->
  (Z.to_nat i < n)%nat ->
  is_Some (candidate_handle (overlay (Some <$> written) (replicate n None)) i).
Proof.
  intros Hi Hw Hn. rewrite <- (Z2Nat.id i) by lia.
  rewrite candidate_handle_written.
  destruct (lookup_lt_is_Some_2 written (Z.to_nat i)) as [ai Hai]; [lia|].
  rewrite lookup_take_lt by lia. rewrite Hai. by eexists.
Qed.

Section enumeration_owns.

Variable P : platform.
Variable pLib : dxcore_lib.
Variable f : pfnDxcoreQueryAdapterInfo.
Hypothesis Hf : pDxcoreQueryAdapterInfo pLib = Some f.
Variable g : pfnDxcoreEnumAdapters2.
Hypothesis Hg : pDxcoreEnumAdapters2 pLib = Some g.

(** When the enumeration returns, the candidate buffer and every buffer of
    the queries have been released: the session owns the adapter array and
    one path for each adapter, and the rest of the heap is as it was.  If
    the fill call kept to its contract, the adapters are, in their order,
    among the records that it wrote. *)
Lemma enum_adapters_owns base pCtx w ts pCtx' w' :
  wf_world w ->
  owns base w pCtx ts ->
  adapterCount pCtx = 0 ->
  dxcore_enum_adapters P pCtx pLib w = Some (pCtx', w') ->
  exists ts',
    owns base w' pCtx' (ts ++ ts') /\
    (fill_contract g w (candidate_buffer w) ->
     adm_handle <$> ts' `sublist_of`
       (ai_hAdapter <$> reply_adapters (enum_fill_reply g w (candidate_buffer w)))).
Proof.
  intros Hwf Howns Hzero Hrun.
  pose proof (wf_world_fresh w Hwf) as Hfresh.
  assert (Hbound : forall q,
            adapterCount pCtx + Z.of_nat (length (seqZ 0 (filled_count g w q))) < 2 ^ 32).
  { intros q. rewrite length_seqZ, Hzero.
    pose proof (wrap32_range (reply_NumAdapters (enum_fill_reply g w q))).
    unfold filled_count. lia. }
  assert (Hnone : exists ts', owns base w pCtx (ts ++ ts') /\
            (fill_contract g w (candidate_buffer w) ->
             adm_handle <$> ts' `sublist_of`
               (ai_hAdapter <$>
                  reply_adapters (enum_fill_reply g w (candidate_buffer w)))))
    by (exists []; rewrite app_nil_r; split; [done|intros _; apply sublist_nil_l]).
  destruct (decide (reply_status (enum_probe_reply g w) = 0)) as [Hst|Hst].
  2:{ rewrite (enum_adapters_probe_failed P pLib g Hg) in Hrun by done.
      injection Hrun as <- <-. destruct Hnone as (ts' & Ho & Hs).
      exists ts'. split; [by eapply owns_same_heap|done]. }
  unfold candidate_buffer in *.
  destruct (next_outcome_cases (alloc_script w)) as ([|] & s & Ha);
    rewrite Ha in *; cbn [fst] in *.
  - rewrite (enum_adapters_buffer_granted P pLib g Hg _ _ s) in Hrun by done.
    set (bufa := mk_allocation (sizeof_adapterInfo * candidate_count g w)
                   (BAdapterInfos
                      (overlay
                         (Some <$> reply_adapters
                                     (enum_fill_reply g w (Ptr (next_block w))))
                         (replicate (Z.to_nat (candidate_count g w)) None)))).
    assert (Hbase : base !! next_block w = None).
    { destruct Howns as [_ _ _ _ Hrest]. rewrite Hrest. by case_decide. }
    assert (Howns2 : owns (<[next_block w := bufa]> base)
                       (world_with_buffer g w s) pCtx ts)
      by (eapply owns_insert_fresh; done).
    assert (Hwf2 : wf_world (world_with_buffer g w s)).
    { eapply wf_world_heap; [exact Hwf| |simpl; lia].
      simpl. intros b Hb. rewrite lookup_insert in Hb.
      case_decide; [subst; right; lia|by left]. }
    destruct (Z.eqb_spec (reply_status (enum_fill_reply g w (Ptr (next_block w)))) 0)
      as [Hst2|_]; cbn [negb] in Hrun.
    + destruct (for_each _ _ _ _) as [[pCtx3 w3]|] eqn:Hloop; [|done].
      destruct (free _ w3) as [[[] w4]|] eqn:Hfree; [|done].
      injection Hrun as <- <-.
      assert (Hhandle : fill_contract g w (Ptr (next_block w)) ->
                forall w0 pCtx0 ts0 i hA,
                i ∈ seqZ 0 (filled_count g w (Ptr (next_block w))) ->
                owns (<[next_block w := bufa]> base) w0 pCtx0 ts0 ->
                load_ai_hAdapter (Ptr (next_block w), i) w0 = Some (hA, w0) ->
                candidate_handle
                  (overlay
                     (Some <$> reply_adapters
                                 (enum_fill_reply g w (Ptr (next_block w))))
                     (replicate (Z.to_nat (candidate_count g w)) None)) i
                = Some hA).
      { intros Hk w0 pCtx0 ts0 i hA Hi Ho Hload.
        destruct (Hk Hst2) as [Hwritten Hcap]. apply elem_of_seqZ in Hi.
        pose proof (wrap32_range (reply_NumAdapters (enum_probe_reply g w))) as Hcc.
        fold (candidate_count g w) in Hcc.
        eapply load_ai_hAdapter_handle; [exact Hload| |].
        - eapply owns_rest_live; [exact Ho|]. apply lookup_insert_eq.
        - apply candidate_handle_counted; lia. }
      destruct (enum_loop_owns P pLib f Hf _ _ _ _ _ _ _ _ _ _ Hhandle
                  Hwf2 Howns2 (Hbound _) Hloop) as (ts' & Howns3 & Hsub).
      exists ts'. split.
      * destruct (owns_rest_live _ _ _ _ _ _ Howns3
                    (lookup_insert_eq base (next_block w) bufa)) as [Hlive _].
        erewrite free_live in Hfree by done. injection Hfree as <-.
        rewrite <- (delete_insert_id base (next_block w) bufa) by done.
        eapply owns_delete_rest; [exact Howns3| |done]. apply lookup_insert_eq.
      * intros Hk. etransitivity; [exact (Hsub Hk)|]. apply candidate_handles_written.
    + injection Hrun as <- <-. destruct Hnone as (ts' & Ho & Hs).
      exists ts'. split; [|done]. eapply owns_same_heap; [exact Ho|].
      simpl. by rewrite delete_insert_id.
  - rewrite (enum_adapters_buffer_refused P pLib g Hg _ _ s) in Hrun by done.
    destruct (negb _).
    + injection Hrun as <- <-. destruct Hnone as (ts' & Ho & Hs).
      exists ts'. split; [by eapply owns_same_heap|done].
    + assert (Hhandle : True ->
                forall w0 pCtx0 ts0 i hA,
                i ∈ seqZ 0 (filled_count g w NULL) ->
                owns base w0 pCtx0 ts0 ->
                load_ai_hAdapter (NULL, i) w0 = Some (hA, w0) ->
                (fun _ : Z => @None Z) i = Some hA) by done.
      assert (Howns2 : owns base (world_without_buffer g w s) pCtx ts)
        by (by eapply owns_same_heap).
      assert (Hwf2 : wf_world (world_without_buffer g w s)) by done.
      destruct (enum_loop_owns P pLib f Hf _ _ _ _ _ _ _ _ _ _ Hhandle
                  Hwf2 Howns2 (Hbound _) Hrun) as (ts' & Howns3 & Hsub).
      exists ts'. split; [done|]. intros _.
      assert (omap (fun _ : Z => @None Z) (seqZ 0 (filled_count g w NULL)) = [])
        as Hempty by (induction (seqZ 0 (filled_count g w NULL)); done).
      specialize (Hsub I).
      rewrite Hempty in Hsub. apply sublist_nil_r in Hsub. rewrite Hsub.
      apply sublist_nil_l.
Qed.

End enumeration_owns.

(** ** Initialisation, then teardown *)

(** Whenever initialisation returns, the session owns exactly what it added
    to the heap, the library is unloaded, and the return value tells whether
    the resolver failed or not. *)
Lemma init_context_owns P pCtx w r pCtx' w' :
  wf_world w ->
  dxcore_init_context P pCtx w = Some ((r, pCtx'), w') ->
  exists ts,
    owns (heap w) w' pCtx' ts /\
    dl_handles w' = dl_handles w /\
    ((resolver_fails P /\ r = -1 /\ pCtx' = zero_context /\ w' = w) \/
     (exists g f,
        resolves P g f /\ r = 0 /\ initialized pCtx' = 1 /\
        (fill_contract g w (candidate_buffer w) ->
         adm_handle <$> ts `sublist_of`
           (ai_hAdapter <$>
              reply_adapters (enum_fill_reply g w (candidate_buffer w)))))).
Proof.
  intros Hwf Hrun.
  assert (Hfatal : resolver_fails P ->
            exists ts,
              owns (heap w) w' pCtx' ts /\
              dl_handles w' = dl_handles w /\
              ((resolver_fails P /\ r = -1 /\ pCtx' = zero_context /\ w' = w) \/
               (exists g f,
                  resolves P g f /\ r = 0 /\ initialized pCtx' = 1 /\
                  (fill_contract g w (candidate_buffer w) ->
                   adm_handle <$> ts `sublist_of`
                     (ai_hAdapter <$>
                        reply_adapters
                          (enum_fill_reply g w (candidate_buffer w))))))).
  { intros Hfail. rewrite init_context_fatal in Hrun by done.
    injection Hrun as <- <- <-. exists []. split; [apply owns_empty|].
    split; [done|]. by left. }
  destruct (libdxcore_so P) as [img|] eqn:Himg;
    [|apply Hfatal; unfold resolver_fails; by rewrite Himg].
  destruct (D3DKMTEnumAdapters2 img) as [g|] eqn:Hg;
    [|apply Hfatal; unfold resolver_fails; rewrite Himg; by left].
  destruct (D3DKMTQueryAdapterInfo img) as [f|] eqn:Hq;
    [|apply Hfatal; unfold resolver_fails; rewrite Himg; by right].
  clear Hfatal.
  assert (Hres : resolves P g f) by (by exists img).
  destruct (init_context_resolved P g f pCtx w Hres) as (lib & Hlg & Hlf & Heq).
  rewrite Heq in Hrun.
  destruct (dxcore_enum_adapters _ _ _ _) as [[pCtx1 w1]|] eqn:Henum; [|done].
  destruct (enum_adapters_inv P lib f Hlf g Hlg zero_context
              (set_dl_handles w (S (dl_handles w))) [] pCtx1 w1)
    as (_ & _ & Hdl & _); try done.
  destruct (enum_adapters_owns P lib f Hlf g Hlg (heap w) zero_context
              (set_dl_handles w (S (dl_handles w))) [] pCtx1 w1)
    as (ts & Howns & Hsub); try done.
  { apply (owns_empty (set_dl_handles w (S (dl_handles w)))). }
  rewrite Hdl in Hrun. simpl in Hrun. injection Hrun as <- <- <-.
  exists ts. split.
  { apply owns_initialized. by eapply owns_same_heap. }
  split; [done|]. right. exists g, f. do 3 (split; [done|]). exact Hsub.
Qed.

(** The loop of the teardown over an array that is in place: the paths are
    released one after the other. *)
Lemma deinit_loop_owned arr sz (w : world) (ts : list admission) :
  heap w !! arr = Some (mk_allocation sz (BAdapters (entry <$> ts))) ->
  NoDup (arr :: (adm_path <$> ts)) ->
  (forall b, b ∈ adm_path <$> ts -> is_Some (heap w !! b)) ->
  forall (rest done : list admission) (h : gmap positive allocation),
    ts = done ++ rest ->
    (forall k, h !! k = if decide (k ∈ adm_path <$> done) then None
                        else heap w !! k) ->
    exists h',
      for_each (fun _ i => dxcore_deinit_adapter (Ptr arr, i))
        (seqZ (Z.of_nat (length done)) (Z.of_nat (length rest))) tt (set_heap w h)
      = Some (tt, set_heap w h') /\
      (forall k, h' !! k = if decide (k ∈ adm_path <$> ts) then None
                           else heap w !! k).
Proof.
  intros Harr Hnd Hlive.
  apply NoDup_cons in Hnd as [Harrp Hnd].
  induction rest as [|t rest IH]; intros done h Hts Hh.
  - exists h. split; [done|]. rewrite app_nil_r in Hts. by subst.
  - rewrite seqZ_cons by (simpl; lia).
    replace (Z.succ (Z.of_nat (length done))) with (Z.of_nat (length (done ++ [t])))
      by (rewrite length_app; simpl; lia).
    replace (Z.pred (Z.of_nat (length (t :: rest)))) with (Z.of_nat (length rest))
      by (simpl; lia).
    assert (Hin : adm_path t ∈ adm_path <$> ts)
      by (subst ts; rewrite fmap_app, elem_of_app; right; simpl; left).
    assert (Hnot : adm_path t ∉ adm_path <$> done).
    { subst ts. rewrite fmap_app in Hnd. apply NoDup_app in Hnd as (_ & Hd & _).
      intros Hd'. apply (Hd _ Hd'). simpl. left. }
    assert (Harr' : h !! arr = Some (mk_allocation sz (BAdapters (entry <$> ts)))).
    { rewrite Hh, decide_False; [done|].
      intros Hd. apply Harrp. subst ts. rewrite fmap_app, elem_of_app. by left. }
    assert (Hpath : is_Some (h !! adm_path t)).
    { rewrite Hh, decide_False by done. by apply Hlive. }
    destruct Hpath as [ap Hpath].
    destruct (IH (done ++ [t]) (delete (adm_path t) h)) as (h' & Hrun & Hh').
    { by rewrite <- app_assoc. }
    { intros k. rewrite lookup_delete, Hh.
      assert (Hmem : k ∈ adm_path <$> (done ++ [t])
                     <-> k ∈ adm_path <$> done \/ k = adm_path t).
      { rewrite fmap_app, elem_of_app. simpl. by rewrite list_elem_of_singleton. }
      destruct (decide (k ∈ adm_path <$> (done ++ [t]))) as [Hn|Hn];
        rewrite Hmem in Hn.
      - destruct Hn as [Hn| ->]; [|by rewrite decide_True].
        case_decide; [done|]. by rewrite decide_True.
      - rewrite decide_False by (intros <-; apply Hn; by right).
        by rewrite decide_False by (intros ?; apply Hn; by left). }
    exists h'. split; [|done].
    cbn [for_each]. unfold bind at 1.
    assert (Hstep : dxcore_deinit_adapter (Ptr arr, Z.of_nat (length done))
                      (set_heap w h)
                    = Some (tt, set_heap w (delete (adm_path t) h))).
    { unfold dxcore_deinit_adapter. cbn [fst snd is_null andb]. unfold bind.
      erewrite load_live by (simpl; exact Harr'). cbn [content].
      rewrite Nat2Z.id. subst ts.
      rewrite fmap_app, fmap_cons, list_lookup_middle by (by rewrite length_fmap).
      cbn [entry fill_adapter pDriverStorePath].
      erewrite free_live by (simpl; exact Hpath). done. }
    rewrite Hstep. exact Hrun.
Qed.

(** One teardown of a session that owns its blocks is defined; it releases
    each of them once and leaves nothing of the session in the heap. *)
Lemma deinit_context_owned base w pCtx ts :
  owns base w pCtx ts ->
  deinit_context_body pCtx w =
    Some (mk_context (adapterCount pCtx) (adapterList pCtx) 0, set_heap w base).
Proof.
  intros Howns. pose proof Howns as [Hreg Hv Hnd Hlive Hrest].
  pose proof (registry_length _ _ _ Hreg) as Hlen. rewrite length_fmap in Hlen.
  unfold deinit_context_body, bind.
  destruct (adapterList pCtx) as [|arr] eqn:El.
  - assert (ts = []) as ->.
    { unfold registry in Hreg. rewrite El in Hreg.
      destruct (adapterCount pCtx =? 0); [|done]. injection Hreg as Hl.
      symmetry in Hl. by apply fmap_nil_inv in Hl. }
    simpl in Hlen. rewrite <- Hlen. simpl.
    assert (base = heap w) as ->.
    { apply map_eq. intros k. rewrite Hrest. case_decide as Hk; [|done].
      apply elem_of_owned_blocks in Hk as [Hk|Hk]; [congruence|].
      by apply elem_of_nil in Hk. }
    by destruct w.
  - destruct (registry_wf_block _ _ _ _ Hreg El) as (sz & Harr & _).
    unfold owned_blocks in Hnd, Hlive, Hrest. rewrite El in Hnd, Hlive, Hrest.
    simpl in Hnd, Hlive, Hrest.
    assert (Hpaths : forall b, b ∈ adm_path <$> ts -> is_Some (heap w !! b))
      by (intros b Hb; apply Hlive; by right).
    destruct (deinit_loop_owned arr sz w ts Harr Hnd Hpaths ts [] (heap w))
      as (h' & Hloop & Hh'); [done| |].
    { intros k. case_decide as Hk; [|done]. by apply elem_of_nil in Hk. }
    change (Z.of_nat (length (@nil admission))) with 0 in Hloop. rewrite <- Hlen.
    replace (set_heap w (heap w)) with w in Hloop by (by destruct w).
    rewrite Hloop.
    assert (Harr' : h' !! arr = Some (mk_allocation sz (BAdapters (entry <$> ts)))).
    { rewrite Hh', decide_False; [done|]. by apply NoDup_cons in Hnd as [? _]. }
    erewrite free_live by (simpl; exact Harr'). unfold ret. simpl.
    do 2 f_equal. unfold set_heap. simpl. f_equal.
    apply map_eq. intros k. rewrite lookup_delete, Hrest, Hh'.
    destruct (decide (k ∈ arr :: (adm_path <$> ts))) as [Hn|Hn];
      rewrite elem_of_cons in Hn.
    + destruct Hn as [->|Hn]; [by rewrite decide_True|].
      case_decide; [done|]. by rewrite decide_True.
    + rewrite decide_False by (intros <-; apply Hn; by left).
      by rewrite decide_False by (intros ?; apply Hn; by right).
Qed.

(** X1.  Initialisation and one teardown leak nothing.  Whenever
    [dxcore_init_context] returns, with success or with failure, a teardown
    of the session is defined, releases every block the session holds once,
    and leaves the heap exactly as it was before the initialisation; it
    stores [initialized = 0] and touches nothing else. *)
Theorem init_then_deinit_restores_heap P pCtx w r pCtx1 w1 :
  wf_world w ->
  dxcore_init_context P pCtx w = Some ((r, pCtx1), w1) ->
  dxcore_deinit_context (Some pCtx1) w1
  = Some (Some (mk_context (adapterCount pCtx1) (adapterList pCtx1) 0),
          set_heap w1 (heap w)).
Proof.
  intros Hwf Hrun.
  destruct (init_context_owns P pCtx w r pCtx1 w1 Hwf Hrun) as (ts & Howns & _).
  unfold dxcore_deinit_context, bind.
  by rewrite (deinit_context_owned _ _ _ _ Howns).
Qed.

Lemma init_then_deinit_restores_heap_witness :
  exists pCtx1 w1,
    dxcore_init_context
      (sample_platform [sample_adapter (mk_luid 1 0); sample_adapter (mk_luid 2 0)]
         WDDM_2_7 sample_path)
      zero_context (boot []) = Some ((0, pCtx1), w1) /\
    adapterCount pCtx1 = 2 /\
    dxcore_deinit_context (Some pCtx1) w1
    = Some (Some (mk_context (adapterCount pCtx1) (adapterList pCtx1) 0),
            set_heap w1 (heap (boot []))).
Proof.
  eexists _, _.
  assert (Hrun : dxcore_init_context
            (sample_platform
               [sample_adapter (mk_luid 1 0); sample_adapter (mk_luid 2 0)]
               WDDM_2_7 sample_path)
            zero_context (boot [])
          = Some ((0, _), _)) by (vm_compute; reflexivity).
  split; [exact Hrun|]. split; [reflexivity|].
  exact (init_then_deinit_restores_heap _ _ _ _ _ _ (wf_world_boot []) Hrun).
Defined.

(** X2.  The driver-store path of an adapter in the registry is never null.
    Whenever [dxcore_init_context] returns, the registry has [adapterCount]
    elements, and each of them has its handle, its version and its path
    stored; the path points to a live allocation that did not exist before
    the call, no two adapters share a path, and no path is the adapter
    array. *)
Theorem init_context_paths_owned P pCtx w r pCtx' w' :
  wf_world w ->
  dxcore_init_context P pCtx w = Some ((r, pCtx'), w') ->
  exists l,
    registry w' pCtx' = Some l /\
    Z.of_nat (length l) = adapterCount pCtx' /\
    Forall (fun a => exists h v b,
              hAdapter a = Some h /\ wddmVersion a = Some v /\
              pDriverStorePath a = Some (Ptr b) /\
              is_Some (heap w' !! b) /\ heap w !! b = None /\
              Ptr b <> adapterList pCtx') l /\
    NoDup (pDriverStorePath <$> l).
Proof.
  intros Hwf Hrun.
  destruct (init_context_owns P pCtx w r pCtx' w' Hwf Hrun) as (ts & Howns & _).
  pose proof Howns as [Hreg Hv Hnd Hlive Hrest].
  exists (entry <$> ts). split; [done|].
  split; [by eapply registry_length|]. split.
  - apply Forall_fmap, Forall_forall. intros t Ht.
    exists (adm_handle t), (adm_version t), (adm_path t).
    assert (Hin : adm_path t ∈ owned_blocks pCtx' ts)
      by (apply elem_of_owned_blocks; right; by apply list_elem_of_fmap_2).
    repeat split; try done.
    + by apply Hlive.
    + rewrite Hrest. by rewrite decide_True.
    + intros Heq. unfold owned_blocks in Hnd. rewrite <- Heq in Hnd. simpl in Hnd.
      apply NoDup_cons in Hnd as [Hnot _]. apply Hnot.
      by apply list_elem_of_fmap_2.
  - rewrite <- list_fmap_compose.
    unfold owned_blocks in Hnd. apply NoDup_app in Hnd as (_ & _ & Hnd).
    assert (Hinj : Inj eq eq (fun b : positive => Some (Ptr b)))
      by (by intros b1 b2 [= ->]).
    apply (NoDup_fmap_2 (fun b => Some (Ptr b))) in Hnd.
    by rewrite <- list_fmap_compose in Hnd.
Qed.

Lemma init_context_paths_owned_witness :
  exists pCtx' w' l,
    dxcore_init_context
      (sample_platform [sample_adapter (mk_luid 1 0); sample_adapter (mk_luid 2 0)]
         WDDM_2_7 sample_path)
      zero_context (boot []) = Some ((0, pCtx'), w') /\
    registry w' pCtx' = Some l /\
    Z.of_nat (length l) = adapterCount pCtx' /\
    Forall (fun a => exists h v b,
              hAdapter a = Some h /\ wddmVersion a = Some v /\
              pDriverStorePath a = Some (Ptr b) /\
              is_Some (heap w' !! b) /\ heap (boot []) !! b = None /\
              Ptr b <> adapterList pCtx') l /\
    NoDup (pDriverStorePath <$> l).
Proof.
  eexists _, _.
  assert (Hrun : dxcore_init_context
            (sample_platform
               [sample_adapter (mk_luid 1 0); sample_adapter (mk_luid 2 0)]
               WDDM_2_7 sample_path)
            zero_context (boot [])
          = Some ((0, _), _)) by (vm_compute; reflexivity).
  destruct (init_context_paths_owned _ _ _ _ _ _ (wf_world_boot []) Hrun)
    as (l & H).
  exists l. split; [exact Hrun|exact H].
Defined.

(** X3.  Initialisation touches no allocation that existed before it, and
    leaves none of its buffers behind.  Whenever [dxcore_init_context]
    returns, every block of the heap before the call is there with its
    contents, and every block that is new belongs to the session: it is the
    adapter array or the path of an adapter.  The candidate buffer and the
    buffers of the queries have been released. *)
Theorem init_context_heap_footprint P pCtx w r pCtx' w' :
  wf_world w ->
  dxcore_init_context P pCtx w = Some ((r, pCtx'), w') ->
  exists l,
    registry w' pCtx' = Some l /\
    (forall b a, heap w !! b = Some a -> heap w' !! b = Some a) /\
    (forall b, is_Some (heap w' !! b) -> heap w !! b = None ->
               adapterList pCtx' = Ptr b \/ Some (Ptr b) ∈ pDriverStorePath <$> l).
Proof.
  intros Hwf Hrun.
  destruct (init_context_owns P pCtx w r pCtx' w' Hwf Hrun) as (ts & Howns & _).
  pose proof Howns as [Hreg Hv Hnd Hlive Hrest].
  exists (entry <$> ts). split; [done|]. split.
  - intros b a Hb. by eapply owns_rest_live.
  - intros b [a Hb] Hnew. rewrite Hrest in Hnew.
    case_decide as Hin; [|congruence].
    apply elem_of_owned_blocks in Hin as [?|Hin]; [by left|right].
    apply list_elem_of_fmap in Hin as (t & -> & Ht).
    apply list_elem_of_fmap. exists (entry t). split; [done|].
    by apply list_elem_of_fmap_2.
Qed.

Lemma init_context_heap_footprint_witness :
  exists pCtx' w' l,
    dxcore_init_context
      (sample_platform [sample_adapter (mk_luid 1 0)] WDDM_2_7 sample_path)
      (mk_context 1 (Ptr 1) 1) (candidates_world [sample_adapter (mk_luid 9 9)] [])
    = Some ((0, pCtx'), w') /\
    registry w' pCtx' = Some l /\
    (forall b a,
       heap (candidates_world [sample_adapter (mk_luid 9 9)] []) !! b = Some a ->
       heap w' !! b = Some a) /\
    (forall b, is_Some (heap w' !! b) ->
               heap (candidates_world [sample_adapter (mk_luid 9 9)] []) !! b = None ->
               adapterList pCtx' = Ptr b \/ Some (Ptr b) ∈ pDriverStorePath <$> l).
Proof.
  eexists _, _.
  assert (Hrun : dxcore_init_context
            (sample_platform [sample_adapter (mk_luid 1 0)] WDDM_2_7 sample_path)
            (mk_context 1 (Ptr 1) 1)
            (candidates_world [sample_adapter (mk_luid 9 9)] [])
          = Some ((0, _), _)) by (vm_compute; reflexivity).
  destruct (init_context_heap_footprint _ _ _ _ _ _
              (wf_world_candidates [sample_adapter (mk_luid 9 9)] []) Hrun)
    as (l & H).
  exists l. split; [exact Hrun|exact H].
Defined.

(** ** What the return value and the registry tell *)

Lemma resolves_unique P g f g' f' :
  resolves P g f -> resolves P g' f' -> g' = g /\ f' = f.
Proof.
  intros (img & Himg & Hg & Hf) (img' & Himg' & Hg' & Hf').
  rewrite Himg in Himg'. injection Himg' as <-. split; congruence.
Qed.

Lemma resolves_not_fails P g f : resolves P g f -> ~ resolver_fails P.
Proof.
  intros (img & Himg & Hg & Hf). unfold resolver_fails. rewrite Himg.
  intros [?|?]; congruence.
Qed.

(** X4.  The registry holds only adapters that the library enumerated, in
    the order of the enumeration.  Whenever [dxcore_init_context] returns on
    a machine whose library resolves and whose fill call of
    [D3DKMTEnumAdapters2] keeps to its contract (the count it leaves is
    covered by the records it wrote and by the capacity it was given), the
    handles of the adapters in the registry are a sublist of the handles of
    the records that the fill call wrote; so there are at most as many
    adapters as records, and no handle is in the registry twice unless the
    library reported it twice. *)
Theorem init_context_handles_enumerated P g f pCtx w r pCtx' w' :
  resolves P g f ->
  fill_contract g w (candidate_buffer w) ->
  wf_world w ->
  dxcore_init_context P pCtx w = Some ((r, pCtx'), w') ->
  exists l hs,
    registry w' pCtx' = Some l /\
    hAdapter <$> l = Some <$> hs /\
    hs `sublist_of`
      (ai_hAdapter <$> reply_adapters (enum_fill_reply g w (candidate_buffer w))) /\
    adapterCount pCtx'
      <= Z.of_nat (length (reply_adapters (enum_fill_reply g w (candidate_buffer w)))) /\
    (NoDup (ai_hAdapter <$> reply_adapters (enum_fill_reply g w (candidate_buffer w)))
     -> NoDup hs).
Proof.
  intros Hres Hcontract Hwf Hrun.
  destruct (init_context_owns P pCtx w r pCtx' w' Hwf Hrun)
    as (ts & Howns & _ & [(Hfail & _)|(g' & f' & Hres' & _ & _ & Hsub)]).
  { by destruct (resolves_not_fails _ _ _ Hres). }
  destruct (resolves_unique _ _ _ _ _ Hres Hres') as [-> ->].
  specialize (Hsub Hcontract).
  pose proof (registry_length _ _ _ (owns_registry _ _ _ _ Howns)) as Hlen.
  rewrite length_fmap in Hlen.
  exists (entry <$> ts), (adm_handle <$> ts).
  split; [apply Howns|]. split; [by rewrite <- !list_fmap_compose|].
  split; [done|]. split.
  - apply sublist_length in Hsub. rewrite !length_fmap in Hsub. lia.
  - intros Hnd. by eapply sublist_NoDup.
Qed.

Lemma init_context_handles_enumerated_witness :
  exists pCtx' w' l hs,
    dxcore_init_context
      (sample_platform [sample_adapter (mk_luid 1 0)] WDDM_2_7 sample_path)
      zero_context (boot []) = Some ((0, pCtx'), w') /\
    registry w' pCtx' = Some l /\
    hAdapter <$> l = Some <$> hs /\
    hs `sublist_of` [7] /\
    adapterCount pCtx' <= 1 /\
    (NoDup [7] -> NoDup hs).
Proof.
  eexists _, _.
  assert (Hrun : dxcore_init_context
            (sample_platform [sample_adapter (mk_luid 1 0)] WDDM_2_7 sample_path)
            zero_context (boot [])
          = Some ((0, _), _)) by (vm_compute; reflexivity).
  assert (Hres : resolves
            (sample_platform [sample_adapter (mk_luid 1 0)] WDDM_2_7 sample_path)
            (sample_enum [sample_adapter (mk_luid 1 0)])
            (sample_query WDDM_2_7 sample_path))
    by (eexists; repeat split; reflexivity).
  assert (Hcontract : fill_contract (sample_enum [sample_adapter (mk_luid 1 0)])
            (boot []) (candidate_buffer (boot [])))
    by (intros _; split; vm_compute; congruence).
  destruct (init_context_handles_enumerated
              (sample_platform [sample_adapter (mk_luid 1 0)] WDDM_2_7 sample_path)
              (sample_enum [sample_adapter (mk_luid 1 0)])
              (sample_query WDDM_2_7 sample_path)
              zero_context (boot []) _ _ _ Hres Hcontract (wf_world_boot []) Hrun)
    as (l & hs & H).
  exists l, hs. split; [exact Hrun|exact H].
Defined.

(** Without the contract the registry can hold a handle that no record
    carried.  A fill call that leaves a count of 2 and writes one record
    makes the loop read the second element as [malloc] left it, and the
    adapter with that handle, here 99, is admitted. *)
Example init_context_admits_unwritten_record :
  exists pCtx' w' l,
    dxcore_init_context
      (mk_platform
         (Some (mk_libdxcore
                  (Some (fun _ _ buf =>
                           mk_enum_reply 0 2
                             (match buf with
                              | NULL => []
                              | Ptr _ => [sample_adapter (mk_luid 1 0)]
                              end)))
                  (Some (sample_query WDDM_2_7 sample_path))))
         C_locale)
      zero_context (mk_world ∅ 1%positive [] 0 [] (fun _ _ => 99))
    = Some ((0, pCtx'), w') /\
    registry w' pCtx' = Some l /\
    hAdapter <$> l = [Some 7; Some 99].
Proof.
  eexists _, _, _. split; [vm_compute; reflexivity|].
  split; vm_compute; reflexivity.
Qed.

(** X5.  The return value tells nothing but the fate of the resolver, and
    the flag [initialized] agrees with it.  Whenever [dxcore_init_context]
    returns, the library is unloaded again; it returns -1 with
    [initialized = 0] and no adapter exactly when the library or one of its
    entry points is missing, and 0 with [initialized = 1] otherwise, however
    many candidates were skipped. *)
Theorem init_context_return_value P pCtx w r pCtx' w' :
  wf_world w ->
  dxcore_init_context P pCtx w = Some ((r, pCtx'), w') ->
  dl_handles w' = dl_handles w /\
  ((resolver_fails P /\ r = -1 /\ initialized pCtx' = 0 /\ adapterCount pCtx' = 0)
   \/ (~ resolver_fails P /\ r = 0 /\ initialized pCtx' = 1)).
Proof.
  intros Hwf Hrun.
  destruct (init_context_owns P pCtx w r pCtx' w' Hwf Hrun)
    as (ts & _ & Hdl & [(Hfail & -> & -> & _)|(g & f & Hres & -> & Hinit & _)]).
  - split; [done|]. by left.
  - split; [done|]. right. split; [by eapply resolves_not_fails|done].
Qed.

Lemma init_context_return_value_witness :
  exists pCtx' w',
    dxcore_init_context
      (sample_platform [sample_adapter (mk_luid 1 0)] (WDDM_2_7 - 1) sample_path)
      zero_context (boot []) = Some ((0, pCtx'), w') /\
    dl_handles w' = dl_handles (boot []) /\
    initialized pCtx' = 1.
Proof.
  eexists _, _.
  assert (Hrun : dxcore_init_context
            (sample_platform [sample_adapter (mk_luid 1 0)] (WDDM_2_7 - 1) sample_path)
            zero_context (boot [])
          = Some ((0, _), _)) by (vm_compute; reflexivity).
  split; [exact Hrun|].
  destruct (init_context_return_value _ _ _ _ _ _ (wf_world_boot []) Hrun)
    as (Hdl & [(_ & Hr & _)|(_ & _ & Hinit)]); [discriminate Hr|].
  split; [exact Hdl|exact Hinit].
Defined.

(** ** The calls of one qualification *)

Lemma free_calls p w u w' : free p w = Some (u, w') -> calls w' = calls w.
Proof.
  unfold free. destruct p as [|b]; [by intros [= <- <-]|].
  destruct (heap w !! b); [by intros [= <- <-]|done].
Qed.

Lemma store_calls p c w u w' : store p c w = Some (u, w') -> calls w' = calls w.
Proof.
  unfold store. destruct p as [|b]; [done|].
  destruct (heap w !! b); [by intros [= <- <-]|done].
Qed.

Lemma load_world p w c w' : load p w = Some (c, w') -> w' = w.
Proof.
  unfold load. destruct p as [|b]; [done|].
  destruct (heap w !! b); [by intros [= <- <-]|done].
Qed.

Lemma realloc_adapters_calls p n w q w' :
  realloc_adapters p n w = Some (q, w') -> calls w' = calls w.
Proof.
  unfold realloc_adapters.
  destruct (next_outcome (alloc_script w)) as [[|] s];
    (destruct p as [|b];
     [|destruct (heap w !! b) as [[sz []]|]; try done]);
    by intros [= <- <-].
Qed.

Section driverstore_trace.

Variable P : platform.
Variable pLib : dxcore_lib.
Variable f : pfnDxcoreQueryAdapterInfo.
Hypothesis Hf : pDxcoreQueryAdapterInfo pLib = Some f.
Variable h : Z.

(** The three ways a resolution ends: after the probe, after a fill that
    gave no path, and with a path. *)
Lemma driverstore_cases w p0 r path w' :
  wf_world w ->
  dxcore_query_adapter_driverstore P pLib h p0 w = Some ((r, path), w') ->
  (r = -1 /\ path = p0 /\ heap w' = heap w /\ dl_handles w' = dl_handles w /\
   calls w' = calls w ++ [probe_call h] /\
   (fst (probe_reply f h w) = 0 ->
    reported_size f h w <= DXCORE_MAX_PATH * sizeof_wchar_t ->
    fst (next_outcome (alloc_script w)) = false)) \/
  (r = -1 /\ heap w' = heap w /\ dl_handles w' = dl_handles w /\
   calls w' = calls w ++ [probe_call h; fill_call f h w] /\
   fst (probe_reply f h w) = 0 /\
   reported_size f h w <= DXCORE_MAX_PATH * sizeof_wchar_t /\
   ((path = p0 /\ fst (fill_reply f h w) <> 0) \/
    (path = NULL /\ fst (fill_reply f h w) = 0))) \/
  (r = 0 /\ dl_handles w' = dl_handles w /\
   calls w' = calls w ++ [probe_call h; fill_call f h w] /\
   fst (probe_reply f h w) = 0 /\
   reported_size f h w <= DXCORE_MAX_PATH * sizeof_wchar_t /\
   fst (fill_reply f h w) = 0).
Proof.
  intros Hwf Hrun.
  destruct (decide (fst (probe_reply f h w) = 0)) as [Hst1|Hst1].
  2:{ rewrite (driverstore_probe_failed P pLib f Hf) in Hrun by done.
      injection Hrun as <- <- <-. left. by repeat split. }
  destruct (decide (reported_size f h w <= DXCORE_MAX_PATH * sizeof_wchar_t))
    as [Hsz|Hsz].
  2:{ rewrite (driverstore_oversized P pLib f Hf) in Hrun by (done || lia).
      injection Hrun as <- <- <-. left. repeat split; try done; lia. }
  destruct (next_outcome_cases (alloc_script w)) as ([|] & s & Ha1).
  2:{ rewrite (driverstore_buffer_refused P pLib f Hf _ _ _ s) in Hrun by done.
      injection Hrun as <- <- <-. left. repeat split; try done.
      by rewrite Ha1. }
  destruct (decide (fst (fill_reply f h w) = 0)) as [Hst2|Hst2].
  2:{ rewrite (driverstore_fill_failed P pLib f Hf _ _ _ s) in Hrun by done.
      injection Hrun as <- <- <-. right. left. repeat split; try done.
      by left. }
  destruct (next_outcome_cases s) as ([|] & s' & Ha2).
  2:{ rewrite (driverstore_path_refused P pLib f Hf _ _ _ s s') in Hrun by done.
      injection Hrun as <- <- <-. right. left. repeat split; try done.
      by right. }
  destruct (driverstore_success P pLib f Hf h w p0 s s') as (bytes & r' & _ & Hrun');
    try done.
  rewrite Hrun' in Hrun. injection Hrun as <- <- <-.
  right. right. by repeat split.
Qed.

End driverstore_trace.

(** X6.  A resolution of the driver-store path that fails gives back all it
    took.  [dxcore_query_adapter_driverstore] returns 0 or -1; when it
    returns -1 the heap is the heap before the call (the query buffer is
    released on every path), at most the probe and the fill query have been
    made, and [*ppDriverStorePath] is what it was, except when the buffer
    for the narrow string could not be allocated after both queries had
    succeeded: then it is null.  It is never left pointing to memory of the
    call. *)
Theorem driverstore_failure_releases P pLib f h w p0 r path w' :
  pDxcoreQueryAdapterInfo pLib = Some f ->
  wf_world w ->
  dxcore_query_adapter_driverstore P pLib h p0 w = Some ((r, path), w') ->
  r <> 0 ->
  r = -1 /\ heap w' = heap w /\ dl_handles w' = dl_handles w /\
  ((path = p0 /\ calls w' = calls w ++ [probe_call h]) \/
   (path = p0 /\ fst (fill_reply f h w) <> 0 /\
    calls w' = calls w ++ [probe_call h; fill_call f h w]) \/
   (path = NULL /\ fst (fill_reply f h w) = 0 /\
    calls w' = calls w ++ [probe_call h; fill_call f h w])).
Proof.
  intros Hf Hwf Hrun Hr.
  destruct (driverstore_cases P pLib f Hf h w p0 r path w' Hwf Hrun)
    as [(-> & -> & Hheap & Hdl & Hcalls & _)
       |[(-> & Hheap & Hdl & Hcalls & _ & _ & Hpath)|(-> & _)]]; [| |done].
  - do 3 (split; [done|]). by left.
  - do 3 (split; [done|]). right.
    destruct Hpath as [[-> ?]|[-> ?]]; [by left|by right].
Qed.

Lemma driverstore_failure_releases_witness :
  exists w',
    dxcore_query_adapter_driverstore C_locale_platform
      (sample_lib [] WDDM_2_7 sample_path) 7 (Ptr 5) (boot [true; false])
    = Some ((-1, NULL), w') /\
    heap w' = heap (boot [true; false]) /\
    calls w' =
      [probe_call 7;
       fill_call (sample_query WDDM_2_7 sample_path) 7 (boot [true; false])].
Proof.
  eexists.
  assert (Hrun : dxcore_query_adapter_driverstore C_locale_platform
            (sample_lib [] WDDM_2_7 sample_path) 7 (Ptr 5) (boot [true; false])
          = Some ((-1, NULL), _)) by (vm_compute; reflexivity).
  split; [exact Hrun|].
  destruct (driverstore_failure_releases C_locale_platform
              (sample_lib [] WDDM_2_7 sample_path)
              (sample_query WDDM_2_7 sample_path) 7 (boot [true; false]) (Ptr 5)
              _ _ _ eq_refl (wf_world_boot _) Hrun ltac:(lia))
    as (_ & Hheap & _ & [(Hp & _)|[(Hp & _)|(_ & _ & Hcalls)]]);
    [discriminate Hp|discriminate Hp|].
  split; [exact Hheap|exact Hcalls].
Defined.

(** The queries of one qualification, and how far it went. *)
Lemma add_adapter_trace P pLib f pCtx e hA w pCtx' w' :
  pDxcoreQueryAdapterInfo pLib = Some f ->
  wf_world w ->
  load_ai_hAdapter e w = Some (hA, w) ->
  dxcore_add_adapter P pCtx pLib e w = Some (pCtx', w') ->
  (calls w' = calls w ++ [version_call hA] /\ pCtx' = pCtx /\
   (fst (version_reply f hA w) <> 0 \/ reported_version f hA w < WDDM_2_7)) \/
  (calls w' = calls w ++ [version_call hA; probe_call hA] /\ pCtx' = pCtx /\
   fst (version_reply f hA w) = 0 /\ WDDM_2_7 <= reported_version f hA w) \/
  (calls w' = calls w ++ [version_call hA; probe_call hA;
                          fill_call f hA (log_call w (version_call hA))] /\
   fst (version_reply f hA w) = 0 /\ WDDM_2_7 <= reported_version f hA w /\
   fst (probe_reply f hA (log_call w (version_call hA))) = 0 /\
   reported_size f hA (log_call w (version_call hA))
     <= DXCORE_MAX_PATH * sizeof_wchar_t).
Proof.
  intros Hf Hwf Hload Hrun.
  destruct (decide (fst (version_reply f hA w) = 0)) as [Hst|Hst].
  2:{ rewrite (add_adapter_version_failed P pLib f Hf pCtx e hA w) in Hrun by done.
      injection Hrun as <- <-. left. split; [done|]. split; [done|by left]. }
  destruct (decide (WDDM_2_7 <= reported_version f hA w)) as [Hv|Hv].
  2:{ rewrite (add_adapter_below_minimum P pLib f Hf pCtx e hA w) in Hrun
        by (done || lia).
      injection Hrun as <- <-. left. split; [done|]. split; [done|right; lia]. }
  right.
  assert (Hwf1 : wf_world (log_call w (version_call hA))) by done.
  unfold dxcore_add_adapter, bind in Hrun. rewrite Hload in Hrun.
  unfold dxcore_query_adapter_wddm_version, dxcore_query_adapter_info_helper in Hrun.
  rewrite Hf in Hrun. unfold reported_version, version_reply in *.
  destruct (f (calls w) hA DXCORE_QUERYDRIVERVERSION _ _) as [st v] eqn:E.
  cbn [fst snd] in *. subst st. cbn [Z.eqb negb] in Hrun.
  destruct (Z.ltb_spec (wrap32 v) WDDM_2_7); [lia|].
  fold (version_call hA) in Hrun. fold (log_call w (version_call hA)) in Hrun.
  destruct (dxcore_query_adapter_driverstore P pLib hA NULL
              (log_call w (version_call hA))) as [[[r path] w2]|] eqn:Hpath; [|done].
  destruct (driverstore_cases P pLib f Hf hA _ NULL r path w2 Hwf1 Hpath)
    as [(-> & _ & _ & _ & Hcalls & _)
       |[(-> & _ & _ & Hcalls & ? & ? & _)|(-> & _ & Hcalls & ? & ? & _)]];
    cbn [calls log_call] in Hcalls; rewrite <- app_assoc in Hcalls;
    cbn [app] in Hcalls; cbn [Z.eqb negb] in Hrun.
  - injection Hrun as <- <-. by left.
  - injection Hrun as <- <-. by right.
  - right. split; [|done]. rewrite <- Hcalls.
    destruct (realloc_adapters _ _ w2) as [[nl w3]|] eqn:Hre; [|done].
    apply realloc_adapters_calls in Hre. rewrite <- Hre.
    destruct (is_null nl).
    + destruct (free path w3) as [[u w4]|] eqn:Hfree; [|done].
      apply free_calls in Hfree. injection Hrun as <- <-. done.
    + destruct (load nl w3) as [[blk w4]|] eqn:Hl; [|done].
      apply load_world in Hl. subst w4.
      destruct blk as [| l | |]; try done.
      destruct (l !! _) as [a|]; [|done].
      destruct (store nl _ w3) as [[u w4]|] eqn:Hstore; [|done].
      apply store_calls in Hstore. injection Hrun as <- <-. done.
Qed.

(** X7.  The queries of one candidate come in a fixed order and stop at the
    first refusal.  Whenever [dxcore_add_adapter] returns for a candidate
    with handle [hA], it has made the version query alone (the query failed
    or reported less than WDDM 2.7), or the version query and the size
    probe, or the version query, the size probe and the fill query, all
    three for [hA] and in this order; and the session is changed only in
    the last case, after both the version check and the size check have
    passed. *)
Theorem add_adapter_query_protocol P pLib f pCtx e hA w pCtx' w' :
  pDxcoreQueryAdapterInfo pLib = Some f ->
  wf_world w ->
  load_ai_hAdapter e w = Some (hA, w) ->
  dxcore_add_adapter P pCtx pLib e w = Some (pCtx', w') ->
  (calls w' = calls w ++ [version_call hA] /\ pCtx' = pCtx /\
   (fst (version_reply f hA w) <> 0 \/ reported_version f hA w < WDDM_2_7)) \/
  (calls w' = calls w ++ [version_call hA; probe_call hA] /\ pCtx' = pCtx /\
   fst (version_reply f hA w) = 0 /\ WDDM_2_7 <= reported_version f hA w) \/
  (calls w' = calls w ++ [version_call hA; probe_call hA;
                          fill_call f hA (log_call w (version_call hA))] /\
   fst (version_reply f hA w) = 0 /\ WDDM_2_7 <= reported_version f hA w /\
   fst (probe_reply f hA (log_call w (version_call hA))) = 0 /\
   reported_size f hA (log_call w (version_call hA))
     <= DXCORE_MAX_PATH * sizeof_wchar_t).
Proof. apply add_adapter_trace. Qed.

Lemma add_adapter_query_protocol_witness :
  exists pCtx' w',
    dxcore_add_adapter C_locale_platform zero_context
      (sample_lib [] WDDM_2_7 sample_path) (Ptr 1, 0)
      (candidates_world [sample_adapter (mk_luid 1 0)] [])
    = Some (pCtx', w') /\
    adapterCount pCtx' = 1 /\
    calls w' =
      [version_call 7; probe_call 7;
       fill_call (sample_query WDDM_2_7 sample_path) 7
         (log_call (candidates_world [sample_adapter (mk_luid 1 0)] [])
            (version_call 7))].
Proof.
  eexists _, _.
  assert (Hrun : dxcore_add_adapter C_locale_platform zero_context
            (sample_lib [] WDDM_2_7 sample_path) (Ptr 1, 0)
            (candidates_world [sample_adapter (mk_luid 1 0)] [])
          = Some (mk_context 1 _ _, _)) by (vm_compute; reflexivity).
  split; [exact Hrun|]. split; [reflexivity|].
  destruct (add_adapter_query_protocol C_locale_platform
              (sample_lib [] WDDM_2_7 sample_path)
              (sample_query WDDM_2_7 sample_path) zero_context (Ptr 1, 0) 7
              (candidates_world [sample_adapter (mk_luid 1 0)] []) _ _
              eq_refl (wf_world_candidates _ _) eq_refl Hrun)
    as [(_ & Hp & _)|[(_ & Hp & _)|(Hcalls & _)]];
    [discriminate Hp|discriminate Hp|exact Hcalls].
Defined.

(** ** An enumeration that the library refuses *)

(** X8.  When [D3DKMTEnumAdapters2] fails, on the size probe or on the fill
    call, [dxcore_enum_adapters] returns with the session and the heap as
    they were: the candidate buffer, if there was memory for one, is
    released, no adapter is queried, and the call history has grown by the
    calls of the enumeration alone.  This holds whether or not the candidate
    buffer could be allocated. *)
Theorem enum_adapters_library_failure P pLib g pCtx w :
  pDxcoreEnumAdapters2 pLib = Some g ->
  wf_world w ->
  reply_status (enum_probe_reply g w) <> 0 \/
  reply_status (enum_fill_reply g w (candidate_buffer w)) <> 0 ->
  exists w',
    dxcore_enum_adapters P pCtx pLib w = Some (pCtx, w') /\
    heap w' = heap w /\
    dl_handles w' = dl_handles w /\
    (calls w' = calls w ++ [enum_probe_call] \/
     calls w' = calls w ++ [enum_probe_call; enum_fill_call g w (candidate_buffer w)]).
Proof.
  intros Hg Hwf Hfail.
  destruct (decide (reply_status (enum_probe_reply g w) = 0)) as [Hst|Hst].
  2:{ eexists. split; [by apply (enum_adapters_probe_failed P pLib g Hg)|].
      do 2 (split; [done|]). by left. }
  destruct Hfail as [?|Hfill]; [done|].
  unfold candidate_buffer in *.
  destruct (next_outcome_cases (alloc_script w)) as ([|] & s & Ha);
    rewrite Ha in *; cbn [fst] in *.
  - rewrite (enum_adapters_buffer_granted P pLib g Hg pCtx w s Hst Ha).
    destruct (Z.eqb_spec (reply_status (enum_fill_reply g w (Ptr (next_block w)))) 0)
      as [|_]; [done|]. cbn [negb].
    eexists. split; [done|]. unfold world_with_buffer. cbn [heap set_heap dl_handles calls].
    split; [|split; [done|by right]].
    rewrite delete_insert_eq. apply delete_id. by apply wf_world_fresh.
  - rewrite (enum_adapters_buffer_refused P pLib g Hg pCtx w s Hst Ha).
    destruct (Z.eqb_spec (reply_status (enum_fill_reply g w NULL)) 0)
      as [|_]; [done|]. cbn [negb].
    eexists. split; [done|]. unfold world_without_buffer. cbn [heap dl_handles calls].
    split; [done|]. split; [done|by right].
Qed.

Lemma enum_adapters_library_failure_witness :
  exists w',
    dxcore_enum_adapters C_locale_platform zero_context
      (mk_lib None
         (Some (fun _ _ buf =>
                  match buf with
                  | NULL => mk_enum_reply 0 2 []
                  | Ptr _ => mk_enum_reply 5 0 []
                  end))
         None)
      (boot [])
    = Some (zero_context, w') /\
    heap w' = heap (boot []) /\
    calls w' = [CallEnumAdapters2 0 NULL; CallEnumAdapters2 2 (Ptr 1)].
Proof.
  destruct (enum_adapters_library_failure C_locale_platform
              (mk_lib None
                 (Some (fun _ _ buf =>
                          match buf with
                          | NULL => mk_enum_reply 0 2 []
                          | Ptr _ => mk_enum_reply 5 0 []
                          end))
                 None)
              _ zero_context (boot []) eq_refl (wf_world_boot [])
              ltac:(right; vm_compute; discriminate))
    as (w' & Hrun & Hheap & _ & Hcalls).
  exists w'. split; [exact Hrun|]. split; [exact Hheap|].
  destruct Hcalls as [Hcalls|Hcalls]; [exfalso|exact Hcalls].
  vm_compute in Hrun. injection Hrun as <-. discriminate Hcalls.
Defined.

(** ** A library that turns no adapter down *)

Section admits_all.

Variable P : platform.
Variable pLib : dxcore_lib.
Variable f : pfnDxcoreQueryAdapterInfo.
Hypothesis Hf : pDxcoreQueryAdapterInfo pLib = Some f.
Hypothesis Hacc : accepts_all f.

(** With memory for every request, a readable candidate is appended. *)
Lemma add_adapter_accepted pCtx e hA w l :
  wf_world w ->
  alloc_script w = [] ->
  load_ai_hAdapter e w = Some (hA, w) ->
  registry w pCtx = Some l ->
  Forall version_admitted l ->
  adapterCount pCtx + 1 < 2 ^ 32 ->
  exists pCtx' w' a,
    dxcore_add_adapter P pCtx pLib e w = Some (pCtx', w') /\
    wf_world w' /\
    alloc_script w' = [] /\
    registry w' pCtx' = Some (l ++ [a]) /\
    Forall version_admitted (l ++ [a]) /\
    hAdapter a = Some hA /\
    adapterCount pCtx' = adapterCount pCtx + 1 /\
    (forall b c, heap w !! b = Some c -> Ptr b <> adapterList pCtx ->
                 heap w' !! b = Some c).
Proof.
  intros Hwf Hs Hload Hreg Hall Hcount.
  destruct (Hacc hA w) as (Hst & Hv & _).
  destruct (Hacc hA (log_call w (version_call hA))) as (_ & _ & Hp & Hsz & Hfill).
  destruct (add_adapter_outcome P pLib f Hf pCtx e hA w l)
    as (pCtx' & w' & l' & Hrun & Hwf' & Hreg' & Hall' & _ & _ & _ & Hfr); try done.
  assert (Hwf1 : wf_world (log_call w (version_call hA))) by done.
  destruct (driverstore_success P pLib f Hf hA (log_call w (version_call hA))
              NULL [] []) as (bytes & r & _ & Hpath); try done.
  { simpl. by rewrite Hs. }
  destruct (resolved_path_frame P pLib f Hf pCtx hA w l _ _ Hwf Hreg Hpath)
    as (ap & _ & _ & _ & _ & Hreg2).
  pose proof (add_adapter_appended P pLib f Hf pCtx e hA w _ _ l []
                Hload Hst Hv Hpath Hreg2 eq_refl Hcount) as Hrun2.
  pose proof (registry_appended _ pCtx l
                (fill_adapter indeterminate_adapter hA
                   (Ptr (Pos.succ (next_block (log_call w (version_call hA)))))
                   (reported_version f hA w))
                [] (sizeof_adapter * (adapterCount pCtx + 1)) Hreg2) as Hreg3.
  rewrite Hrun2 in Hrun. injection Hrun as <- <-.
  assert (Hl : Some l' =
               Some (l ++ [fill_adapter indeterminate_adapter hA
                             (Ptr (Pos.succ (next_block (log_call w (version_call hA)))))
                             (reported_version f hA w)]))
    by (rewrite <- Hreg'; exact Hreg3).
  injection Hl as ->.
  eexists _, _, _. split; [exact Hrun2|].
  split; [done|]. split; [done|]. split; [exact Hreg3|].
  split; [done|]. split; [done|]. split; [done|]. exact Hfr.
Qed.

(** The loop admits every candidate it can read, in the order of the
    indices. *)
Lemma enum_loop_admits_all (bb : positive) sz buf (idxs : list Z) : forall pCtx w l,
  wf_world w ->
  alloc_script w = [] ->
  registry w pCtx = Some l ->
  Forall version_admitted l ->
  adapterCount pCtx + Z.of_nat (length idxs) < 2 ^ 32 ->
  heap w !! bb = Some (mk_allocation sz (BAdapterInfos buf)) ->
  Forall (fun i => 0 <= i /\ exists ai, buf !! Z.to_nat i = Some (Some ai)) idxs ->
  exists pCtx' w' l',
    for_each (fun pCtx i => dxcore_add_adapter P pCtx pLib (Ptr bb, i)) idxs pCtx w
      = Some (pCtx', w') /\
    registry w' pCtx' = Some (l ++ l') /\
    hAdapter <$> l' = candidate_handle buf <$> idxs /\
    adapterCount pCtx' = adapterCount pCtx + Z.of_nat (length idxs) /\
    heap w' !! bb = Some (mk_allocation sz (BAdapterInfos buf)).
Proof.
  induction idxs as [|i idxs IH]; intros pCtx w l Hwf Hs Hreg Hall Hcount Hbb Hread.
  - exists pCtx, w, []. rewrite app_nil_r. simpl. repeat split; try done. lia.
  - apply Forall_cons in Hread as [(Hi & ai & Hai) Hread].
    cbn [length] in Hcount.
    destruct (add_adapter_accepted pCtx (Ptr bb, i) (ai_hAdapter ai) w l)
      as (pCtx1 & w1 & a & Hstep & Hwf1 & Hs1 & Hreg1 & Hall1 & Hh & Hc1 & Hfr1);
      try done; try lia.
    { by eapply load_ai_hAdapter_live. }
    destruct (IH pCtx1 w1 (l ++ [a])) as (pCtx' & w' & l' & Hloop & Hreg' & Hhs & Hc' & Hbb');
      try done; try lia.
    { apply Hfr1; [done|]. eapply registry_not_adapters; [done..|]. by intros l0. }
    exists pCtx', w', (a :: l'). cbn [for_each]. unfold bind. rewrite Hstep.
    split; [done|]. rewrite <- app_assoc in Hreg'. split; [done|].
    split; [|split; [cbn [length]; lia|done]].
    cbn [fmap list_fmap]. rewrite Hh. f_equal; [|exact Hhs].
    unfold candidate_handle. destruct (Z.ltb_spec i 0); [lia|]. by rewrite Hai.
Qed.

Variable g : pfnDxcoreEnumAdapters2.
Hypothesis Hg : pDxcoreEnumAdapters2 pLib = Some g.

(** The enumeration admits every record that the fill call counted. *)
Lemma enum_adapters_admits_all pCtx w :
  wf_world w ->
  alloc_script w = [] ->
  registry w pCtx = Some [] ->
  reply_status (enum_probe_reply g w) = 0 ->
  reply_status (enum_fill_reply g w (Ptr (next_block w))) = 0 ->
  fill_contract g w (Ptr (next_block w)) ->
  exists pCtx' w' l,
    dxcore_enum_adapters P pCtx pLib w = Some (pCtx', w') /\
    registry w' pCtx' = Some l /\
    hAdapter <$> l =
      Some <$> (ai_hAdapter <$>
                  take (Z.to_nat (filled_count g w (Ptr (next_block w))))
                    (reply_adapters (enum_fill_reply g w (Ptr (next_block w))))) /\
    adapterCount pCtx' = filled_count g w (Ptr (next_block w)).
Proof.
  intros Hwf Hs Hreg Hst Hst2 Hcontract.
  pose proof (wf_world_fresh w Hwf) as Hfresh.
  pose proof (registry_length _ _ _ Hreg) as Hzero. simpl in Hzero.
  destruct (Hcontract Hst2) as [Hwritten Hcap].
  pose proof (wrap32_range (reply_NumAdapters (enum_fill_reply g w (Ptr (next_block w)))))
    as Hrange. fold (filled_count g w (Ptr (next_block w))) in Hrange.
  set (m := filled_count g w (Ptr (next_block w))) in *.
  set (written := reply_adapters (enum_fill_reply g w (Ptr (next_block w)))) in *.
  assert (Ha : next_outcome (alloc_script w) = (true, [])) by (by rewrite Hs).
  rewrite (enum_adapters_buffer_granted P pLib g Hg pCtx w [] Hst Ha).
  rewrite Hst2. cbn [Z.eqb negb].
  assert (Hwf2 : wf_world (world_with_buffer g w [])).
  { eapply wf_world_heap; [exact Hwf| |simpl; lia].
    simpl. intros b Hb. rewrite lookup_insert in Hb.
    case_decide; [subst; right; lia|by left]. }
  assert (Hreg2 : registry (world_with_buffer g w []) pCtx = Some []).
  { eapply registry_frame; [exact Hreg|]. simpl.
    intros b a Hb. rewrite lookup_insert_ne; [done|congruence]. }
  destruct (enum_loop_admits_all (next_block w)
              (sizeof_adapterInfo * candidate_count g w)
              (overlay (Some <$> written)
                 (replicate (Z.to_nat (candidate_count g w)) None))
              (seqZ 0 m)
              pCtx (world_with_buffer g w []) [] Hwf2 eq_refl Hreg2 (Forall_nil_2 _))
    as (pCtx3 & w3 & l & Hloop & Hreg3 & Hhs & Hc3 & Hbb3).
  { rewrite length_seqZ. lia. }
  { simpl. apply lookup_insert_eq. }
  { apply Forall_forall. intros i Hi. apply elem_of_seqZ in Hi.
    split; [lia|].
    destruct (lookup_lt_is_Some_2 written (Z.to_nat i)) as [ai Hai]; [lia|].
    exists ai. rewrite lookup_overlay_lt.
    - by rewrite list_lookup_fmap, Hai.
    - rewrite length_fmap. lia.
    - rewrite length_replicate. lia. }
  fold m. rewrite Hloop.
  erewrite free_live by exact Hbb3.
  exists pCtx3, (set_heap w3 (delete (next_block w) (heap w3))), l.
  split; [done|]. simpl in Hreg3. split; [|split].
  - assert (Hne : Ptr (next_block w) <> adapterList pCtx3).
    { eapply registry_not_adapters; [exact Hreg3|exact Hbb3|]. by intros l0. }
    unfold registry in *. simpl. destruct (adapterList pCtx3) as [|b]; [done|].
    rewrite lookup_delete_ne; [done|congruence].
  - rewrite Hhs. clear -Hwritten Hcap Hrange.
    assert (Hnat : forall k : nat, (k <= length written)%nat ->
              (k <= Z.to_nat (candidate_count g w))%nat ->
              candidate_handle
                (overlay (Some <$> written)
                   (replicate (Z.to_nat (candidate_count g w)) None))
                <$> seqZ 0 (Z.of_nat k)
              = Some <$> (ai_hAdapter <$> take k written)).
    { induction k as [|k IH]; intros Hk1 Hk2; [done|].
      rewrite seqZ_S, fmap_app, IH by lia. cbn [fmap list_fmap]. rewrite Z.add_0_l.
      rewrite candidate_handle_written.
      destruct (lookup_lt_is_Some_2 written k) as [ai Hai]; [lia|].
      rewrite lookup_take_lt, Hai by lia.
      rewrite (take_S_r _ _ ai) by done. by rewrite !fmap_app. }
    rewrite <- (Z2Nat.id m) at 1 by lia. apply Hnat; lia.
  - rewrite Hc3, length_seqZ. lia.
Qed.

End admits_all.

(** X9.  Nothing is dropped on a machine that turns nothing down.  When the
    library resolves, both calls of [D3DKMTEnumAdapters2] succeed and the
    fill call keeps to its contract, the library accepts every adapter, and
    no allocation fails, [dxcore_init_context] returns 0 with a registry
    that holds exactly the records the fill call counted, one adapter for
    each, in the order of the enumeration. *)
Theorem init_context_admits_all P g f pCtx w :
  resolves P g f ->
  accepts_all f ->
  wf_world w ->
  alloc_script w = [] ->
  reply_status (enum_probe_reply g w) = 0 ->
  reply_status (enum_fill_reply g w (candidate_buffer w)) = 0 ->
  fill_contract g w (candidate_buffer w) ->
  exists pCtx' w' l,
    dxcore_init_context P pCtx w = Some ((0, pCtx'), w') /\
    registry w' pCtx' = Some l /\
    hAdapter <$> l =
      Some <$> (ai_hAdapter <$>
                  take (Z.to_nat (filled_count g w (candidate_buffer w)))
                    (reply_adapters (enum_fill_reply g w (candidate_buffer w)))) /\
    adapterCount pCtx' = filled_count g w (candidate_buffer w) /\
    initialized pCtx' = 1.
Proof.
  intros Hres Hacc Hwf Hs Hst Hst2 Hcontract.
  assert (Hbuf : candidate_buffer w = Ptr (next_block w))
    by (unfold candidate_buffer; by rewrite Hs).
  rewrite Hbuf in *.
  destruct (init_context_resolved P g f pCtx w Hres) as (lib & Hlg & Hlf & ->).
  set (w0 := set_dl_handles w (S (dl_handles w))).
  destruct (enum_adapters_admits_all P lib f Hlf Hacc g Hlg zero_context w0)
    as (pCtx1 & w1 & l & Henum & Hreg & Hh & Hc); try done.
  rewrite Henum.
  destruct (enum_adapters_inv P lib f Hlf g Hlg zero_context w0 [] pCtx1 w1)
    as (_ & _ & Hdl & _); try done.
  rewrite Hdl. cbn [dl_handles w0 set_dl_handles].
  eexists _, _, l. split; [done|]. split; [exact Hreg|]. split; [exact Hh|].
  split; [exact Hc|done].
Qed.

Lemma init_context_admits_all_witness :
  exists pCtx' w' l,
    dxcore_init_context
      (sample_platform
         [mk_adapterInfo 7 (mk_luid 1 0) 1 0; mk_adapterInfo 8 (mk_luid 2 0) 1 0]
         WDDM_2_7 sample_path)
      zero_context (boot []) = Some ((0, pCtx'), w') /\
    registry w' pCtx' = Some l /\
    hAdapter <$> l = [Some 7; Some 8] /\
    adapterCount pCtx' = 2.
Proof.
  assert (Hres : resolves
            (sample_platform
               [mk_adapterInfo 7 (mk_luid 1 0) 1 0; mk_adapterInfo 8 (mk_luid 2 0) 1 0]
               WDDM_2_7 sample_path)
            (sample_enum
               [mk_adapterInfo 7 (mk_luid 1 0) 1 0; mk_adapterInfo 8 (mk_luid 2 0) 1 0])
            (sample_query WDDM_2_7 sample_path))
    by (eexists; repeat split; reflexivity).
  assert (Hacc : accepts_all (sample_query WDDM_2_7 sample_path))
    by (intros h w; repeat split; vm_compute; congruence).
  assert (Hcontract : fill_contract
            (sample_enum
               [mk_adapterInfo 7 (mk_luid 1 0) 1 0; mk_adapterInfo 8 (mk_luid 2 0) 1 0])
            (boot []) (candidate_buffer (boot [])))
    by (intros _; split; vm_compute; congruence).
  destruct (init_context_admits_all _ _ _ zero_context (boot []) Hres Hacc
              (wf_world_boot []) eq_refl eq_refl eq_refl Hcontract)
    as (pCtx' & w' & l & Hrun & Hreg & Hh & Hc & _).
  exists pCtx', w', l.
  split; [exact Hrun|]. split; [exact Hreg|]. split; [exact Hh|exact Hc].
Defined.

(** ** The call history of an initialisation *)

Section candidate_queries.

Variable P : platform.
Variable pLib : dxcore_lib.
Variable f : pfnDxcoreQueryAdapterInfo.
Hypothesis Hf : pDxcoreQueryAdapterInfo pLib = Some f.

(** The calls of a loop over candidates that the library wrote are queries
    about those candidates. *)
Lemma enum_loop_calls (bb : positive) sz buf (idxs : list Z) :
  forall pCtx w l pCtx' w',
  wf_world w ->
  registry w pCtx = Some l ->
  Forall version_admitted l ->
  adapterCount pCtx + Z.of_nat (length idxs) < 2 ^ 32 ->
  heap w !! bb = Some (mk_allocation sz (BAdapterInfos buf)) ->
  Forall (fun i => is_Some (candidate_handle buf i)) idxs ->
  for_each (fun pCtx i => dxcore_add_adapter P pCtx pLib (Ptr bb, i)) idxs pCtx w
    = Some (pCtx', w') ->
  exists qs,
    calls w' = calls w ++ qs /\
    Forall (fun c => exists h, query_of c = Some h /\
                               h ∈ omap (candidate_handle buf) idxs) qs.
Proof.
  induction idxs as [|i idxs IH];
    intros pCtx w l pCtx' w' Hwf Hreg Hall Hcount Hbb Hwritten Hrun.
  - injection Hrun as <- <-. exists []. by rewrite app_nil_r.
  - cbn [for_each] in Hrun. apply bind_Some in Hrun as (pCtx1 & w1 & Hstep & Hrun).
    destruct (add_adapter_Some_load _ _ _ _ _ _ Hstep) as [hA Hload].
    cbn [length] in Hcount.
    apply Forall_cons in Hwritten as [Hi Hwritten].
    pose proof (load_ai_hAdapter_handle _ _ _ _ _ _ _ Hload Hbb Hi) as Hh.
    destruct (add_adapter_outcome P pLib f Hf pCtx (Ptr bb, i) hA w l)
      as (pCtx1' & w1' & l1 & Hstep' & Hwf1 & Hreg1 & Hall1 & _ & _ & Hc1 & Hfr1);
      try done; try lia.
    rewrite Hstep in Hstep'. injection Hstep' as <- <-.
    assert (Hbb1 : heap w1 !! bb = Some (mk_allocation sz (BAdapterInfos buf))).
    { apply Hfr1; [done|]. eapply registry_not_adapters; [done..|]. by intros l0. }
    destruct (IH pCtx1 w1 l1 pCtx' w' Hwf1 Hreg1 Hall1 ltac:(lia) Hbb1 Hwritten Hrun)
      as (qs2 & Hcalls2 & Hqs2).
    assert (Hmine : forall c, c ∈ [version_call hA; probe_call hA;
                                   fill_call f hA (log_call w (version_call hA))] ->
              exists h, query_of c = Some h /\
                        h ∈ omap (candidate_handle buf) (i :: idxs)).
    { intros c Hc. exists hA. split.
      - repeat (apply elem_of_cons in Hc as [->|Hc]; [done|]).
        by apply elem_of_nil in Hc.
      - apply list_elem_of_omap. exists i. split; [by left|done]. }
    assert (Hrest : Forall (fun c => exists h, query_of c = Some h /\
                              h ∈ omap (candidate_handle buf) (i :: idxs)) qs2).
    { eapply Forall_impl; [exact Hqs2|]. intros c (h & Hq & Hin).
      exists h. split; [done|]. apply list_elem_of_omap in Hin as (j & Hj & Hjh).
      apply list_elem_of_omap. exists j. split; [by right|done]. }
    destruct (add_adapter_trace P pLib f pCtx (Ptr bb, i) hA w pCtx1 w1 Hf Hwf Hload Hstep)
      as [(Hcalls1 & _)|[(Hcalls1 & _)|(Hcalls1 & _)]];
      (eexists; split; [rewrite Hcalls2, Hcalls1, <- app_assoc; reflexivity|]);
      (apply Forall_app; split; [|exact Hrest]);
      apply Forall_forall; intros c Hc; apply Hmine;
      repeat (apply elem_of_cons in Hc as [->|Hc];
              [repeat constructor|]); by apply elem_of_nil in Hc.
Qed.

Variable g : pfnDxcoreEnumAdapters2.
Hypothesis Hg : pDxcoreEnumAdapters2 pLib = Some g.

(** The calls of an enumeration whose fill call keeps to its contract: the
    size probe, the fill call, then queries about records that the fill
    call wrote. *)
Lemma enum_adapters_calls pCtx w l pCtx' w' :
  wf_world w ->
  registry w pCtx = Some l ->
  Forall version_admitted l ->
  adapterCount pCtx = 0 ->
  fill_contract g w (candidate_buffer w) ->
  dxcore_enum_adapters P pCtx pLib w = Some (pCtx', w') ->
  calls w' = calls w ++ [enum_probe_call] \/
  exists qs,
    calls w' = calls w ++ enum_probe_call
                 :: enum_fill_call g w (candidate_buffer w) :: qs /\
    Forall (fun c => exists h, query_of c = Some h /\
              h ∈ ai_hAdapter <$>
                    reply_adapters (enum_fill_reply g w (candidate_buffer w))) qs.
Proof.
  intros Hwf Hreg Hall Hzero Hcontract Hrun.
  pose proof (wf_world_fresh w Hwf) as Hfresh.
  assert (Hbound : forall q,
            adapterCount pCtx + Z.of_nat (length (seqZ 0 (filled_count g w q))) < 2 ^ 32).
  { intros q. rewrite length_seqZ, Hzero.
    pose proof (wrap32_range (reply_NumAdapters (enum_fill_reply g w q))).
    unfold filled_count. lia. }
  destruct (decide (reply_status (enum_probe_reply g w) = 0)) as [Hst|Hst].
  2:{ rewrite (enum_adapters_probe_failed P pLib g Hg) in Hrun by done.
      injection Hrun as <- <-. by left. }
  right. unfold candidate_buffer in *.
  destruct (next_outcome_cases (alloc_script w)) as ([|] & s & Ha);
    rewrite Ha in *; cbn [fst] in *.
  - rewrite (enum_adapters_buffer_granted P pLib g Hg _ _ s) in Hrun by done.
    destruct (Z.eqb_spec (reply_status (enum_fill_reply g w (Ptr (next_block w)))) 0)
      as [Hst2|_]; cbn [negb] in Hrun.
    2:{ injection Hrun as <- <-. exists []. split; [done|constructor]. }
    destruct (for_each _ _ _ _) as [[pCtx3 w3]|] eqn:Hloop; [|done].
    destruct (free _ w3) as [[[] w4]|] eqn:Hfree; [|done].
    injection Hrun as <- <-. apply free_calls in Hfree.
    destruct (Hcontract Hst2) as [Hwritten Hcap].
    pose proof (wrap32_range (reply_NumAdapters (enum_probe_reply g w))) as Hcc.
    fold (candidate_count g w) in Hcc.
    assert (Hwf2 : wf_world (world_with_buffer g w s)).
    { eapply wf_world_heap; [exact Hwf| |simpl; lia].
      simpl. intros b Hb. rewrite lookup_insert in Hb.
      case_decide; [subst; right; lia|by left]. }
    assert (Hreg2 : registry (world_with_buffer g w s) pCtx = Some l).
    { eapply registry_frame; [exact Hreg|]. simpl.
      intros b a Hb. rewrite lookup_insert_ne; [done|congruence]. }
    destruct (enum_loop_calls (next_block w)
                (sizeof_adapterInfo * candidate_count g w)
                (overlay
                   (Some <$> reply_adapters (enum_fill_reply g w (Ptr (next_block w))))
                   (replicate (Z.to_nat (candidate_count g w)) None))
                (seqZ 0 (filled_count g w (Ptr (next_block w))))
                pCtx (world_with_buffer g w s) l pCtx3 w3 Hwf2 Hreg2 Hall (Hbound _)
                ltac:(simpl; apply lookup_insert_eq))
      as (qs & Hcalls & Hqs); [|exact Hloop|].
    { apply Forall_forall. intros i Hi. apply elem_of_seqZ in Hi.
      apply candidate_handle_counted; lia. }
    exists qs. split.
    + rewrite Hfree, Hcalls. simpl. by rewrite <- app_assoc.
    + eapply Forall_impl; [exact Hqs|]. intros c (h & Hq & Hin).
      exists h. split; [done|].
      eapply elem_of_sublist; [exact Hin|apply candidate_handles_written].
  - rewrite (enum_adapters_buffer_refused P pLib g Hg _ _ s) in Hrun by done.
    destruct (negb _).
    + injection Hrun as <- <-. exists []. split; [done|constructor].
    + destruct (seqZ 0 (filled_count g w NULL)) as [|i rest].
      * injection Hrun as <- <-. exists []. split; [done|constructor].
      * cbn [for_each] in Hrun. apply bind_Some in Hrun as (pCtx1 & w1 & Hstep & _).
        destruct (add_adapter_Some_load _ _ _ _ _ _ Hstep) as [hA Hload].
        by rewrite load_ai_hAdapter_null in Hload.
Qed.

End candidate_queries.

(** X10.  Initialisation calls the library in a fixed order and asks about
    no adapter that the library did not enumerate.  Whenever
    [dxcore_init_context] returns on a machine whose library resolves and
    whose fill call of [D3DKMTEnumAdapters2] keeps to its contract, it has
    made the size probe alone, or the size probe, then one fill call with
    the count of the probe and the candidate buffer, then calls of
    [D3DKMTQueryAdapterInfo] only, each for the handle of a record that the
    fill call wrote. *)
Theorem init_context_call_history P g f pCtx w r pCtx' w' :
  resolves P g f ->
  fill_contract g w (candidate_buffer w) ->
  wf_world w ->
  dxcore_init_context P pCtx w = Some ((r, pCtx'), w') ->
  calls w' = calls w ++ [enum_probe_call] \/
  exists qs,
    calls w' = calls w ++ enum_probe_call
                 :: enum_fill_call g w (candidate_buffer w) :: qs /\
    Forall (fun c => exists h, query_of c = Some h /\
              h ∈ ai_hAdapter <$>
                    reply_adapters (enum_fill_reply g w (candidate_buffer w))) qs.
Proof.
  intros Hres Hcontract Hwf Hrun.
  destruct (init_context_resolved P g f pCtx w Hres) as (lib & Hlg & Hlf & Heq).
  rewrite Heq in Hrun.
  destruct (dxcore_enum_adapters _ _ _ _) as [[pCtx1 w1]|] eqn:Henum; [|done].
  destruct (dl_handles w1) as [|n]; [done|]. injection Hrun as <- <- <-.
  exact (enum_adapters_calls P lib f Hlf g Hlg zero_context
           (set_dl_handles w (S (dl_handles w))) [] pCtx1 w1
           Hwf eq_refl (Forall_nil_2 _) eq_refl Hcontract Henum).
Qed.

Lemma init_context_call_history_witness :
  exists pCtx' w' qs,
    dxcore_init_context
      (sample_platform [sample_adapter (mk_luid 1 0)] (WDDM_2_7 - 1) sample_path)
      zero_context (boot []) = Some ((0, pCtx'), w') /\
    calls w' = CallEnumAdapters2 0 NULL :: CallEnumAdapters2 1 (Ptr 1) :: qs /\
    Forall (fun c => exists h, query_of c = Some h /\ h ∈ [7]) qs.
Proof.
  eexists _, _.
  assert (Hrun : dxcore_init_context
            (sample_platform [sample_adapter (mk_luid 1 0)] (WDDM_2_7 - 1) sample_path)
            zero_context (boot [])
          = Some ((0, _), _)) by (vm_compute; reflexivity).
  assert (Hres : resolves
            (sample_platform [sample_adapter (mk_luid 1 0)] (WDDM_2_7 - 1) sample_path)
            (sample_enum [sample_adapter (mk_luid 1 0)])
            (sample_query (WDDM_2_7 - 1) sample_path))
    by (eexists; repeat split; reflexivity).
  assert (Hcontract : fill_contract (sample_enum [sample_adapter (mk_luid 1 0)])
            (boot []) (candidate_buffer (boot [])))
    by (intros _; split; vm_compute; congruence).
  destruct (init_context_call_history
              (sample_platform [sample_adapter (mk_luid 1 0)] (WDDM_2_7 - 1) sample_path)
              (sample_enum [sample_adapter (mk_luid 1 0)])
              (sample_query (WDDM_2_7 - 1) sample_path)
              zero_context (boot []) _ _ _ Hres Hcontract (wf_world_boot []) Hrun)
    as [Hcalls|(qs & Hcalls & Hqs)]; [discriminate Hcalls|].
  exists qs. split; [exact Hrun|]. split; [exact Hcalls|exact Hqs].
Defined.

(** ** The size of a resolved path *)


